(** * Auction site: the bidding engine of [server.js]

    A shallow embedding of the request handlers of [src/server.js] that
    read and write [DATA.auctions], and the properties of the bidding
    engine stated over it.

    - JavaScript numbers are IEEE 754 binary64 values: they are modelled
      by Rocq's primitive [float], whose operations are the same ones
      ([-], [<], [<=], [===] on numbers is [=?]).
    - [DATA.auctions] is a JavaScript array of objects, modelled as a
      [list auction]; [find] returns the first match and the handlers
      mutate that object in place.
    - Dates are time values in milliseconds since the epoch ([Z]); the
      clock ([new Date()]) and the random source ([crypto.randomBytes])
      are inputs of the handlers.
    - The admin routes are modelled behind [authRequired], for a session
      that is logged in; [saveData] writes the store to disk and changes
      nothing in memory, so it does not appear. *)

From Stdlib Require Import ZArith List String Ascii Bool Lia Floats.
From Stdlib Require Import Sorted Permutation.
Import ListNotations.

Local Open Scope string_scope.
Local Open Scope Z_scope.

(** ** JavaScript numbers *)

Module Num.

Local Open Scope float_scope.

Definition number := float.

(** [isNaN(x)] *)
Definition isNaN (x : number) : bool := is_nan x.

(** [ToBoolean(x)] for a number: false for [+0], [-0] and [NaN]. *)
Definition truthy (x : number) : bool := negb ((x =? 0) || is_nan x).

(** [x || d] for a number [x]. *)
Definition or_else (x d : number) : number := if truthy x then x else d.

(** [x !== y] on numbers. *)
Definition strict_neq (x y : number) : bool := negb (x =? y).

(** [x > y] *)
Definition gtb (x y : number) : bool := y <? x.

(** The integer [n] of [Number.prototype.toFixed] for two fraction
    digits and a finite [x = m * 2^e >= 0]: the integer for which
    [n / 100 - x] is as close to zero as possible, the larger one when
    there are two. *)
Definition nearest_cents (m : positive) (e : Z) : Z :=
  match e with
  | Zneg p => (200 * Z.pos m + 2 ^ Z.pos p) / 2 ^ (Z.pos p + 1)
  | _ => 100 * Z.pos m * 2 ^ e
  end.

(** [10^21 <= m * 2^e], the bound from which [toFixed] falls back to
    [ToString]. *)
Definition at_least_1e21 (m : positive) (e : Z) : bool :=
  match e with
  | Zneg p => (10 ^ 21 * 2 ^ Z.pos p <=? Z.pos m)%Z
  | _ => (10 ^ 21 <=? Z.pos m * 2 ^ e)%Z
  end.

(** The number nearest to [n / 100] (ties to even), as [parseFloat]
    reads a decimal string; [neg] is the sign written in front. *)
Definition of_cents (neg : bool) (n : Z) : number :=
  match n with
  | Zpos p =>
      SF2Prim (SFdiv prec emax (S754_finite neg p 0) (S754_finite false 100 0))
  | _ => if neg then (-0) else 0
  end.

(** [parseFloat(x.toFixed(2))].  For [NaN], the infinities and
    [|x| >= 1e21] the string is [ToString(x)], which reads back as [x]. *)
Definition toFixed2 (x : number) : number :=
  match Prim2SF x with
  | S754_zero _ => 0
  | S754_finite neg m e =>
      if at_least_1e21 m e then x else of_cents neg (nearest_cents m e)
  | _ => x
  end.

End Num.
Import Num.

(** ** The rounding of [toFixed2], on the specification side *)

(** The place of the rational [N / D] between the integers [m] and
    [m + 1], as the rounding of [SFdiv] records it. *)
Definition locates (N D m : Z) (l : location) : Prop :=
  match l with
  | loc_Exact => N = m * D
  | loc_Inexact c => m * D < N < (m + 1) * D /\ (2 * N ?= (2 * m + 1) * D) = c
  end.

Definition two52 : Z := 4503599627370496.
Definition two53 : Z := 9007199254740992.

(** The binary64 number [m * 2^e] is a nearest one to [X / (100 * 2^1074)]:
    within half a unit in the last place, and within a quarter below
    when [m] is the least mantissa of its binade. *)
Definition near (X : Z) (m : positive) (e : Z) : Prop :=
  two52 <= Zpos m < two53 /\ -1074 <= e <= 971 /\
  (2 * Zpos m - 1) * (100 * 2 ^ (e + 1074)) <= 2 * X
    <= (2 * Zpos m + 1) * (100 * 2 ^ (e + 1074)) /\
  (Zpos m = two52 -> (4 * two52 - 1) * (100 * 2 ^ (e + 1074)) <= 4 * X).

(** The order of the positive binary64 numbers [m * 2^e], by exponent and
    then by mantissa. *)
Definition lex_lt (m : positive) (e : Z) (m' : positive) (e' : Z) : Prop :=
  e < e' \/ (e = e' /\ Zpos m < Zpos m').

(** [toFixed2] on the specification side. *)
Definition toFixed2_SF (x : spec_float) : spec_float :=
  match x with
  | S754_zero _ => S754_zero false
  | S754_finite neg m e =>
      if at_least_1e21 m e then x
      else match nearest_cents m e with
           | Zpos p =>
               SFdiv prec emax (S754_finite neg p 0) (S754_finite false 100 0)
           | _ => S754_zero neg
           end
  | _ => x
  end.

(** The place of a number in the order of the numbers: its class (the
    infinities, the two signs of the finite numbers and the zeros), then
    its exponent, then its mantissa. *)
Definition rank (x : spec_float) : Z * (Z * Z) :=
  match x with
  | S754_nan => (0, (0, 0))
  | S754_zero _ => (0, (0, 0))
  | S754_infinity true => (-2, (0, 0))
  | S754_infinity false => (2, (0, 0))
  | S754_finite false m e => (1, (e, Zpos m))
  | S754_finite true m e => (-1, (- e, - Zpos m))
  end.

Definition rank_lt (a b : Z * (Z * Z)) : Prop :=
  fst a < fst b \/
  (fst a = fst b /\
   (fst (snd a) < fst (snd b) \/
    (fst (snd a) = fst (snd b) /\ snd (snd a) < snd (snd b)))).

Definition rank_eq (a b : Z * (Z * Z)) : Prop :=
  fst a = fst b /\ fst (snd a) = fst (snd b) /\ snd (snd a) = snd (snd b).

Definition is_number (x : spec_float) : Prop :=
  match x with S754_nan => False | _ => True end.

(** ** The data model *)

(** An element of [auction.bids]: [{ amount, atISO, ip }]. *)
Record bid := mkBid {
  amount : number;
  atISO : Z;
  ip : string
}.

(** An element of [DATA.auctions].  [maxIncrement] is [undefined] when
    there is no cap. *)
Record auction := mkAuction {
  id : string;
  slug : string;
  title : string;
  description : string;
  startsAt : Z;
  endsAt : Z;
  startingBid : number;
  minIncrement : number;
  maxIncrement : option number;
  currentBid : number;
  bids : list bid
}.

(** A field of a request body.  [Missing] is [undefined], [Blank] the
    empty string, [Filled v] a non-empty string that the parser used at
    the place of use ([parseFloat], [parseInt], [new Date]) reads as [v]. *)
Inductive field (A : Type) :=
| Missing
| Blank
| Filled (parsed : A).
Arguments Missing {A}.
Arguments Blank {A}.
Arguments Filled {A} parsed.

(** [req.body] of the two admin forms.  A text field that is [undefined]
    is the empty string here: the handlers only test it for truthiness.
    A date parses to its time value, or to [None] for an Invalid Date;
    [parseInt] gives an integer, or [None] for [NaN]. *)
Record form := mkForm {
  f_title : string;
  f_slug : string;
  f_description : string;
  f_startsAtLocal : field (option Z);
  f_durationMinutes : field (option Z);
  f_startingBid : field number;
  f_minIncrement : field number;
  f_maxIncrement : field number
}.

(** The values [generateId()] returns at its three call sites in the
    create handler: the fallback slug, the suffix of a colliding slug and
    the id. *)
Record draws := mkDraws {
  d_fallback : string;
  d_suffix : string;
  d_id : string
}.

(** The values [new Date()] has at its three reads in the bid handler:
    in [hasStarted], in [hasEnded] and in [nowISO]. *)
Record ticks := mkTicks {
  t_started : Z;
  t_ended : Z;
  t_stamp : Z
}.

(** All three reads at one instant. *)
Definition at_time (now : Z) : ticks := mkTicks now now now.

(** The JSON answers of the bid route. *)
Inductive bid_response :=
| NotFound                       (* 404, 'Auction not found' *)
| NotStarted                     (* 'Auction has not started yet.' *)
| Ended                          (* 'Auction has ended.' *)
| TooLow                         (* 'Bid must be greater than current bid.' *)
| IncrementOutOfBounds (lo : number) (hi : option number)
                                 (* `Bid increment must be between ${lo} and ${hi}.` *)
| Accepted (current : number).   (* { ok: true, currentBid } *)

(** The outcomes of the admin routes. *)
Inductive admin_response :=
| Redirected                     (* res.redirect('/admin') *)
| NotFound404                    (* 404, 'Not found' *)
| Threw.                         (* a RangeError from toISOString: answer 500 *)

(** The two string functions the create and update handlers call and
    that are not part of the repository: [String.prototype.trim] and the
    [slugify] package, called with [{ lower: true, strict: true }]. *)
Class StringLib := {
  trim : string -> string;
  slugify : string -> string
}.

(** ** Helpers *)

Definition clampBidIncrement (amount minInc : number) (maxInc : option number)
  : number :=
  match maxInc with
  | Some mx =>
      if truthy mx && gtb amount mx then mx
      else if (amount <? minInc)%float then minInc
      else amount
  | None =>
      if (amount <? minInc)%float then minInc else amount
  end.

(** Time values a [Date] can hold; [toISOString] throws outside. *)
Definition maxTime : Z := 8640000000000000.

Definition validTime (t : Z) : bool := (- maxTime <=? t) && (t <=? maxTime).

(** [utcISOFromLocal(dateStr)]: [None] when [toISOString] throws. *)
Definition utcISOFromLocal (d : field (option Z)) : option Z :=
  match d with
  | Filled (Some t) => if validTime t then Some t else None
  | _ => None
  end.

(** [parseInt(durationMinutes, 10) || 60] *)
Definition minutesOr60 (d : field (option Z)) : Z :=
  match d with
  | Filled (Some n) => if n =? 0 then 60 else n
  | _ => 60
  end.

(** [new Date(new Date(startsAt).getTime() + minutes * 60000).toISOString()].
    The sum is exact in binary64 whenever it is a valid time value. *)
Definition endFrom (start : Z) (d : field (option Z)) : option Z :=
  let t := start + minutesOr60 d * 60000 in
  if validTime t then Some t else None.

Definition hasStarted (now startsAt : Z) : bool := startsAt <=? now.
Definition hasEnded (now endsAt : Z) : bool := endsAt <=? now.
Definition isActiveAuction (now startsAt endsAt : Z) : bool :=
  (startsAt <=? now) && (now <? endsAt).

(** [parseFloat(x || dflt)] for a body field [x]. *)
Definition parseOr (x : field number) (dflt : number) : number :=
  match x with
  | Filled v => v
  | _ => dflt
  end.

(** [parseFloat(x)] *)
Definition parseFloat (x : field number) : number :=
  match x with
  | Filled v => v
  | _ => nan
  end.

(** A raw body field is truthy when it is a non-empty string. *)
Definition given {A} (x : field A) : bool :=
  match x with
  | Filled _ => true
  | _ => false
  end.

Definition nonEmpty (s : string) : bool := negb (s =? "")%string.

(** [DATA.auctions.find(p)] is [List.find]; the handlers then assign to
    fields of the object found, which changes that element of the array. *)
Fixpoint modify_first (p : auction -> bool) (f : auction -> auction)
  (l : list auction) : list auction :=
  match l with
  | [] => []
  | a :: rest => if p a then f a :: rest else a :: modify_first p f rest
  end.

Definition hasSlug (s : string) (a : auction) : bool := (slug a =? s)%string.
Definition hasId (i : string) (a : auction) : bool := (id a =? i)%string.

(** ** The bid route: [app.post('/:slug/bid')] *)

(** The two assignments of an accepted bid. *)
Definition recordBid (amt : number) (at_ : Z) (from : string) (a : auction)
  : auction :=
  let cur := toFixed2 amt in
  mkAuction (id a) (slug a) (title a) (description a) (startsAt a) (endsAt a)
    (startingBid a) (minIncrement a) (maxIncrement a)
    cur (bids a ++ [mkBid cur at_ from]).

Definition placeBid (DATA : list auction) (s : string) (amt : number)
  (from : string) (t : ticks) : list auction * bid_response :=
  match find (hasSlug s) DATA with
  | None => (DATA, NotFound)
  | Some a =>
      let inc := (amt - currentBid a)%float in
      if negb (hasStarted (t_started t) (startsAt a)) then (DATA, NotStarted)
      else if hasEnded (t_ended t) (endsAt a) then (DATA, Ended)
      else if isNaN amt || (amt <=? currentBid a)%float then (DATA, TooLow)
      else
        let incClamped :=
          clampBidIncrement inc (minIncrement a) (maxIncrement a) in
        if strict_neq inc incClamped
        then (DATA, IncrementOutOfBounds (minIncrement a) (maxIncrement a))
        else (modify_first (hasSlug s) (recordBid amt (t_stamp t) from) DATA,
              Accepted (toFixed2 amt))
  end.

(** [app.get('/:slug/status')] *)
Record status := mkStatus {
  s_currentBid : number;
  s_startsAt : Z;
  s_endsAt : Z;
  s_active : bool;
  s_hasStarted : bool;
  s_hasEnded : bool
}.

(** The values [new Date()] has at its three reads in the status
    route: in [isActiveAuction], in [hasStarted] and in [hasEnded]. *)
Record looks := mkLooks {
  l_active : Z;
  l_started : Z;
  l_ended : Z
}.

(** All three reads at one instant. *)
Definition at_instant (now : Z) : looks := mkLooks now now now.

Definition getStatus (DATA : list auction) (s : string) (r : looks)
  : option status :=
  match find (hasSlug s) DATA with
  | None => None
  | Some a =>
      Some (mkStatus (currentBid a) (startsAt a) (endsAt a)
              (isActiveAuction (l_active r) (startsAt a) (endsAt a))
              (hasStarted (l_started r) (startsAt a))
              (hasEnded (l_ended r) (endsAt a)))
  end.

(** ** The admin routes *)

Section Admin.

Context {lib : StringLib}.

(** [app.post('/admin/auction')] *)
Definition createAuction (DATA : list auction) (b : form) (r : draws)
  : list auction * admin_response :=
  let title := trim (f_title b) in
  let description := trim (f_description b) in
  let startingBid := or_else (parseOr (f_startingBid b) 0%float) 0%float in
  let minIncrement := or_else (parseOr (f_minIncrement b) 1%float) 1%float in
  let maxIncrement := or_else (parseOr (f_maxIncrement b) 0%float) 0%float in
  let slug0 :=
    slugify (trim (if nonEmpty (f_slug b) then f_slug b else title)) in
  let slug1 :=
    if nonEmpty slug0 then slug0 else ("auction-" ++ d_fallback r)%string in
  match utcISOFromLocal (f_startsAtLocal b) with
  | None => (DATA, Threw)
  | Some startsAt =>
      match endFrom startsAt (f_durationMinutes b) with
      | None => (DATA, Threw)
      | Some endsAt =>
          let slug2 :=
            if existsb (hasSlug slug1) DATA
            then (slug1 ++ "-" ++ substring 0 4 (d_suffix r))%string
            else slug1 in
          let created :=
            mkAuction (d_id r) slug2 title description startsAt endsAt
              startingBid minIncrement
              (if gtb maxIncrement 0%float then Some maxIncrement else None)
              startingBid [] in
          ((DATA ++ [created])%list, Redirected)
      end
  end.

(** The assignments of the update handler, in the order of the source. *)
Definition setTitle (b : form) (a : auction) : auction :=
  if nonEmpty (f_title b)
  then mkAuction (id a) (slug a) (trim (f_title b)) (description a)
         (startsAt a) (endsAt a) (startingBid a) (minIncrement a)
         (maxIncrement a) (currentBid a) (bids a)
  else a.

Definition setDescription (b : form) (a : auction) : auction :=
  if nonEmpty (f_description b)
  then mkAuction (id a) (slug a) (title a) (trim (f_description b))
         (startsAt a) (endsAt a) (startingBid a) (minIncrement a)
         (maxIncrement a) (currentBid a) (bids a)
  else a.

(** [None] when [toISOString] throws; nothing is assigned then. *)
Definition setWindow (b : form) (a : auction) : option auction :=
  if given (f_startsAtLocal b) && given (f_durationMinutes b) then
    match utcISOFromLocal (f_startsAtLocal b) with
    | None => None
    | Some s =>
        match endFrom s (f_durationMinutes b) with
        | None => None
        | Some e =>
            Some (mkAuction (id a) (slug a) (title a) (description a)
                    s e (startingBid a) (minIncrement a)
                    (maxIncrement a) (currentBid a) (bids a))
        end
    end
  else Some a.

Definition setStartingBid (b : form) (a : auction) : auction :=
  match f_startingBid b with
  | Filled sb =>
      if negb (isNaN sb) then
        mkAuction (id a) (slug a) (title a) (description a)
          (startsAt a) (endsAt a) sb (minIncrement a) (maxIncrement a)
          (if (List.length (bids a) =? 0)%nat then sb else currentBid a)
          (bids a)
      else a
  | _ => a
  end.

Definition setMinIncrement (b : form) (a : auction) : auction :=
  match f_minIncrement b with
  | Filled mi =>
      if negb (isNaN mi) && gtb mi 0%float
      then mkAuction (id a) (slug a) (title a) (description a)
             (startsAt a) (endsAt a) (startingBid a) mi
             (maxIncrement a) (currentBid a) (bids a)
      else a
  | _ => a
  end.

Definition setMaxIncrement (b : form) (a : auction) : auction :=
  match f_maxIncrement b with
  | Missing => a
  | x =>
      let mx := parseFloat x in
      mkAuction (id a) (slug a) (title a) (description a)
        (startsAt a) (endsAt a) (startingBid a) (minIncrement a)
        (if negb (isNaN mx) && gtb mx 0%float then Some mx else None)
        (currentBid a) (bids a)
  end.

(** The object found, after the handler has run on it, and whether the
    handler ran to its end. *)
Definition applyPatch (b : form) (a : auction) : auction * bool :=
  let a1 := setDescription b (setTitle b a) in
  match setWindow b a1 with
  | None => (a1, false)
  | Some a2 =>
      (setMaxIncrement b (setMinIncrement b (setStartingBid b a2)), true)
  end.

(** [app.post('/admin/auction/:id/update')] *)
Definition updateAuction (DATA : list auction) (i : string) (b : form)
  : list auction * admin_response :=
  match find (hasId i) DATA with
  | None => (DATA, NotFound404)
  | Some a =>
      (modify_first (hasId i) (fun x => fst (applyPatch b x)) DATA,
       if snd (applyPatch b a) then Redirected else Threw)
  end.

(** [app.post('/admin/auction/:id/delete')] *)
Definition deleteAuction (DATA : list auction) (i : string)
  : list auction * admin_response :=
  (filter (fun a => negb (hasId i a)) DATA, Redirected).

(** ** Histories of requests *)

Inductive request :=
| CreateAuction (b : form) (r : draws)
| PlaceBid (s : string) (amt : number) (from : string) (t : ticks)
| UpdateAuction (i : string) (b : form)
| DeleteAuction (i : string).

Definition handle (DATA : list auction) (q : request) : list auction :=
  match q with
  | CreateAuction b r => fst (createAuction DATA b r)
  | PlaceBid s amt from t => fst (placeBid DATA s amt from t)
  | UpdateAuction i b => fst (updateAuction DATA i b)
  | DeleteAuction i => fst (deleteAuction DATA i)
  end.

(** The server starts from [initialData()], whose [auctions] is empty,
    or from the store an earlier run of these handlers saved. *)
Definition initialData : list auction := [].

Definition run (qs : list request) : list auction :=
  fold_left handle qs initialData.

End Admin.

(** ** Properties of a stored auction *)

(** [currentBid] is the amount of the last bid, or [startingBid] when
    there is none. *)
Definition currentIsLast (a : auction) : Prop :=
  currentBid a = last (map amount (bids a)) (startingBid a).

(** A stored cap is above zero. *)
Definition capPositive (a : auction) : Prop :=
  forall mx, maxIncrement a = Some mx -> gtb mx 0%float = true.

(** The stored [minIncrement] is a number. *)
Definition minIsNumber (a : auction) : Prop := isNaN (minIncrement a) = false.

(** Two versions of an auction with the same [id], [slug] and bidding
    fields. *)
Definition sameBidding (a a' : auction) : Prop :=
  id a' = id a /\ slug a' = slug a /\
  startingBid a' = startingBid a /\ minIncrement a' = minIncrement a /\
  maxIncrement a' = maxIncrement a /\ currentBid a' = currentBid a /\
  bids a' = bids a.

(** The increments of an auction as the data model states them: every
    recorded amount differs from the one before it (the first one from
    [startingBid]) by at least [minIncrement] and, when a cap is stored,
    by at most [maxIncrement]. *)
Definition inBounds (a : auction) (prev next : number) : bool :=
  ((minIncrement a <=? next - prev) &&
   match maxIncrement a with
   | Some mx => next - prev <=? mx
   | None => true
   end)%float.

Fixpoint stepsBounded (a : auction) (prev : number) (l : list number) : bool :=
  match l with
  | [] => true
  | x :: rest => inBounds a prev x && stepsBounded a x rest
  end.

Definition incrementsBounded (a : auction) : bool :=
  stepsBounded a (startingBid a) (map amount (bids a)).

(** ** Scenarios *)

Module Scenario.

(** On a string of lower-case letters, digits and single inner hyphens
    [trim] and [slugify] return their argument; the scenarios give them
    such strings, and the empty string, only. *)
Definition plain : StringLib :=
  {| trim := fun s => s; slugify := fun s => s |}.

Definition someDraws : draws :=
  mkDraws "0f1e2d3c4b5a6978" "5c6d7e8f9a0b1c2d" "8899aabbccddeeff".

Definition otherDraws : draws :=
  mkDraws "1021324354657687" "77aa00bb11cc22dd" "0123456789abcdef".

(** Draws whose suffix begins with [ab12]. *)
Definition thirdDraws : draws :=
  mkDraws "9f8e7d6c5b4a3928" "ab12cd34ef567890" "fedcba9876543210".

(** The auction of the specification's scenario: starting bid 50,
    increments between 1 and 100, open from time 1000 for an hour. *)
Definition lamp : form :=
  mkForm "lamp" "" "" (Filled (Some 1000)) (Filled (Some 60))
    (Filled 50%float) (Filled 1%float) (Filled 100%float).

(** The same without a cap on the increment. *)
Definition lampNoCap : form :=
  mkForm "lamp" "" "" (Filled (Some 1000)) (Filled (Some 60))
    (Filled 50%float) (Filled 1%float) Blank.

(** A minimal increment with more than two decimals: 65/256. *)
Definition lampFine : form :=
  mkForm "lamp" "" "" (Filled (Some 1000)) (Filled (Some 60))
    (Filled 50%float) (Filled 0.25390625%float) Blank.

(** A starting bid with more than two decimals, 50 + 65/256, and a
    minimal increment of 1/4096. *)
Definition lampUnrounded : form :=
  mkForm "lamp" "" "" (Filled (Some 1000)) (Filled (Some 60))
    (Filled 50.25390625%float) (Filled 0.000244140625%float) Blank.

(** A duration of minus sixty minutes. *)
Definition lampBackwards : form :=
  mkForm "lamp" "" "" (Filled (Some 1000)) (Filled (Some (-60)))
    (Filled 50%float) (Filled 1%float) Blank.

(** A patch with a start that is not a date and a cap of zero. *)
Definition badDateZeroCap : form :=
  mkForm "" "" "" (Filled None) (Filled (Some 90)) Missing Missing
    (Filled 0%float).

(** A patch that fills in the starting bid only. *)
Definition newStartingBid (sb : number) : form :=
  mkForm "" "" "" Missing Missing (Filled sb) Missing Missing.

Definition lampId : string := "8899aabbccddeeff".

Definition opened : list auction := run (lib := plain)
  [CreateAuction lamp someDraws].

(** The auction that [opened] holds. *)
Definition lampAuction : auction :=
  mkAuction lampId "lamp" "lamp" "" 1000 3601000
    50%float 1%float (Some 100%float) 50%float [].

Definition afterBid60 : list auction := run (lib := plain)
  [CreateAuction lamp someDraws;
   PlaceBid "lamp" 60%float "203.0.113.7" (at_time 2000)].

Definition openedNoCap : list auction := run (lib := plain)
  [CreateAuction lampNoCap someDraws].

Definition foo : form :=
  mkForm "" "foo" "" (Filled (Some 1000)) (Filled (Some 60))
    Blank Blank Blank.

Definition fooAb12 : form :=
  mkForm "" "foo-ab12" "" (Filled (Some 1000)) (Filled (Some 60))
    Blank Blank Blank.

End Scenario.

(** ** The listing and page routes *)

(** [DATA.auctions.slice().sort((a, b) => new Date(a.startsAt) - new
    Date(b.startsAt))] of [app.get('/')] and [app.get('/admin')].
    [sort] is stable: among auctions with the same start the order of
    the array is kept.  Inserting the elements from the right, each one
    in front of the first that does not start before it, computes that
    ordering. *)
Fixpoint insertByStart (a : auction) (l : list auction) : list auction :=
  match l with
  | [] => [a]
  | x :: rest =>
      if startsAt a <=? startsAt x then a :: l else x :: insertByStart a rest
  end.

Definition sortByStart (l : list auction) : list auction :=
  fold_right insertByStart [] l.

(** The [auctions] handed to the [home] and [admin_dashboard] views. *)
Definition listAuctions (DATA : list auction) : list auction :=
  sortByStart DATA.

(** [app.get('/:slug')] *)
Inductive page_response :=
| NextRoute                      (* slug === 'admin': next() *)
| PageNotFound                   (* 404, the notfound view *)
| Page (a : auction).            (* the auction view *)

Definition getAuctionPage (DATA : list auction) (s : string) : page_response :=
  if (s =? "admin")%string then NextRoute
  else match find (hasSlug s) DATA with
       | None => PageNotFound
       | Some a => Page a
       end.

(** The time stamps of the bids of a history, in the order of the
    requests. *)
Fixpoint stampsOf (qs : list request) : list Z :=
  match qs with
  | [] => []
  | PlaceBid _ _ _ t :: rest => t_stamp t :: stampsOf rest
  | _ :: rest => stampsOf rest
  end.

(** The stamps of the bids of an auction are in order and not after
    any stamp of [later]. *)
Definition stampsBefore (later : list Z) (a : auction) : Prop :=
  Sorted.Sorted Z.le (map atISO (bids a)) /\
  Forall (fun z => Forall (Z.le z) later) (map atISO (bids a)).

(** ** The slug of a new auction *)

Section Slugs.

Context {lib : StringLib}.

(** The slug the create handler derives from the form before it looks
    it up among the auctions, and the slug it takes when that one is
    taken. *)
Definition baseSlug (b : form) (r : draws) : string :=
  let slug0 :=
    slugify (trim (if nonEmpty (f_slug b) then f_slug b
                   else trim (f_title b))) in
  if nonEmpty slug0 then slug0 else ("auction-" ++ d_fallback r)%string.

Definition suffixedSlug (b : form) (r : draws) : string :=
  (baseSlug b r ++ "-" ++ substring 0 4 (d_suffix r))%string.

(** A request that does not delete the auction with id [i]. *)
Definition keepsAuction (i : string) (q : request) : Prop :=
  match q with
  | DeleteAuction j => j <> i
  | _ => True
  end.

(** The slug [s] finds the auction with id [i], which has a bid and
    whose [currentBid] is at least [c]. *)
Definition standsAbove (s i : string) (c : number) (DATA : list auction)
  : Prop :=
  exists a, find (hasSlug s) DATA = Some a /\ id a = i /\
            bids a <> [] /\ (c <=? currentBid a)%float = true.

(** A create request whose [minIncrement] field is not below zero. *)
Definition minNotNegative (q : request) : Prop :=
  match q with
  | CreateAuction b _ =>
      forall v, f_minIncrement b = Filled v -> (v <? 0)%float = false
  | _ => True
  end.

End Slugs.

(** ** The admin session and the credentials *)

(** [DATA.admin] *)
Record credentials := mkCredentials {
  username : string;
  passwordHash : option string
}.

(** [DATA] *)
Record site := mkSite {
  admin : credentials;
  auctions : list auction
}.

(** The two functions of the [bcrypt] package the server calls:
    [bcrypt.hash(password, 10)], whose result depends on a salt it
    draws, and [bcrypt.compare(password, hash)]. *)
Class Bcrypt := {
  bcryptHash : string -> string -> string;
  bcryptCompare : string -> string -> bool
}.

(** [isLoggedIn(req)]: the session of a client is its [authed] flag,
    [true] once it is set and [false] in a fresh or destroyed session. *)
Definition isLoggedIn (authed : bool) : bool := authed.

(** The answer of a route behind [authRequired]. *)
Inductive guarded (A : Type) :=
| ToLogin                        (* res.redirect('/admin/login') *)
| Passed (answer : A).
Arguments ToLogin {A}.
Arguments Passed {A} answer.

(** [authRequired(req, res, next)], given what [next()] would do. *)
Definition authRequired {A} (authed : bool) (D : site) (next : site * A)
  : site * guarded A :=
  if negb (isLoggedIn authed) then (D, ToLogin)
  else (fst next, Passed (snd next)).

Inductive login_response :=
| InvalidCredentials             (* the login view with 'Invalid credentials' *)
| LoggedIn                       (* res.redirect('/admin') *)
| LoginThrew.                    (* bcrypt.compare rejects: no password or no hash *)

Inductive creds_response :=
| CredsRequired                  (* 400, 'Username and password required' *)
| CredsSaved.                    (* res.redirect('/admin') *)

Definition initialAdmin : credentials := mkCredentials "admin" None.

(** What [loadData()] returns when [data.json] exists and parses. *)
Record dataFile := mkDataFile {
  file_admin : option credentials;
  file_auctions : list auction
}.

Section Site.

Context {lib : StringLib} {bc : Bcrypt}.

(** [app.post('/admin/login')]: the new [authed] flag and the answer.
    A body field that is [undefined] is [None]. *)
Definition adminLogin (authed : bool) (D : site) (u p : option string)
  : bool * login_response :=
  match u with
  | Some name =>
      if (name =? username (admin D))%string then
        match p, passwordHash (admin D) with
        | Some pw, Some h =>
            if bcryptCompare pw h then (true, LoggedIn)
            else (authed, InvalidCredentials)
        | _, _ => (authed, LoginThrew)
        end
      else (authed, InvalidCredentials)
  | None => (authed, InvalidCredentials)
  end.

(** [app.post('/admin/logout')]: [req.session.destroy]. *)
Definition adminLogout (authed : bool) : bool := false.

(** [app.post('/admin/creds')]; a field that is [undefined] is the empty
    string here, both are falsy. *)
Definition adminCreds (authed : bool) (D : site) (u p salt : string)
  : site * guarded creds_response :=
  authRequired authed D
    (if negb (nonEmpty u) || negb (nonEmpty p) then (D, CredsRequired)
     else (mkSite (mkCredentials u (Some (bcryptHash salt p))) (auctions D),
           CredsSaved)).

(** The three auction routes behind [authRequired]. *)
Definition adminCreate (authed : bool) (D : site) (b : form) (r : draws)
  : site * guarded admin_response :=
  authRequired authed D
    (mkSite (admin D) (fst (createAuction (auctions D) b r)),
     snd (createAuction (auctions D) b r)).

Definition adminUpdate (authed : bool) (D : site) (i : string) (b : form)
  : site * guarded admin_response :=
  authRequired authed D
    (mkSite (admin D) (fst (updateAuction (auctions D) i b)),
     snd (updateAuction (auctions D) i b)).

Definition adminDelete (authed : bool) (D : site) (i : string)
  : site * guarded admin_response :=
  authRequired authed D
    (mkSite (admin D) (fst (deleteAuction (auctions D) i)),
     snd (deleteAuction (auctions D) i)).

(** The requests of one client, with its session. *)
Inductive visit :=
| Login (u p : option string)
| Logout
| Creds (u p salt : string)
| Visit (q : request).

Definition serve (st : bool * site) (v : visit) : bool * site :=
  let (authed, D) := st in
  match v with
  | Login u p => (fst (adminLogin authed D u p), D)
  | Logout => (adminLogout authed, D)
  | Creds u p salt => (authed, fst (adminCreds authed D u p salt))
  | Visit (CreateAuction b r) => (authed, fst (adminCreate authed D b r))
  | Visit (UpdateAuction i b) => (authed, fst (adminUpdate authed D i b))
  | Visit (DeleteAuction i) => (authed, fst (adminDelete authed D i))
  | Visit (PlaceBid s amt from t) =>
      (authed, mkSite (admin D) (fst (placeBid (auctions D) s amt from t)))
  end.

Definition browse (st : bool * site) (vs : list visit) : bool * site :=
  fold_left serve vs st.

(** The bids among the requests of a client. *)
Fixpoint bidsOnly (vs : list visit) : list request :=
  match vs with
  | [] => []
  | Visit (PlaceBid s amt from t) :: rest =>
      PlaceBid s amt from t :: bidsOnly rest
  | _ :: rest => bidsOnly rest
  end.

Definition isLogin (v : visit) : bool :=
  match v with
  | Login _ _ => true
  | _ => false
  end.

(** [ensureDataFile()]: [loaded] is what [loadData()] returns, [None]
    when the file is missing or does not parse; [salt] is the salt the
    hash of the default password draws.  The result is what is saved
    and becomes [DATA]. *)
Definition ensureDataFile (loaded : option dataFile) (salt : string) : site :=
  let data :=
    match loaded with
    | Some d => d
    | None => mkDataFile (Some initialAdmin) initialData
    end in
  let adm :=
    match file_admin data with
    | Some c => if nonEmpty (username c) then c else initialAdmin
    | None => initialAdmin
    end in
  let hashed :=
    mkCredentials (username adm) (Some (bcryptHash salt "changeme123")) in
  mkSite
    match passwordHash adm with
    | Some h => if nonEmpty h then adm else hashed
    | None => hashed
    end
    (file_auctions data).

End Site.

(** ** Scenarios of a visit *)

Module Visitor.

(** A stand-in for [bcrypt] in the examples: the hash of a password is
    the password itself, whatever the salt. *)
Definition clearHash : Bcrypt :=
  {| bcryptHash := fun _ pw => pw;
     bcryptCompare := fun pw h => (pw =? h)%string |}.

Definition someSalt : string := "4f2a9c01d7e35b68".

(** The site after a first start, with no [data.json]. *)
Definition fresh : site :=
  ensureDataFile (bc := clearHash) None someSalt.

End Visitor.

(** ** Rounding to two decimals *)

(** [toFixed] rounds the exact binary value, half up in magnitude; the
    string it writes is read back to the nearest number. *)
Example toFixed2_values :
  toFixed2 50.25390625%float = 50.25%float /\
  toFixed2 0.125%float = (13 / 100)%float /\
  toFixed2 (-0.125)%float = (- (13 / 100))%float /\
  toFixed2 0.001953125%float = 0%float /\
  toFixed2 (-0.001953125)%float = (-0)%float /\
  toFixed2 (-0)%float = 0%float /\
  toFixed2 160%float = 160%float /\
  toFixed2 infinity = infinity /\
  toFixed2 neg_infinity = neg_infinity /\
  toFixed2 nan = nan.
Proof. repeat split. Qed.

(** ** Facts about the order of JavaScript numbers *)

Module NumFacts.

Lemma SFcompare_swap (x y : spec_float) :
  SFcompare y x = option_map CompOpp (SFcompare x y).
Proof.
  destruct x as [sx | sx | | sx mx ex], y as [sy | sy | | sy my ey];
    simpl; try reflexivity;
    try (destruct sx; reflexivity); try (destruct sy; reflexivity);
    try (destruct sx, sy; reflexivity).
  fold (Pos.compare my mx). fold (Pos.compare mx my).
  rewrite (Z.compare_antisym ex ey), (Pos.compare_antisym mx my).
  destruct sx, sy, (ex ?= ey)%Z, (mx ?= my)%positive; reflexivity.
Qed.

Lemma SFcompare_self (x : spec_float) :
  SFcompare x x = if (match x with S754_nan => true | _ => false end)
                  then None else Some Eq.
Proof.
  destruct x as [s | s | | s m e]; simpl; try reflexivity.
  - destruct s; reflexivity.
  - rewrite Z.compare_refl, Pos.compare_cont_refl. destruct s; reflexivity.
Qed.

Lemma isNaN_spec (x : number) :
  isNaN x = match Prim2SF x with S754_nan => true | _ => false end.
Proof.
  unfold isNaN, is_nan. rewrite eqb_spec. unfold SFeqb.
  rewrite SFcompare_self. destruct (Prim2SF x); reflexivity.
Qed.

(** Two numbers that are equal as [===] has it are not [NaN]. *)
Lemma eqb_not_NaN (x y : number) :
  (x =? y)%float = true -> isNaN x = false /\ isNaN y = false.
Proof.
  rewrite eqb_spec, !isNaN_spec. unfold SFeqb.
  destruct (Prim2SF x), (Prim2SF y); simpl; try discriminate; auto.
Qed.

Lemma ltb_not_NaN (x y : number) :
  (x <? y)%float = true -> isNaN x = false /\ isNaN y = false.
Proof.
  rewrite ltb_spec, !isNaN_spec. unfold SFltb.
  destruct (Prim2SF x), (Prim2SF y); simpl; try discriminate; auto.
Qed.

(** On numbers other than [NaN] the order is total. *)
Lemma not_ltb_leb (x y : number) :
  isNaN x = false -> isNaN y = false ->
  (x <? y)%float = false -> (y <=? x)%float = true.
Proof.
  rewrite ltb_spec, leb_spec, !isNaN_spec. unfold SFltb, SFleb.
  rewrite (SFcompare_swap (Prim2SF x) (Prim2SF y)).
  intros Hx Hy.
  assert (H : SFcompare (Prim2SF x) (Prim2SF y) <> None).
  { destruct (Prim2SF x) as [[]|[]| |[]], (Prim2SF y) as [[]|[]| |[]];
      simpl; discriminate. }
  destruct (SFcompare (Prim2SF x) (Prim2SF y)) as [[]|];
    simpl; congruence.
Qed.

Lemma ltb_leb (x y : number) : (x <? y)%float = true -> (x <=? y)%float = true.
Proof.
  rewrite ltb_spec, leb_spec. unfold SFltb, SFleb.
  destruct (SFcompare (Prim2SF x) (Prim2SF y)) as [[]|]; congruence.
Qed.

Lemma ltb_leb_false (x y : number) :
  (x <? y)%float = true -> (y <=? x)%float = false.
Proof.
  rewrite ltb_spec, leb_spec. unfold SFltb, SFleb.
  rewrite (SFcompare_swap (Prim2SF x) (Prim2SF y)).
  destruct (SFcompare (Prim2SF x) (Prim2SF y)) as [[]|]; simpl; congruence.
Qed.

(** A number above zero is truthy. *)
Lemma positive_truthy (x : number) :
  gtb x 0%float = true -> truthy x = true.
Proof.
  unfold gtb, truthy. intros H.
  destruct (ltb_not_NaN _ _ H) as [_ Hn]. unfold isNaN in Hn. rewrite Hn.
  rewrite orb_false_r. revert H.
  rewrite ltb_spec, eqb_spec. unfold SFltb, SFeqb.
  rewrite (SFcompare_swap (Prim2SF 0%float) (Prim2SF x)).
  destruct (SFcompare (Prim2SF 0%float) (Prim2SF x)) as [[]|];
    simpl; congruence.
Qed.

(** What is not above zero: zero, the negative numbers and [NaN]. *)
Lemma not_positive (x : number) :
  isNaN x = true \/ (x =? 0)%float = true \/ (x <? 0)%float = true ->
  gtb x 0%float = false.
Proof.
  unfold gtb. rewrite isNaN_spec, ltb_spec, eqb_spec, ltb_spec.
  unfold SFltb, SFeqb.
  rewrite (SFcompare_swap (Prim2SF 0%float) (Prim2SF x)).
  intros [H | [H | H]]; revert H.
  - destruct (Prim2SF 0%float), (Prim2SF x); simpl; congruence.
  - destruct (SFcompare (Prim2SF 0%float) (Prim2SF x)) as [[]|];
      simpl; congruence.
  - destruct (SFcompare (Prim2SF 0%float) (Prim2SF x)) as [[]|];
      simpl; congruence.
Qed.

Lemma Prim2SF_zero : Prim2SF 0%float = S754_zero false.
Proof. reflexivity. Qed.

Lemma truthy_not_NaN (x : number) : truthy x = true -> isNaN x = false.
Proof.
  unfold truthy, isNaN. intros H. apply negb_true_iff, orb_false_iff in H.
  apply H.
Qed.

(** A truthy number that is not below zero is above it. *)
Lemma truthy_not_negative (x : number) :
  truthy x = true -> (x <? 0)%float = false -> gtb x 0%float = true.
Proof.
  intros Ht. pose proof (truthy_not_NaN x Ht) as Hn. revert Ht Hn.
  unfold truthy, gtb. rewrite !ltb_spec, eqb_spec.
  unfold SFltb, SFeqb.
  rewrite (SFcompare_swap (Prim2SF 0%float) (Prim2SF x)).
  intros Ht Hn. apply negb_true_iff, orb_false_iff, proj1 in Ht. revert Ht.
  assert (H : SFcompare (Prim2SF 0%float) (Prim2SF x) <> None).
  { rewrite Prim2SF_zero. revert Hn. rewrite isNaN_spec.
    destruct (Prim2SF x) as [[]|[]| |[]]; simpl; congruence. }
  destruct (SFcompare (Prim2SF 0%float) (Prim2SF x)) as [[]|];
    simpl; congruence.
Qed.

(** A difference that is a number is one of two numbers. *)
Lemma sub_not_NaN (x y : number) :
  isNaN (x - y)%float = false -> isNaN x = false /\ isNaN y = false.
Proof.
  rewrite !isNaN_spec, sub_spec. unfold SF64sub.
  destruct (Prim2SF x) as [sx | sx | | sx mx ex],
           (Prim2SF y) as [sy | sy | | sy my ey];
    try (intros _; split; reflexivity); simpl; discriminate.
Qed.

Lemma not_leb_ltb (x y : number) :
  isNaN x = false -> isNaN y = false ->
  (x <=? y)%float = false -> (y <? x)%float = true.
Proof.
  rewrite ltb_spec, leb_spec, !isNaN_spec. unfold SFltb, SFleb.
  rewrite (SFcompare_swap (Prim2SF x) (Prim2SF y)).
  intros Hx Hy.
  assert (H : SFcompare (Prim2SF x) (Prim2SF y) <> None).
  { destruct (Prim2SF x) as [[]|[]| |[]], (Prim2SF y) as [[]|[]| |[]];
      simpl; discriminate. }
  destruct (SFcompare (Prim2SF x) (Prim2SF y)) as [[]|];
    simpl; congruence.
Qed.

Lemma leb_not_NaN (x y : number) :
  (x <=? y)%float = true -> isNaN x = false /\ isNaN y = false.
Proof.
  rewrite leb_spec, !isNaN_spec. unfold SFleb.
  destruct (Prim2SF x), (Prim2SF y); simpl; try discriminate; auto.
Qed.

Lemma eqb_self (x : number) : isNaN x = false -> (x =? x)%float = true.
Proof. unfold isNaN, is_nan. apply negb_false_iff. Qed.

End NumFacts.

(** ** Facts about the rounding of [toFixed2]

    [of_cents] divides a count of cents by 100 with [SFdiv]; the lemmas
    below follow its shifts and its rounding to the nearest binary64
    number, and conclude that an amount above a rounded amount is never
    rounded below it. *)

Module RoundFacts.

(** Powers of two are kept as atoms for [lia]. *)
Ltac hide_pow :=
  repeat match goal with
  | |- context [2 ^ ?e] =>
      let x := fresh "pw" in set (x := 2 ^ e) in *; clearbody x
  | H : context [2 ^ ?e] |- _ =>
      let x := fresh "pw" in set (x := 2 ^ e) in *; clearbody x
  end.

(** [digits2_pos p] is the number of binary digits of [p]. *)
Lemma digits_bounds (p : positive) :
  2 ^ (Zpos (digits2_pos p) - 1) <= Zpos p < 2 ^ Zpos (digits2_pos p).
Proof.
  induction p as [p IH | p IH |]; simpl digits2_pos.
  - rewrite Pos2Z.inj_succ. change (Zpos p~1) with (2 * Zpos p + 1).
    replace (Z.succ (Zpos (digits2_pos p)) - 1) with (Z.succ (Zpos (digits2_pos p) - 1)) by lia.
    rewrite !Z.pow_succ_r by lia. hide_pow. lia.
  - rewrite Pos2Z.inj_succ. change (Zpos p~0) with (2 * Zpos p).
    replace (Z.succ (Zpos (digits2_pos p)) - 1) with (Z.succ (Zpos (digits2_pos p) - 1)) by lia.
    rewrite !Z.pow_succ_r by lia. hide_pow. lia.
  - simpl. lia.
Qed.

Lemma digits_unique (p : positive) (d : Z) :
  2 ^ (d - 1) <= Zpos p < 2 ^ d -> Zpos (digits2_pos p) = d.
Proof.
  intros [H1 H2]. destruct (digits_bounds p) as [B1 B2].
  set (e := Zpos (digits2_pos p)) in *.
  assert (0 < e) by (subst e; lia).
  assert (0 < d).
  { destruct (Z.ltb_spec 0 d); [assumption |].
    destruct (Z.eq_dec d 0); [subst; simpl in H2; lia |].
    rewrite Z.pow_neg_r in H2 by lia. lia. }
  destruct (Z.lt_trichotomy e d) as [L | [E | G]]; [| exact E |].
  - assert (2 ^ e <= 2 ^ (d - 1)) by (apply Z.pow_le_mono_r; lia).
    hide_pow. lia.
  - assert (2 ^ d <= 2 ^ (e - 1)) by (apply Z.pow_le_mono_r; lia).
    hide_pow. lia.
Qed.

(** *** The shifts of [shr] keep the place of the exact value *)
Lemma shr_of_loc (m : Z) (l : location) :
  shr_m (shr_record_of_loc m l) = m /\
  loc_of_shr_record (shr_record_of_loc m l) = l.
Proof. destruct l as [| []]; split; reflexivity. Qed.

(** Comparisons are turned into inequalities for [lia]. *)
Ltac cmp_lia :=
  repeat match goal with
  | H : _ /\ _ |- _ => destruct H
  | H : (_ ?= _) = Eq |- _ => apply Z.compare_eq in H
  | H : (?a ?= ?b) = Lt |- _ => change (a < b) in H
  | H : (?a ?= ?b) = Gt |- _ => change (a > b) in H
  | |- _ /\ _ => split
  | |- (_ ?= _) = Eq => apply Z.compare_eq_iff
  | |- (?a ?= ?b) = Lt => change (a < b)
  | |- (?a ?= ?b) = Gt => change (a > b)
  end; try lia.

(** One shift halves the mantissa and doubles the denominator. *)
Lemma shr_1_locates (N D : Z) (r : shr_record) :
  0 < D -> 0 <= shr_m r ->
  locates N D (shr_m r) (loc_of_shr_record r) ->
  locates N (2 * D) (shr_m (shr_1 r)) (loc_of_shr_record (shr_1 r)) /\
  shr_m (shr_1 r) = shr_m r / 2.
Proof.
  intros HD Hm H. destruct r as [m rb sb]. simpl in Hm.
  assert (Hdiv : forall q b, 0 <= b < 2 -> (2 * q + b) / 2 = q).
  { intros q b Hb. symmetry. apply (Z.div_unique _ 2 q b); lia. }
  destruct m as [| [p | p |] |]; try lia.
  - split; [| reflexivity].
    destruct rb, sb; cbn -[Z.mul Z.add Z.compare Z.div] in *; cmp_lia.
  - split; [| cbn -[Z.div]; change (Zpos p~1) with (2 * Zpos p + 1); now rewrite Hdiv by lia].
    change (Zpos p~1) with (2 * Zpos p + 1) in H.
    destruct rb, sb; cbn -[Z.mul Z.add Z.compare Z.div] in *; cmp_lia.
  - split; [| cbn -[Z.div]; change (Zpos p~0) with (2 * Zpos p + 0); now rewrite Hdiv by lia].
    change (Zpos p~0) with (2 * Zpos p) in H.
    destruct rb, sb; cbn -[Z.mul Z.add Z.compare Z.div] in *; cmp_lia.
  - split; [| reflexivity].
    destruct rb, sb; cbn -[Z.mul Z.add Z.compare Z.div] in *; cmp_lia.
Qed.

Lemma iter_shr_locates (p : positive) :
  forall (N D : Z) (r : shr_record),
    0 < D -> 0 <= shr_m r ->
    locates N D (shr_m r) (loc_of_shr_record r) ->
    locates N (D * 2 ^ Zpos p) (shr_m (iter_pos shr_1 p r))
      (loc_of_shr_record (iter_pos shr_1 p r)) /\
    shr_m (iter_pos shr_1 p r) = shr_m r / 2 ^ Zpos p /\
    0 <= shr_m (iter_pos shr_1 p r).
Proof.
  induction p as [p IH | p IH |]; intros N D r HD Hm H; cbn [iter_pos].
  - destruct (shr_1_locates N D r HD Hm H) as [H1 E1].
    assert (Hm1 : 0 <= shr_m (shr_1 r)) by (rewrite E1; apply Z.div_pos; lia).
    assert (P : 0 < 2 ^ Zpos p) by (apply Z.pow_pos_nonneg; lia).
    destruct (IH N (2 * D) (shr_1 r)) as (H2 & E2 & Hm2); [lia | assumption.. |].
    destruct (IH N (2 * D * 2 ^ Zpos p) (iter_pos shr_1 p (shr_1 r)))
      as (H3 & E3 & Hm3); [nia | assumption.. |].
    change (Zpos p~1) with (2 * Zpos p + 1).
    replace (2 * Zpos p + 1) with (1 + Zpos p + Zpos p) by lia.
    rewrite !Z.pow_add_r by lia. change (2 ^ 1) with 2.
    split; [| split; [| assumption]].
    + replace (D * (2 * 2 ^ Zpos p * 2 ^ Zpos p))
        with (2 * D * 2 ^ Zpos p * 2 ^ Zpos p) by ring. exact H3.
    + rewrite E3, E2, E1, !Z.div_div by lia. f_equal. ring.
  - assert (P : 0 < 2 ^ Zpos p) by (apply Z.pow_pos_nonneg; lia).
    destruct (IH N D r) as (H2 & E2 & Hm2); [assumption.. |].
    destruct (IH N (D * 2 ^ Zpos p) (iter_pos shr_1 p r))
      as (H3 & E3 & Hm3); [nia | assumption.. |].
    change (Zpos p~0) with (2 * Zpos p).
    replace (2 * Zpos p) with (Zpos p + Zpos p) by lia.
    rewrite !Z.pow_add_r by lia.
    split; [| split; [| assumption]].
    + replace (D * (2 ^ Zpos p * 2 ^ Zpos p))
        with (D * 2 ^ Zpos p * 2 ^ Zpos p) by ring. exact H3.
    + rewrite E3, E2, !Z.div_div by lia. f_equal.
  - destruct (shr_1_locates N D r HD Hm H) as [H1 E1].
    change (2 ^ 1) with 2. rewrite (Z.mul_comm D 2).
    split; [assumption | split; [assumption |]].
    rewrite E1. apply Z.div_pos; lia.
Qed.

Lemma shr_locates (N D : Z) (r : shr_record) (e k : Z) :
  0 < D -> 0 <= shr_m r -> 0 <= k ->
  locates N D (shr_m r) (loc_of_shr_record r) ->
  snd (shr r e k) = e + k /\
  locates N (D * 2 ^ k) (shr_m (fst (shr r e k)))
    (loc_of_shr_record (fst (shr r e k))) /\
  shr_m (fst (shr r e k)) = shr_m r / 2 ^ k.
Proof.
  intros HD Hm Hk H. destruct k as [| p | p]; [| | lia]; cbn [shr fst snd].
  - rewrite Z.mul_1_r, Z.div_1_r. split; [lia | split; [assumption | reflexivity]].
  - destruct (iter_shr_locates p N D r HD Hm H) as (H1 & E1 & _).
    split; [reflexivity | split; assumption].
Qed.

Lemma digits_ge_53 (q : positive) :
  two52 <= Zpos q -> 53 <= Zpos (digits2_pos q).
Proof.
  intros H. destruct (digits_bounds q) as [_ B].
  destruct (Z.le_gt_cases 53 (Zpos (digits2_pos q))) as [L | L]; [exact L |].
  assert (2 ^ Zpos (digits2_pos q) <= 2 ^ 52) by (apply Z.pow_le_mono_r; lia).
  change (2 ^ 52) with two52 in *. lia.
Qed.

(** *** [binary_round_aux] rounds to a nearest number

    For a mantissa of at least 53 bits the result is finite, has a
    mantissa of exactly 53 bits and is within half a unit in the last
    place of the exact value [N / D * 2^ex]. *)
Lemma round_spec (s : bool) (q : positive) (ex N D : Z) (l : location) :
  0 < D -> two52 <= Zpos q -> -1074 <= ex ->
  ex + Zpos (digits2_pos q) - 53 + 1 <= 971 ->
  locates N D (Zpos q) l ->
  exists m e,
    binary_round_aux prec emax s (Zpos q) ex l = S754_finite s m e /\
    two52 <= Zpos m < two53 /\ ex <= e <= 971 /\
    (2 * Zpos m - 1) * (D * 2 ^ (e - ex)) <= 2 * N
      <= (2 * Zpos m + 1) * (D * 2 ^ (e - ex)) /\
    (Zpos m = two52 -> (4 * two52 - 1) * (D * 2 ^ (e - ex)) <= 4 * N).
Proof.
  intros HD Hq Hex Hov H.
  pose proof (digits_ge_53 q Hq) as Hd.
  destruct (digits_bounds q) as [B1 B2].
  set (dq := Zpos (digits2_pos q)) in *.
  set (k := dq - 53).
  assert (Hk : 0 <= k) by (unfold k; lia).
  unfold binary_round_aux.
  assert (F1 : fexp prec emax (Zdigits2 (Zpos q) + ex) - ex = k).
  { unfold fexp, emin, prec, emax, Zdigits2. fold dq. unfold k. lia. }
  unfold shr_fexp at 1. rewrite F1.
  destruct (shr_of_loc (Zpos q) l) as [S1 S2].
  destruct (shr_locates N D (shr_record_of_loc (Zpos q) l) ex k)
    as (E1 & L1 & M1); [assumption | rewrite S1; lia | assumption
                        | rewrite S1, S2; assumption |].
  destruct (shr (shr_record_of_loc (Zpos q) l) ex k) as [r1 e1].
  cbn [fst snd] in E1, L1, M1. rewrite S1 in M1. subst e1.
  assert (P : 0 < 2 ^ k) by (apply Z.pow_pos_nonneg; lia).
  assert (Bm : two52 <= shr_m r1 < two53).
  { rewrite M1. replace dq with (53 + k) in B2 by (unfold k; lia).
    replace (dq - 1) with (52 + k) in B1 by (unfold k; lia).
    rewrite Z.pow_add_r in B1, B2 by lia.
    change (2 ^ 52) with two52 in B1. change (2 ^ 53) with two53 in B2.
    split; [apply Z.div_le_lower_bound | apply Z.div_lt_upper_bound]; lia. }
  set (D1 := D * 2 ^ k) in *.
  assert (HD1 : 0 < D1) by (unfold D1; nia).
  set (m1 := shr_m r1) in *.
  set (mr := round_nearest_even m1 (loc_of_shr_record r1)).
  assert (R : m1 <= mr <= m1 + 1 /\ m1 * D1 <= N /\ N <= (m1 + 1) * D1 /\
              (2 * mr - 1) * D1 <= 2 * N <= (2 * mr + 1) * D1 /\
              (mr = m1 + 1 -> (2 * m1 + 1) * D1 <= 2 * N)).
  { unfold mr. destruct (loc_of_shr_record r1) as [| []];
      cbn [round_nearest_even locates] in *;
      try destruct (Z.even m1); cmp_lia; nia. }
  clearbody mr. destruct R as (R1 & R2 & R3 & R4 & R5).
  destruct (Z.eq_dec mr two53) as [C | C].
  - (* the rounding carries into the next binade *)
    subst mr. exists 4503599627370496%positive, (ex + k + 1).
    assert (F2 : fexp prec emax (Zdigits2 two53 + (ex + k)) - (ex + k) = 1).
    { unfold fexp, emin, prec, emax. change (Zdigits2 two53) with 54. lia. }
    unfold shr_fexp. rewrite F2. cbn [shr_record_of_loc shr iter_pos].
    change (shr_m (shr_1 {| shr_m := two53; shr_r := false; shr_s := false |}))
      with two52.
    change two52 with (Zpos 4503599627370496).
    cbv iota beta. unfold emax, prec.
    destruct (Z.leb_spec (ex + k + 1) (1024 - 53)) as [_ | G]; [| unfold k in G; lia].
    split; [reflexivity |]. split; [unfold two52, two53; lia |].
    split; [unfold k; lia |].
    replace (ex + k + 1 - ex) with (k + 1) by lia.
    rewrite Z.pow_add_r by lia. change (2 ^ 1) with 2.
    fold two52. unfold two52, two53 in *. unfold D1 in *.
    split; [nia | intros _; nia].
  - assert (Bmr : two52 <= mr < two53) by lia.
    destruct mr as [| pm |]; try (unfold two52 in Bmr; lia).
    exists pm, (ex + k).
    assert (Dm : Zdigits2 (Zpos pm) = 53).
    { apply (digits_unique pm 53). change (2 ^ (53 - 1)) with two52.
      change (2 ^ 53) with two53. exact Bmr. }
    assert (F2 : fexp prec emax (Zdigits2 (Zpos pm) + (ex + k)) - (ex + k) = 0).
    { rewrite Dm. unfold fexp, emin, prec, emax. lia. }
    unfold shr_fexp. rewrite F2. cbn [shr_record_of_loc shr shr_m fst snd].
    unfold emax, prec.
    destruct (Z.leb_spec (ex + k) (1024 - 53)) as [_ | G]; [| unfold k in G; lia].
    split; [reflexivity |]. split; [exact Bmr |]. split; [unfold k; lia |].
    replace (ex + k - ex) with k by lia. fold D1.
    split; [exact R4 |]. intros E. unfold two52, two53 in *. nia.
Qed.

Lemma pow2_split (a b : Z) : 0 <= a -> 0 <= b -> 2 ^ (a + b) = 2 ^ a * 2 ^ b.
Proof. intros. apply Z.pow_add_r; assumption. Qed.

(** *** The quotient of a count of cents by 100

    For every count of cents below [2^100] the quotient [SFdiv] returns
    is a normal number nearest to [p / 100]. *)
Lemma div100_spec (s : bool) (p : positive) :
  Zpos p < 2 ^ 100 ->
  exists m e,
    SFdiv prec emax (S754_finite s p 0) (S754_finite false 100 0)
      = S754_finite s m e /\
    two52 <= Zpos m < two53 /\ -1074 <= e <= 971 /\
    (2 * Zpos m - 1) * (100 * 2 ^ (e + 1074)) <= 2 * (Zpos p * 2 ^ 1074)
      <= (2 * Zpos m + 1) * (100 * 2 ^ (e + 1074)) /\
    (Zpos m = two52 ->
     (4 * two52 - 1) * (100 * 2 ^ (e + 1074)) <= 4 * (Zpos p * 2 ^ 1074)).
Proof.
  intros Hp. destruct (digits_bounds p) as [B1 B2].
  set (d1 := Zpos (digits2_pos p)) in *.
  assert (Hd1 : 0 < d1) by (unfold d1; lia).
  assert (Hd100 : d1 <= 100).
  { destruct (Z.le_gt_cases d1 100) as [L | L]; [exact L |].
    assert (2 ^ 100 <= 2 ^ (d1 - 1)) by (apply Z.pow_le_mono_r; lia). lia. }
  set (sft := Z.max (60 - d1) 0).
  unfold SFdiv, SFdiv_core_binary. rewrite xorb_false_r.
  change (Zdigits2 100) with 7. change (Zdigits2 (Zpos p)) with d1.
  assert (E1 : Z.min (fexp prec emax (d1 + 0 - (7 + 0))) (0 - 0) = - sft).
  { unfold fexp, emin, prec, emax, sft. lia. }
  rewrite E1. replace (0 - 0 - - sft) with sft by lia.
  assert (E2 : match sft with
               | 0 => Zpos p
               | Zpos _ => Z.shiftl (Zpos p) sft
               | Zneg _ => 0
               end = Zpos p * 2 ^ sft).
  { assert (0 <= sft) by (unfold sft; lia).
    destruct sft as [| k | k] eqn:Es; [simpl; lia | | lia].
    apply Z.shiftl_mul_pow2. lia. }
  rewrite E2. clear E2. set (N := Zpos p * 2 ^ sft).
  assert (Hs : 0 <= sft <= 59) by (unfold sft; lia).
  assert (P : 0 < 2 ^ sft) by (apply Z.pow_pos_nonneg; lia).
  assert (HN : 2 ^ 59 <= N < 2 ^ 101).
  { unfold N. destruct (Z.le_gt_cases d1 60) as [L | L].
    - replace sft with (60 - d1) in * by (unfold sft; lia).
      replace 59 with (d1 - 1 + (60 - d1)) at 1 by lia.
      rewrite pow2_split by lia. split; [nia |].
      assert (Zpos p * 2 ^ (60 - d1) < 2 ^ d1 * 2 ^ (60 - d1)) by nia.
      rewrite <- pow2_split in H by lia. replace (d1 + (60 - d1)) with 60 in H by lia.
      assert (2 ^ 60 <= 2 ^ 101) by (apply Z.pow_le_mono_r; lia). lia.
    - replace sft with 0 in * by (unfold sft; lia). rewrite Z.mul_1_r.
      assert (2 ^ 59 <= 2 ^ (d1 - 1)) by (apply Z.pow_le_mono_r; lia).
      assert (2 ^ 100 <= 2 ^ 101) by (apply Z.pow_le_mono_r; lia). lia. }
  pose proof (Z_div_mod N 100 eq_refl) as DM.
  destruct (Z.div_eucl N 100) as [q r]. destruct DM as [DM1 DM2].
  assert (Hq : two52 <= q < 2 ^ 101).
  { change (2 ^ 59) with 576460752303423488 in HN. unfold two52.
    assert (0 < 2 ^ 101) by (apply Z.pow_pos_nonneg; lia). lia. }
  destruct q as [| pq |]; try (unfold two52 in Hq; lia).
  assert (Hdq : Zpos (digits2_pos pq) <= 101).
  { destruct (digits_bounds pq) as [C1 C2].
    destruct (Z.le_gt_cases (Zpos (digits2_pos pq)) 101) as [L | L]; [exact L |].
    assert (2 ^ 101 <= 2 ^ (Zpos (digits2_pos pq) - 1))
      by (apply Z.pow_le_mono_r; lia). lia. }
  assert (Hl : locates N 100 (Zpos pq) (new_location 100 r)).
  { change (new_location 100 r) with (new_location_even 100 r).
    unfold new_location_even. destruct (Z.eqb_spec r 0) as [-> | Hr];
      cbn [locates]; [lia |]. split; [lia |].
    replace (2 * N) with (200 * Zpos pq + 2 * r) by lia.
    replace ((2 * Zpos pq + 1) * 100) with (200 * Zpos pq + 100) by lia.
    apply Z.add_compare_mono_l. }
  destruct (round_spec s pq (- sft) N 100 (new_location 100 r))
    as (m & e & E & Bm & Be & Bn & Bt); [lia | lia | lia | lia | exact Hl |].
  exists m, e. split; [exact E |]. split; [exact Bm |]. split; [lia |].
  replace (e - - sft) with (e + sft) in * by lia.
  assert (Q : 0 < 2 ^ (1074 - sft)) by (apply Z.pow_pos_nonneg; lia).
  assert (X1 : 2 ^ (e + 1074) = 2 ^ (e + sft) * 2 ^ (1074 - sft)).
  { rewrite <- pow2_split by lia. f_equal. lia. }
  assert (X2 : 2 ^ 1074 = 2 ^ sft * 2 ^ (1074 - sft)).
  { rewrite <- pow2_split by lia. f_equal. lia. }
  rewrite X1, X2. unfold N in Bn, Bt.
  set (u := 2 ^ (e + sft)) in *. set (v := 2 ^ (1074 - sft)) in *.
  set (w := 2 ^ sft) in *. clearbody u v w.
  split; [split; nia | intros Em; specialize (Bt Em); nia].
Qed.

Lemma pow2_lt_twice (a b : Z) : 0 <= a -> a < b -> 2 * 2 ^ a <= 2 ^ b.
Proof.
  intros Ha Hab. replace (2 * 2 ^ a) with (2 ^ (a + 1)).
  - apply Z.pow_le_mono_r; lia.
  - rewrite Z.pow_add_r by lia. change (2 ^ 1) with 2. lia.
Qed.

(** *** The order of the rounded quotients

    What [bounded] says of a binary64 number. *)
Lemma bounded_facts (m : positive) (e : Z) :
  bounded prec emax m e = true ->
  -1074 <= e <= 971 /\ Zpos m < two53 /\ (-1074 < e -> two52 <= Zpos m).
Proof.
  unfold bounded, canonical_mantissa, fexp, emin, prec, emax.
  intros H. apply andb_prop in H. destruct H as [H1 H2].
  apply Z.eqb_eq in H1. apply Z.leb_le in H2.
  destruct (digits_bounds m) as [B1 B2].
  set (d := Zpos (digits2_pos m)) in *.
  assert (0 < d) by (unfold d; lia).
  split; [lia |]. split.
  - assert (d <= 53) by lia.
    assert (2 ^ d <= 2 ^ 53) by (apply Z.pow_le_mono_r; lia).
    change (2 ^ 53) with two53 in *. lia.
  - intros He. assert (d = 53) by lia.
    replace (d - 1) with 52 in B1 by lia. exact B1.
Qed.

(** A nearest number to a smaller value is not above a nearest number
    to a larger one. *)
Lemma near_mono (X X' : Z) (m m' : positive) (e e' : Z) :
  near X m e -> near X' m' e' -> X < X' -> ~ lex_lt m' e' m e.
Proof.
  intros (Bm & Be & Bn & Bt) (Bm' & Be' & Bn' & _) HX [L | [-> L]].
  - pose proof (pow2_lt_twice (e' + 1074) (e + 1074)) as T.
    assert (0 < 2 ^ (e' + 1074)) by (apply Z.pow_pos_nonneg; lia).
    set (u := 2 ^ (e + 1074)) in *. set (u' := 2 ^ (e' + 1074)) in *.
    clearbody u u'. unfold two52, two53 in *.
    assert (2 * u' <= u) by (apply T; lia).
    destruct (Z.eq_dec (Zpos m) 4503599627370496) as [E | E].
    + specialize (Bt E). nia.
    + nia.
  - assert (0 < 2 ^ (e + 1074)) by (apply Z.pow_pos_nonneg; lia).
    set (u := 2 ^ (e + 1074)) in *. clearbody u. nia.
Qed.

(** A number above a nearest number to [X] is above [X]. *)
Lemma near_above (X : Z) (m ma : positive) (e ea : Z) :
  near X m e -> bounded prec emax ma ea = true -> lex_lt m e ma ea ->
  X < 100 * (Zpos ma * 2 ^ (ea + 1074)).
Proof.
  intros (Bm & Be & Bn & Bt) Hb L.
  destruct (bounded_facts ma ea Hb) as (Ba & Bb & Bc).
  assert (0 < 2 ^ (e + 1074)) by (apply Z.pow_pos_nonneg; lia).
  destruct L as [L | [<- L]].
  - pose proof (pow2_lt_twice (e + 1074) (ea + 1074)) as T.
    set (u := 2 ^ (e + 1074)) in *. set (ua := 2 ^ (ea + 1074)) in *.
    clearbody u ua. assert (2 * u <= ua) by (apply T; lia).
    assert (two52 <= Zpos ma) by (apply Bc; lia).
    unfold two52, two53 in *. nia.
  - set (u := 2 ^ (e + 1074)) in *. clearbody u. nia.
Qed.

(** A number below a nearest number to [X] is below [X]. *)
Lemma near_below (X : Z) (m ma : positive) (e ea : Z) :
  near X m e -> bounded prec emax ma ea = true -> lex_lt ma ea m e ->
  100 * (Zpos ma * 2 ^ (ea + 1074)) < X.
Proof.
  intros (Bm & Be & Bn & Bt) Hb L.
  destruct (bounded_facts ma ea Hb) as (Ba & Bb & Bc).
  assert (0 < 2 ^ (ea + 1074)) by (apply Z.pow_pos_nonneg; lia).
  destruct L as [L | [-> L]].
  - pose proof (pow2_lt_twice (ea + 1074) (e + 1074)) as T.
    set (u := 2 ^ (e + 1074)) in *. set (ua := 2 ^ (ea + 1074)) in *.
    clearbody u ua. assert (2 * ua <= u) by (apply T; lia).
    unfold two52, two53 in *.
    destruct (Z.eq_dec (Zpos m) 4503599627370496) as [E | E].
    + specialize (Bt E). nia.
    + nia.
  - set (u := 2 ^ (e + 1074)) in *. clearbody u. nia.
Qed.

(** *** The cents of a number

    [at_least_1e21] and [nearest_cents] against the exact value. *)
Lemma at_least_iff (m : positive) (e : Z) :
  -1074 <= e ->
  at_least_1e21 m e = true <-> 10 ^ 21 * 2 ^ 1074 <= Zpos m * 2 ^ (e + 1074).
Proof.
  intros He. unfold at_least_1e21.
  assert (W : 0 < 2 ^ (e + 1074)) by (apply Z.pow_pos_nonneg; lia).
  assert (W' : 0 < 2 ^ 1074) by (apply Z.pow_pos_nonneg; lia).
  set (c := 10 ^ 21). clearbody c.
  destruct e as [| p | p]; rewrite Z.leb_le.
  - change (2 ^ (0 + 1074)) with (2 ^ 1074). change (2 ^ 0) with 1.
    rewrite Z.mul_1_r. apply Z.mul_le_mono_pos_r. exact W'.
  - rewrite (pow2_split (Zpos p) 1074), Z.mul_assoc by lia.
    apply Z.mul_le_mono_pos_r. exact W'.
  - assert (E : 2 ^ 1074 = 2 ^ Zpos p * 2 ^ (Zneg p + 1074)).
    { rewrite <- pow2_split by lia. f_equal. lia. }
    rewrite E, Z.mul_assoc. apply Z.mul_le_mono_pos_r. exact W.
Qed.

Lemma mul_le_cancel (w a b : Z) : 0 < w -> a * w <= b * w -> a <= b.
Proof. intros Hw H. now apply Z.mul_le_mono_pos_r in H. Qed.

Lemma nearest_ge (n : Z) (m : positive) (e : Z) :
  -1074 <= e ->
  n * 2 ^ 1074 <= 100 * (Zpos m * 2 ^ (e + 1074)) -> n <= nearest_cents m e.
Proof.
  intros He. unfold nearest_cents.
  assert (W : 0 < 2 ^ (e + 1074)) by (apply Z.pow_pos_nonneg; lia).
  assert (W' : 0 < 2 ^ 1074) by (apply Z.pow_pos_nonneg; lia).
  destruct e as [| p | p].
  - change (2 ^ (0 + 1074)) with (2 ^ 1074). change (2 ^ 0) with 1.
    set (w := 2 ^ 1074) in *. clearbody w. intros H.
    apply (mul_le_cancel w); lia.
  - rewrite (pow2_split (Zpos p) 1074) by lia.
    set (w := 2 ^ 1074) in *. set (u := 2 ^ Zpos p) in *. clearbody w u.
    intros H. apply (mul_le_cancel w); lia.
  - assert (E : 2 ^ 1074 = 2 ^ Zpos p * 2 ^ (Zneg p + 1074)).
    { rewrite <- pow2_split by lia. f_equal. lia. }
    rewrite E. rewrite (pow2_split (Zpos p) 1) by lia. change (2 ^ 1) with 2.
    assert (0 < 2 ^ Zpos p) by (apply Z.pow_pos_nonneg; lia).
    set (u := 2 ^ Zpos p) in *. set (v := 2 ^ (Zneg p + 1074)) in *.
    clearbody u v. intros H1.
    assert (n * u <= 100 * Zpos m) by (apply (mul_le_cancel v); lia).
    apply Z.div_le_lower_bound; lia.
Qed.

Lemma nearest_le (n : Z) (m : positive) (e : Z) :
  -1074 <= e ->
  100 * (Zpos m * 2 ^ (e + 1074)) <= n * 2 ^ 1074 -> nearest_cents m e <= n.
Proof.
  intros He. unfold nearest_cents.
  assert (W : 0 < 2 ^ (e + 1074)) by (apply Z.pow_pos_nonneg; lia).
  assert (W' : 0 < 2 ^ 1074) by (apply Z.pow_pos_nonneg; lia).
  destruct e as [| p | p].
  - change (2 ^ (0 + 1074)) with (2 ^ 1074). change (2 ^ 0) with 1.
    set (w := 2 ^ 1074) in *. clearbody w. intros H.
    apply (mul_le_cancel w); lia.
  - rewrite (pow2_split (Zpos p) 1074) by lia.
    set (w := 2 ^ 1074) in *. set (u := 2 ^ Zpos p) in *. clearbody w u.
    intros H. apply (mul_le_cancel w); lia.
  - assert (E : 2 ^ 1074 = 2 ^ Zpos p * 2 ^ (Zneg p + 1074)).
    { rewrite <- pow2_split by lia. f_equal. lia. }
    rewrite E. rewrite (pow2_split (Zpos p) 1) by lia. change (2 ^ 1) with 2.
    assert (0 < 2 ^ Zpos p) by (apply Z.pow_pos_nonneg; lia).
    set (u := 2 ^ Zpos p) in *. set (v := 2 ^ (Zneg p + 1074)) in *.
    clearbody u v. intros H1.
    assert (100 * Zpos m <= n * u) by (apply (mul_le_cancel v); lia).
    assert (Hlt : (200 * Zpos m + u) / (u * 2) < n + 1);
      [apply Z.div_lt_upper_bound; lia | lia].
Qed.

Lemma nearest_nonneg (m : positive) (e : Z) : 0 <= nearest_cents m e.
Proof.
  unfold nearest_cents. destruct e as [| p | p].
  - lia.
  - assert (0 < 2 ^ Zpos p) by (apply Z.pow_pos_nonneg; lia). nia.
  - assert (0 < 2 ^ Zpos p) by (apply Z.pow_pos_nonneg; lia).
    apply Z.div_pos; [lia | apply Z.pow_pos_nonneg; lia].
Qed.

(** Below [1e21] the cents fit in a hundred bits. *)
Lemma nearest_small (m : positive) (e : Z) :
  -1074 <= e -> at_least_1e21 m e = false ->
  0 <= nearest_cents m e <= 10 ^ 23.
Proof.
  intros He H. split; [apply nearest_nonneg |].
  apply nearest_le; [exact He |].
  destruct (Z.le_gt_cases (10 ^ 21 * 2 ^ 1074) (Zpos m * 2 ^ (e + 1074)))
    as [L | L].
  - apply (at_least_iff m e He) in L. congruence.
  - change (10 ^ 23) with (100 * 10 ^ 21). lia.
Qed.

(** *** [toFixed2] through [Prim2SF] *)
Lemma near_valid (X : Z) (m : positive) (e : Z) :
  near X m e -> bounded prec emax m e = true.
Proof.
  intros (Bm & Be & _). unfold bounded, canonical_mantissa.
  rewrite (digits_unique m 53) by exact Bm.
  unfold fexp, emin, prec, emax. apply andb_true_intro. split.
  - apply Z.eqb_eq. lia.
  - apply Z.leb_le. lia.
Qed.

Lemma toFixed2_SF_cases (s : bool) (ma : positive) (ea : Z) :
  bounded prec emax ma ea = true -> at_least_1e21 ma ea = false ->
  (nearest_cents ma ea <= 0 /\ toFixed2_SF (S754_finite s ma ea) = S754_zero s) \/
  exists p m e,
    nearest_cents ma ea = Zpos p /\
    toFixed2_SF (S754_finite s ma ea) = S754_finite s m e /\
    SFdiv prec emax (S754_finite s p 0) (S754_finite false 100 0)
      = S754_finite s m e /\
    near (Zpos p * 2 ^ 1074) m e.
Proof.
  intros Hb Hs. destruct (bounded_facts ma ea Hb) as (Be & _).
  pose proof (nearest_small ma ea (proj1 Be) Hs) as Hn.
  cbn [toFixed2_SF]. rewrite Hs.
  destruct (nearest_cents ma ea) as [| p | p] eqn:En;
    [left; split; [lia | reflexivity] | | left; split; [lia | reflexivity]].
  right. destruct (div100_spec s p) as (m & e & E & B).
  - change (2 ^ 100) with 1267650600228229401496703205376.
    change (10 ^ 23) with 100000000000000000000000 in Hn. lia.
  - exists p, m, e. split; [reflexivity |]. split; [exact E |].
    split; [exact E | exact B].
Qed.

Lemma Prim2SF_toFixed2 (x : number) :
  Prim2SF (toFixed2 x) = toFixed2_SF (Prim2SF x).
Proof.
  pose proof (Prim2SF_valid x) as V. unfold toFixed2.
  destruct (Prim2SF x) as [s | s | | s m e] eqn:E; cbn [toFixed2_SF];
    try exact E; [reflexivity |].
  change (bounded prec emax m e = true) in V.
  destruct (at_least_1e21 m e) eqn:Hh; [exact E |].
  destruct (toFixed2_SF_cases s m e V Hh)
    as [[_ T] | (p & m' & e' & En & T & _ & B)];
    cbn [toFixed2_SF] in T; rewrite Hh in T.
  - destruct (nearest_cents m e) as [| p | p]; cbn [of_cents];
      try (destruct s; reflexivity).
    rewrite Prim2SF_SF2Prim; [reflexivity |].
    rewrite T. reflexivity.
  - rewrite En in *. cbn [of_cents]. rewrite Prim2SF_SF2Prim; [reflexivity |].
    rewrite T. change (bounded prec emax m' e' = true). eapply near_valid, B.
Qed.

(** *** The order of [SFcompare] *)
Lemma SFltb_pos (m : positive) (e : Z) (m' : positive) (e' : Z) :
  SFltb (S754_finite false m e) (S754_finite false m' e') = true
  <-> lex_lt m e m' e'.
Proof.
  unfold SFltb, SFcompare, lex_lt.
  change (Pos.compare_cont Eq m m') with (Pos.compare m m').
  destruct (Z.compare_spec e e'); [destruct (Pos.compare_spec m m') |..];
    split; intros H'; try discriminate; try reflexivity; lia.
Qed.

Lemma SFltb_neg (m : positive) (e : Z) (m' : positive) (e' : Z) :
  SFltb (S754_finite true m e) (S754_finite true m' e') = true
  <-> lex_lt m' e' m e.
Proof.
  unfold SFltb, SFcompare, lex_lt.
  change (Pos.compare_cont Eq m m') with (Pos.compare m m').
  destruct (Z.compare_spec e e'); [destruct (Pos.compare_spec m m') |..];
    cbn [CompOpp]; split; intros H'; try discriminate; try reflexivity; lia.
Qed.

Lemma not_true_false (b : bool) : ~ b = true -> b = false.
Proof. now destruct b. Qed.

Lemma SFltb_asym (x y : spec_float) : SFltb x y = true -> SFltb y x = false.
Proof.
  destruct x as [sx | sx | | sx mx ex], y as [sy | sy | | sy my ey];
    try (destruct sx); try (destruct sy); try (intros; reflexivity);
    try discriminate.
  - rewrite SFltb_neg. intros H. apply not_true_false. rewrite SFltb_neg.
    unfold lex_lt in *. lia.
  - rewrite SFltb_pos. intros H. apply not_true_false. rewrite SFltb_pos.
    unfold lex_lt in *. lia.
Qed.

Lemma lex_val (m : positive) (e : Z) (m' : positive) (e' : Z) :
  bounded prec emax m e = true -> bounded prec emax m' e' = true ->
  lex_lt m e m' e' ->
  Zpos m * 2 ^ (e + 1074) < Zpos m' * 2 ^ (e' + 1074).
Proof.
  intros Hb Hb' L.
  destruct (bounded_facts m e Hb) as (Be & Bm & _).
  destruct (bounded_facts m' e' Hb') as (Be' & _ & Bn).
  assert (0 < 2 ^ (e + 1074)) by (apply Z.pow_pos_nonneg; lia).
  destruct L as [L | [<- L]].
  - pose proof (pow2_lt_twice (e + 1074) (e' + 1074)) as T.
    assert (two52 <= Zpos m') by (apply Bn; lia).
    set (u := 2 ^ (e + 1074)) in *. set (u' := 2 ^ (e' + 1074)) in *.
    clearbody u u'. assert (2 * u <= u') by (apply T; lia).
    unfold two52, two53 in *. nia.
  - set (u := 2 ^ (e + 1074)) in *. clearbody u. nia.
Qed.

Lemma lex_irrefl (m : positive) (e : Z) : ~ lex_lt m e m e.
Proof. unfold lex_lt. lia. Qed.

(** The rounded quotients of two counts of cents are in the order of
    the counts. *)
Lemma near_le (p p' m m' : positive) (e e' : Z) (s : bool) :
  SFdiv prec emax (S754_finite s p 0) (S754_finite false 100 0)
    = S754_finite s m e ->
  SFdiv prec emax (S754_finite s p' 0) (S754_finite false 100 0)
    = S754_finite s m' e' ->
  near (Zpos p * 2 ^ 1074) m e -> near (Zpos p' * 2 ^ 1074) m' e' ->
  Zpos p <= Zpos p' -> ~ lex_lt m' e' m e.
Proof.
  intros E E' B B' H.
  destruct (Z.eq_dec (Zpos p) (Zpos p')) as [Q | Q].
  - injection Q as ->. rewrite E in E'. injection E' as <- <-.
    apply lex_irrefl.
  - apply (near_mono _ _ _ _ _ _ B B').
    assert (0 < 2 ^ 1074) by (apply Z.pow_pos_nonneg; lia). nia.
Qed.

(** An amount above a rounded amount is not rounded below it. *)
Lemma toFixed2_SF_not_below (y a : spec_float) :
  valid_binary y = true -> valid_binary a = true ->
  SFltb (toFixed2_SF y) a = true -> SFltb (toFixed2_SF a) (toFixed2_SF y) = false.
Proof.
  intros Vy Va H.
  destruct a as [sa | sa | | sa ma ea].
  - cbn [toFixed2_SF]. destruct (toFixed2_SF y) as [? | [] | | [] ? ?]; try discriminate;
      try reflexivity; destruct sa; discriminate.
  - apply SFltb_asym. exact H.
  - destruct (toFixed2_SF y) as [? | [] | | [] ? ?]; discriminate.
  - change (bounded prec emax ma ea = true) in Va.
    destruct (at_least_1e21 ma ea) eqn:Ha.
    { cbn [toFixed2_SF]. rewrite Ha. apply SFltb_asym. exact H. }
    destruct (bounded_facts ma ea Va) as (Bea & _).
    assert (W : 0 < 2 ^ 1074) by (apply Z.pow_pos_nonneg; lia).
    destruct y as [sy | sy | | sy my ey].
    + (* y is a zero *)
      cbn [toFixed2_SF] in H. destruct sa; [discriminate |].
      destruct (toFixed2_SF_cases false ma ea Va Ha)
        as [[_ ->] | (p & m & e & _ & -> & _)]; reflexivity.
    + (* y is an infinity *)
      cbn [toFixed2_SF] in H. destruct sy; [| destruct sa; discriminate].
      destruct (toFixed2_SF_cases sa ma ea Va Ha)
        as [[_ ->] | (p & m & e & _ & -> & _)]; [reflexivity |].
      destruct sa; reflexivity.
    + discriminate.
    + change (bounded prec emax my ey = true) in Vy.
      destruct (bounded_facts my ey Vy) as (Bey & _).
      destruct (at_least_1e21 my ey) eqn:Hy.
      * (* y is at least 1e21 in magnitude and is its own rounding *)
        assert (Ty : toFixed2_SF (S754_finite sy my ey) = S754_finite sy my ey)
          by (cbn [toFixed2_SF]; now rewrite Hy).
        rewrite Ty in *.
        apply (at_least_iff my ey (proj1 Bey)) in Hy.
        destruct sy, sa; try discriminate.
        -- apply SFltb_neg in H.
           destruct (toFixed2_SF_cases true ma ea Va Ha)
             as [[_ ->] | (p & m & e & En & -> & _ & B)]; [reflexivity |].
           apply not_true_false. rewrite SFltb_neg. intros L.
           pose proof (near_below _ _ _ _ _ B Vy L) as L1.
           pose proof (nearest_small ma ea (proj1 Bea) Ha) as [_ Hn].
           rewrite En in Hn. change (10 ^ 23) with (100 * 10 ^ 21) in Hn.
           set (c := 10 ^ 21) in *. clearbody c. nia.
        -- destruct (toFixed2_SF_cases false ma ea Va Ha)
             as [[_ ->] | (p & m & e & _ & -> & _)]; reflexivity.
        -- apply SFltb_pos in H. pose proof (lex_val _ _ _ _ Vy Va H) as L.
           assert (A : at_least_1e21 ma ea = true)
             by (apply (at_least_iff ma ea (proj1 Bea)); lia).
           congruence.
      * (* y is rounded to a count of cents *)
        destruct (toFixed2_SF_cases sy my ey Vy Hy)
          as [[_ Ty] | (p & m & e & En & Ty & Ey & B)]; rewrite Ty in *.
        -- destruct sa; [destruct sy; discriminate |].
           destruct (toFixed2_SF_cases false ma ea Va Ha)
             as [[_ ->] | (p' & m' & e' & _ & -> & _)]; destruct sy; reflexivity.
        -- destruct sy, sa; try discriminate.
           ++ apply SFltb_neg in H.
              pose proof (near_below _ _ _ _ _ B Va H) as L1.
              assert (Hle : nearest_cents ma ea <= Zpos p)
                by (apply nearest_le; lia).
              destruct (toFixed2_SF_cases true ma ea Va Ha)
                as [[_ ->] | (p' & m' & e' & En' & -> & Ea & B')]; [reflexivity |].
              rewrite En' in Hle.
              apply not_true_false. rewrite SFltb_neg.
              apply (near_le p' p m' m e' e true); assumption.
           ++ destruct (toFixed2_SF_cases false ma ea Va Ha)
                as [[_ ->] | (p' & m' & e' & _ & -> & _)]; reflexivity.
           ++ apply SFltb_pos in H.
              pose proof (near_above _ _ _ _ _ B Va H) as L1.
              assert (Hle : Zpos p <= nearest_cents ma ea)
                by (apply nearest_ge; lia).
              destruct (toFixed2_SF_cases false ma ea Va Ha)
                as [[Hz _] | (p' & m' & e' & En' & -> & Ea & B')]; [lia |].
              rewrite En' in Hle.
              apply not_true_false. rewrite SFltb_pos.
              apply (near_le p p' m m' e e' false); assumption.
Qed.

(** An amount above an amount rounded to two decimals is not rounded
    below it. *)
Lemma toFixed2_not_below (y amt : number) :
  (toFixed2 y <? amt)%float = true ->
  (toFixed2 amt <? toFixed2 y)%float = false.
Proof.
  rewrite !ltb_spec, !Prim2SF_toFixed2.
  apply toFixed2_SF_not_below; apply Prim2SF_valid.
Qed.

Lemma ltb_irrefl (x : number) : (x <? x)%float = false.
Proof.
  rewrite ltb_spec.
  destruct (SFltb (Prim2SF x) (Prim2SF x)) eqn:E; [| reflexivity].
  pose proof (SFltb_asym _ _ E). congruence.
Qed.

(** The order of the numbers is transitive. *)
Lemma SFcompare_rank (x y : spec_float) :
  is_number x -> is_number y ->
  (SFcompare x y = Some Lt /\ rank_lt (rank x) (rank y)) \/
  (SFcompare x y = Some Eq /\ rank_eq (rank x) (rank y)) \/
  (SFcompare x y = Some Gt /\ rank_lt (rank y) (rank x)).
Proof.
  unfold rank_lt, rank_eq.
  destruct x as [sx | sx | | sx mx ex], y as [sy | sy | | sy my ey];
    try contradiction; intros _ _;
    try destruct sx; try destruct sy; cbn [SFcompare rank fst snd];
    try (left; split; [reflexivity | lia]);
    try (right; left; split; [reflexivity | lia]);
    try (right; right; split; [reflexivity | lia]).
  - change (Pos.compare_cont Eq mx my) with (Pos.compare mx my).
    destruct (Z.compare_spec ex ey); [destruct (Pos.compare_spec mx my) |..];
      cbn [CompOpp];
      try (left; split; [reflexivity | lia]);
      try (right; left; split; [reflexivity | lia]);
      try (right; right; split; [reflexivity | lia]).
  - change (Pos.compare_cont Eq mx my) with (Pos.compare mx my).
    destruct (Z.compare_spec ex ey); [destruct (Pos.compare_spec mx my) |..];
      try (left; split; [reflexivity | lia]);
      try (right; left; split; [reflexivity | lia]);
      try (right; right; split; [reflexivity | lia]).
Qed.

Lemma SFleb_number (x y : spec_float) :
  SFleb x y = true -> is_number x /\ is_number y.
Proof. destruct x, y; try discriminate; simpl; auto. Qed.

Lemma SFltb_number (x y : spec_float) :
  SFltb x y = true -> is_number x /\ is_number y.
Proof. destruct x, y; try discriminate; simpl; auto. Qed.

Lemma SFleb_rank (x y : spec_float) :
  SFleb x y = true <->
  is_number x /\ is_number y /\
  (rank_lt (rank x) (rank y) \/ rank_eq (rank x) (rank y)).
Proof.
  split.
  - intros H. destruct (SFleb_number x y H) as [Nx Ny].
    split; [exact Nx | split; [exact Ny |]]. unfold SFleb in H.
    destruct (SFcompare_rank x y Nx Ny) as [[E R] | [[E R] | [E R]]];
      rewrite E in H; [now left | now right | discriminate].
  - intros (Nx & Ny & R). unfold SFleb.
    destruct (SFcompare_rank x y Nx Ny) as [[E R'] | [[E R'] | [E R']]];
      rewrite E; try reflexivity.
    unfold rank_lt, rank_eq in *. lia.
Qed.

Lemma SFltb_rank (x y : spec_float) :
  SFltb x y = true <->
  is_number x /\ is_number y /\ rank_lt (rank x) (rank y).
Proof.
  split.
  - intros H. destruct (SFltb_number x y H) as [Nx Ny].
    split; [exact Nx | split; [exact Ny |]]. unfold SFltb in H.
    destruct (SFcompare_rank x y Nx Ny) as [[E R] | [[E R] | [E R]]];
      rewrite E in H; [exact R | discriminate | discriminate].
  - intros (Nx & Ny & R). unfold SFltb.
    destruct (SFcompare_rank x y Nx Ny) as [[E R'] | [[E R'] | [E R']]];
      rewrite E; try reflexivity; unfold rank_lt, rank_eq in *; lia.
Qed.

Lemma leb_trans (x y z : number) :
  (x <=? y)%float = true -> (y <=? z)%float = true -> (x <=? z)%float = true.
Proof.
  rewrite !leb_spec, !SFleb_rank. unfold rank_lt, rank_eq.
  intros (Nx & Ny & R1) (_ & Nz & R2). split; [exact Nx | split; [exact Nz |]].
  lia.
Qed.

Lemma leb_ltb_trans (x y z : number) :
  (x <=? y)%float = true -> (y <? z)%float = true -> (x <? z)%float = true.
Proof.
  rewrite leb_spec, !ltb_spec, SFleb_rank, !SFltb_rank. unfold rank_lt, rank_eq.
  intros (Nx & Ny & R1) (_ & Nz & R2). split; [exact Nx | split; [exact Nz |]].
  lia.
Qed.

Lemma toFixed2_not_NaN (x : number) :
  isNaN x = false -> isNaN (toFixed2 x) = false.
Proof.
  rewrite !NumFacts.isNaN_spec, Prim2SF_toFixed2.
  pose proof (Prim2SF_valid x) as V.
  destruct (Prim2SF x) as [s | s | | s m e]; try reflexivity; try discriminate.
  intros _. change (bounded prec emax m e = true) in V.
  destruct (at_least_1e21 m e) eqn:H.
  - cbn [toFixed2_SF]. rewrite H. reflexivity.
  - destruct (toFixed2_SF_cases s m e V H)
      as [[_ ->] | (p & m' & e' & _ & -> & _)]; reflexivity.
Qed.

(** A bid above a [currentBid] that is at least the rounded amount [c]
    is stored as an amount that is at least [c]. *)
Lemma toFixed2_keeps_above (y cur amt : number) :
  (toFixed2 y <=? cur)%float = true -> (cur <? amt)%float = true ->
  (toFixed2 y <=? toFixed2 amt)%float = true.
Proof.
  intros H1 H2. pose proof (leb_ltb_trans _ _ _ H1 H2) as H3.
  apply NumFacts.not_ltb_leb.
  - apply toFixed2_not_NaN. apply (NumFacts.ltb_not_NaN _ _ H2).
  - apply (NumFacts.leb_not_NaN _ _ H1).
  - apply toFixed2_not_below. exact H3.
Qed.

End RoundFacts.

(** ** Facts about the helpers *)

Section ModifyFirst.

Variables (p : auction -> bool) (f : auction -> auction).

Lemma modify_first_none (l : list auction) :
  find p l = None -> modify_first p f l = l.
Proof.
  induction l as [| x l IH]; simpl; [reflexivity |].
  destruct (p x); [discriminate |]. intros H. now rewrite IH.
Qed.

(** Only the object that [find] returns is assigned to. *)
Lemma modify_first_found (l : list auction) (a : auction) :
  find p l = Some a ->
  Forall2 (fun x y => y = x \/ (x = a /\ y = f a)) l (modify_first p f l).
Proof.
  induction l as [| x l IH]; simpl; [discriminate |].
  destruct (p x) eqn:Hp.
  - intros [= ->]. constructor; [now right |].
    clear. induction l; constructor; auto.
  - intros H. constructor; [now left | auto].
Qed.

Lemma find_modify_first (l : list auction) (a : auction) :
  find p l = Some a -> p (f a) = true ->
  find p (modify_first p f l) = Some (f a).
Proof.
  induction l as [| x l IH]; simpl; [discriminate |].
  destruct (p x) eqn:Hp.
  - intros [= ->] H. simpl. now rewrite H.
  - intros H1 H2. simpl. rewrite Hp. auto.
Qed.

Lemma modify_first_Forall (P : auction -> Prop) (l : list auction) :
  (forall x, P x -> P (f x)) -> Forall P l -> Forall P (modify_first p f l).
Proof.
  intros Hf. induction 1 as [| x l Hx Hl IH]; simpl; [constructor |].
  destruct (p x); constructor; auto.
Qed.

Lemma modify_first_Forall2 (R : auction -> auction -> Prop)
  (l : list auction) :
  (forall x, R x x) -> (forall x, R x (f x)) ->
  Forall2 R l (modify_first p f l).
Proof.
  intros Hr Hf. induction l as [| x l IH]; simpl; [constructor |].
  destruct (p x); constructor; auto.
  clear IH. induction l; constructor; auto.
Qed.

End ModifyFirst.

Lemma Forall2_same {A} (R : A -> A -> Prop) (l : list A) :
  (forall x, R x x) -> Forall2 R l l.
Proof. intros H. induction l; constructor; auto. Qed.

Lemma Forall2_weaken {A B} (R S : A -> B -> Prop) (l : list A) (l' : list B) :
  (forall x y, R x y -> S x y) -> Forall2 R l l' -> Forall2 S l l'.
Proof. intros H. induction 1; constructor; auto. Qed.

(** The last element of a list that is not empty. *)
Lemma last_cons_default {A} (x : A) (l : list A) (d d' : A) :
  last (x :: l) d = last (x :: l) d'.
Proof.
  revert x. induction l as [| y l IH]; intros x; [reflexivity |].
  change (last (y :: l) d = last (y :: l) d'). apply IH.
Qed.

(** [currentIsLast], by case on [bids]. *)
Lemma currentIsLast_cases (a : auction) :
  currentIsLast a <->
  (bids a = [] -> currentBid a = startingBid a) /\
  (forall l b, bids a = (l ++ [b])%list -> currentBid a = amount b).
Proof.
  unfold currentIsLast. split.
  - intros H. split.
    + intros E. rewrite H, E. reflexivity.
    + intros l b E. rewrite H, E, map_app. apply last_last.
  - intros [H1 H2]. destruct (bids a) as [| x l] eqn:E.
    + now apply H1.
    + destruct (@exists_last _ (x :: l)) as (l' & b & E');
        [discriminate |].
      rewrite E' in *. rewrite (H2 l' b eq_refl), map_app.
      symmetry. apply last_last.
Qed.

(** What passing the test [inc !== incClamped] means. *)
Lemma clamp_passes (inc lo : number) (hi : option number) :
  strict_neq inc (clampBidIncrement inc lo hi) = false ->
  isNaN inc = false /\
  (inc <? lo)%float = false /\
  (forall mx, hi = Some mx -> truthy mx = true -> gtb inc mx = false).
Proof.
  unfold strict_neq. intros H. apply negb_false_iff in H.
  split; [exact (proj1 (NumFacts.eqb_not_NaN _ _ H)) |].
  revert H. unfold clampBidIncrement.
  assert (Hlo : (inc <? lo)%float = true -> (inc =? lo)%float = true -> False).
  { intros H1 H2. revert H1 H2. rewrite ltb_spec, eqb_spec.
    unfold SFltb, SFeqb.
    destruct (SFcompare (Prim2SF inc) (Prim2SF lo)) as [[]|]; discriminate. }
  destruct hi as [mx |].
  - destruct (truthy mx) eqn:Ht, (gtb inc mx) eqn:Hg; simpl.
    + intros H. exfalso. revert Hg H. unfold gtb.
      rewrite ltb_spec, eqb_spec. unfold SFltb, SFeqb.
      rewrite (NumFacts.SFcompare_swap (Prim2SF inc) (Prim2SF mx)).
      destruct (SFcompare (Prim2SF inc) (Prim2SF mx)) as [[]|]; discriminate.
    + destruct (inc <? lo)%float eqn:Hl; intros H.
      * exfalso; auto.
      * split; [reflexivity |]. now intros ? [= <-] _.
    + destruct (inc <? lo)%float eqn:Hl; intros H.
      * exfalso; auto.
      * split; [reflexivity |]. intros ? [= <-]. congruence.
    + destruct (inc <? lo)%float eqn:Hl; intros H.
      * exfalso; auto.
      * split; [reflexivity |]. now intros ? [= <-] _.
  - destruct (inc <? lo)%float eqn:Hl; intros H.
    + exfalso; auto.
    + split; [reflexivity | discriminate].
Qed.

(** The two ways the test [inc !== incClamped] fails a bid. *)
Lemma clamp_below (inc lo : number) (hi : option number) :
  (inc <? lo)%float = true ->
  strict_neq inc (clampBidIncrement inc lo hi) = true.
Proof.
  intros H. destruct (strict_neq inc (clampBidIncrement inc lo hi)) eqn:E;
    [reflexivity |].
  apply clamp_passes in E. destruct E as (_ & E & _). congruence.
Qed.

Lemma clamp_above (inc lo mx : number) :
  truthy mx = true -> gtb inc mx = true ->
  strict_neq inc (clampBidIncrement inc lo (Some mx)) = true.
Proof.
  intros Ht H.
  destruct (strict_neq inc (clampBidIncrement inc lo (Some mx))) eqn:E;
    [reflexivity |].
  apply clamp_passes in E. destruct E as (_ & _ & E).
  rewrite (E mx eq_refl Ht) in H. discriminate.
Qed.

(** The answers of the bid route, by case. *)
Lemma placeBid_cases (DATA : list auction) (s : string) (amt : number)
  (from : string) (t : ticks) :
  (exists r, placeBid DATA s amt from t = (DATA, r) /\
             forall c, r <> Accepted c) \/
  (exists a,
      find (hasSlug s) DATA = Some a /\
      hasStarted (t_started t) (startsAt a) = true /\
      hasEnded (t_ended t) (endsAt a) = false /\
      isNaN amt = false /\
      (amt <=? currentBid a)%float = false /\
      strict_neq (amt - currentBid a)%float
        (clampBidIncrement (amt - currentBid a)%float
           (minIncrement a) (maxIncrement a)) = false /\
      placeBid DATA s amt from t =
        (modify_first (hasSlug s) (recordBid amt (t_stamp t) from) DATA,
         Accepted (toFixed2 amt))).
Proof.
  unfold placeBid.
  destruct (find (hasSlug s) DATA) as [a |] eqn:Hf;
    [| left; eexists; split; [reflexivity | discriminate]].
  destruct (hasStarted (t_started t) (startsAt a)) eqn:H1; simpl;
    [| left; eexists; split; [reflexivity | discriminate]].
  destruct (hasEnded (t_ended t) (endsAt a)) eqn:H2;
    [left; eexists; split; [reflexivity | discriminate] |].
  destruct (isNaN amt) eqn:H3; simpl;
    [left; eexists; split; [reflexivity | discriminate] |].
  destruct (amt <=? currentBid a)%float eqn:H4;
    [left; eexists; split; [reflexivity | discriminate] |].
  destruct (strict_neq _ _) eqn:H5;
    [left; eexists; split; [reflexivity | discriminate] |].
  right. exists a. repeat split; auto.
Qed.

(** ** Facts about the admin routes and histories *)

Section AdminFacts.

Context {lib : StringLib}.

Lemma createAuction_cases (DATA : list auction) (b : form) (r : draws) :
  createAuction DATA b r = (DATA, Threw) \/
  exists s e sl,
    utcISOFromLocal (f_startsAtLocal b) = Some s /\
    endFrom s (f_durationMinutes b) = Some e /\
    createAuction DATA b r =
      ((DATA ++
        [mkAuction (d_id r) sl (trim (f_title b)) (trim (f_description b))
           s e
           (or_else (parseOr (f_startingBid b) 0%float) 0%float)
           (or_else (parseOr (f_minIncrement b) 1%float) 1%float)
           (if gtb (or_else (parseOr (f_maxIncrement b) 0%float) 0%float)
                 0%float
            then Some (or_else (parseOr (f_maxIncrement b) 0%float) 0%float)
            else None)
           (or_else (parseOr (f_startingBid b) 0%float) 0%float)
           []])%list,
       Redirected).
Proof.
  unfold createAuction.
  destruct (utcISOFromLocal (f_startsAtLocal b)) as [s |]; [| now left].
  destruct (endFrom s (f_durationMinutes b)) as [e |] eqn:He; [| now left].
  right. exists s, e. eexists. split; [| split]; [| exact He |]; reflexivity.
Qed.

(** The first three steps of the update handler assign the texts and
    the time window only. *)
Lemma setTitle_same (b : form) (a : auction) : sameBidding a (setTitle b a).
Proof. unfold setTitle. destruct (nonEmpty _); repeat split. Qed.

Lemma setDescription_same (b : form) (a : auction) :
  sameBidding a (setDescription b a).
Proof. unfold setDescription. destruct (nonEmpty _); repeat split. Qed.

Lemma setWindow_same (b : form) (a a' : auction) :
  setWindow b a = Some a' -> sameBidding a a'.
Proof.
  unfold setWindow.
  destruct (given _ && given _); [| intros [= <-]; repeat split].
  destruct (utcISOFromLocal _) as [s |]; [| discriminate].
  destruct (endFrom s _) as [e |]; [| discriminate].
  intros [= <-]. repeat split.
Qed.

Lemma sameBidding_trans (a b c : auction) :
  sameBidding a b -> sameBidding b c -> sameBidding a c.
Proof. unfold sameBidding. intuition congruence. Qed.

(** The update handler either stops at the time window, with the
    bidding fields as they were, or goes on to the three bidding
    fields. *)
Lemma applyPatch_split (b : form) (a : auction) :
  exists a2,
    sameBidding a a2 /\
    (applyPatch b a = (a2, false) \/
     applyPatch b a =
       (setMaxIncrement b (setMinIncrement b (setStartingBid b a2)), true)).
Proof.
  unfold applyPatch.
  pose proof (sameBidding_trans _ _ _ (setTitle_same b a)
                (setDescription_same b (setTitle b a))) as H1.
  destruct (setWindow b (setDescription b (setTitle b a))) as [a2 |] eqn:E.
  - exists a2. split; [| now right].
    eapply sameBidding_trans; [exact H1 |]. eapply setWindow_same, E.
  - eexists. split; [exact H1 | now left].
Qed.

(** The last three steps assign neither [id], [slug] nor [bids]. *)
Lemma setBidding_frame (b : form) (a : auction) :
  let a' := setMaxIncrement b (setMinIncrement b (setStartingBid b a)) in
  id a' = id a /\ slug a' = slug a /\ bids a' = bids a.
Proof.
  unfold setMaxIncrement, setMinIncrement, setStartingBid.
  destruct (f_startingBid b) as [| | sb]; [| | destruct (negb (isNaN sb))];
    (destruct (f_minIncrement b) as [| | mi];
     [| | destruct (negb (isNaN mi) && gtb mi 0%float)]);
    destruct (f_maxIncrement b); repeat split.
Qed.

Lemma applyPatch_frame (b : form) (a : auction) :
  id (fst (applyPatch b a)) = id a /\
  slug (fst (applyPatch b a)) = slug a /\
  bids (fst (applyPatch b a)) = bids a.
Proof.
  destruct (applyPatch_split b a) as (a2 & H & [E | E]); rewrite E; simpl;
    unfold sameBidding in H.
  - intuition.
  - pose proof (setBidding_frame b a2) as F. simpl in F.
    intuition congruence.
Qed.

(** What the handler does to [startingBid] and [currentBid]. *)
Lemma setBidding_bids (b : form) (a : auction) :
  let a' := setMaxIncrement b (setMinIncrement b (setStartingBid b a)) in
  match f_startingBid b with
  | Filled sb =>
      if isNaN sb
      then startingBid a' = startingBid a /\ currentBid a' = currentBid a
      else startingBid a' = sb /\
           currentBid a' = match bids a with [] => sb | _ => currentBid a end
  | _ => startingBid a' = startingBid a /\ currentBid a' = currentBid a
  end.
Proof.
  unfold setMaxIncrement, setMinIncrement, setStartingBid.
  destruct (f_startingBid b) as [| | sb]; [| | destruct (isNaN sb); simpl];
    (destruct (f_minIncrement b) as [| | mi];
     [| | destruct (negb (isNaN mi) && gtb mi 0%float)]);
    destruct (f_maxIncrement b); simpl; try (split; reflexivity);
    destruct (bids a); split; reflexivity.
Qed.

(** Once a bid exists the update handler leaves [currentBid] alone. *)
Lemma applyPatch_currentBid (b : form) (a : auction) :
  bids a <> [] -> currentBid (fst (applyPatch b a)) = currentBid a.
Proof.
  intros Hb.
  destruct (applyPatch_split b a) as (a2 & H & [E | E]); rewrite E; simpl;
    unfold sameBidding in H.
  - intuition.
  - pose proof (setBidding_bids b a2) as F. simpl in F.
    assert (Hb2 : bids a2 = bids a) by intuition.
    assert (Hc : currentBid a2 = currentBid a) by intuition.
    rewrite Hb2 in F.
    destruct (f_startingBid b) as [| | sb]; [| | destruct (isNaN sb)];
      destruct (bids a); try congruence; destruct F; congruence.
Qed.

(** While no bid exists the update handler assigns a submitted
    starting bid that is a number to [currentBid], and nothing else. *)
Lemma applyPatch_currentBid_empty (b : form) (a : auction) :
  bids a = [] ->
  currentBid (fst (applyPatch b a)) = currentBid a \/
  exists sb, f_startingBid b = Filled sb /\ isNaN sb = false /\
             currentBid (fst (applyPatch b a)) = sb.
Proof.
  intros Hb.
  destruct (applyPatch_split b a) as (a2 & H & [E | E]); rewrite E; simpl;
    unfold sameBidding in H.
  - left. intuition.
  - pose proof (setBidding_bids b a2) as F. simpl in F.
    assert (Hb2 : bids a2 = bids a) by intuition.
    assert (Hc : currentBid a2 = currentBid a) by intuition.
    rewrite Hb2, Hb in F.
    destruct (f_startingBid b) as [| | sb];
      [left; destruct F; congruence | left; destruct F; congruence |].
    destruct (isNaN sb) eqn:N; [left; destruct F; congruence |].
    right. exists sb. destruct F. auto.
Qed.

Lemma updateAuction_store (DATA : list auction) (i : string) (b : form) :
  fst (updateAuction DATA i b) =
    modify_first (hasId i) (fun x => fst (applyPatch b x)) DATA.
Proof.
  unfold updateAuction.
  destruct (find (hasId i) DATA) eqn:E; simpl; [reflexivity |].
  now rewrite modify_first_none.
Qed.

(** The object found by the update handler is found again after it. *)
Lemma updateAuction_found (DATA : list auction)
  (i : string) (b : form) (a : auction) :
  find (hasId i) DATA = Some a ->
  find (hasId i) (fst (updateAuction DATA i b)) = Some (fst (applyPatch b a))
  /\ snd (updateAuction DATA i b)
     = (if snd (applyPatch b a) then Redirected else Threw).
Proof.
  intros Hf. split.
  - rewrite updateAuction_store.
    apply (find_modify_first (hasId i) (fun x => fst (applyPatch b x)));
      [exact Hf |].
    apply find_some in Hf. unfold hasId in *.
    destruct (applyPatch_frame b a) as (-> & _). apply Hf.
  - unfold updateAuction. now rewrite Hf.
Qed.

Section Preserved.

Variable P : auction -> Prop.
Hypothesis P_create :
  forall DATA b r a,
    createAuction DATA b r = ((DATA ++ [a])%list, Redirected) -> P a.
Hypothesis P_bid :
  forall amt at_ from a, P a -> P (recordBid amt at_ from a).
Hypothesis P_patch : forall b a, P a -> P (fst (applyPatch b a)).

Lemma handle_Forall (DATA : list auction) (q : request) :
  Forall P DATA -> Forall P (handle DATA q).
Proof.
  intros H. destruct q as [b r | s amt from t | i b | i]; simpl.
  - destruct (createAuction_cases DATA b r) as [E | (s & e & sl & _ & _ & E)];
      rewrite E; simpl; [assumption |].
    apply Forall_app. split; [assumption |].
    constructor; [| constructor]. eapply P_create. exact E.
  - destruct (placeBid_cases DATA s amt from t)
      as [(r & E & _) | (a & _ & _ & _ & _ & _ & _ & E)];
      rewrite E; simpl; [assumption |].
    apply modify_first_Forall; auto.
  - rewrite updateAuction_store. apply modify_first_Forall; auto.
  - rewrite Forall_forall in *. intros x Hx.
    apply filter_In in Hx. apply H, Hx.
Qed.

End Preserved.

(** What every handler preserves holds after every history. *)
Lemma run_preserved (P : auction -> Prop) :
  (forall DATA q, Forall P DATA -> Forall P (handle DATA q)) ->
  forall qs, Forall P (run qs).
Proof.
  intros Hstep qs. unfold run.
  assert (H : Forall P initialData) by constructor.
  revert H. generalize initialData as DATA.
  induction qs as [| q qs IH]; simpl; intros DATA H; [assumption |].
  apply IH, Hstep, H.
Qed.

Lemma handle_currentIsLast (D : list auction) (q : request) :
  Forall currentIsLast D -> Forall currentIsLast (handle D q).
Proof.
  apply handle_Forall; unfold currentIsLast.
  - intros DATA b r a E.
    destruct (createAuction_cases DATA b r) as [E' | (s & e & sl & _ & _ & E')];
      rewrite E' in E.
    + injection E as E _. apply (f_equal (@List.length _)) in E.
      rewrite length_app in E. simpl in E. lia.
    + injection E as E. apply app_inv_head in E. injection E as <-.
      reflexivity.
  - intros amt at_ from a _. unfold recordBid.
    cbn [currentBid bids startingBid]. rewrite map_app.
    symmetry. apply last_last.
  - intros b a H.
    destruct (applyPatch_split b a) as (a2 & S & [E | E]); rewrite E; simpl;
      unfold sameBidding in S.
    + destruct S as (_ & _ & -> & _ & _ & -> & ->). exact H.
    + pose proof (setBidding_bids b a2) as F.
      pose proof (setBidding_frame b a2) as (_ & _ & G).
      simpl in F, G. rewrite G.
      destruct S as (_ & _ & S1 & _ & _ & S2 & S3).
      rewrite <- S1, <- S2, <- S3 in H.
      destruct (f_startingBid b) as [| | sb]; [| | destruct (isNaN sb)];
        try (destruct F as [-> ->]; exact H).
      destruct F as [-> ->].
      destruct (bids a2) as [| x l] eqn:B; [reflexivity |].
      rewrite H. apply last_cons_default.
Qed.

Lemma run_currentIsLast (qs : list request) : Forall currentIsLast (run qs).
Proof. apply run_preserved. exact handle_currentIsLast. Qed.

End AdminFacts.

(** ** The stored increments of a history *)

Section Bounds.

Context {lib : StringLib}.

(** The cap the create handler stores for a submitted value. *)
Lemma created_cap (DATA : list auction) (b : form) (r : draws) (a : auction) :
  createAuction DATA b r = ((DATA ++ [a])%list, Redirected) ->
  maxIncrement a =
    (if gtb (or_else (parseOr (f_maxIncrement b) 0%float) 0%float) 0%float
     then Some (or_else (parseOr (f_maxIncrement b) 0%float) 0%float)
     else None) /\
  minIncrement a = or_else (parseOr (f_minIncrement b) 1%float) 1%float /\
  startingBid a = or_else (parseOr (f_startingBid b) 0%float) 0%float /\
  currentBid a = startingBid a /\ bids a = [].
Proof.
  intros E.
  destruct (createAuction_cases DATA b r) as [E' | (s & e & sl & _ & _ & E')];
    rewrite E' in E.
  - injection E as E _. apply (f_equal (@List.length _)) in E.
    rewrite length_app in E. simpl in E. lia.
  - injection E as E. apply app_inv_head in E. injection E as <-.
    repeat split.
Qed.

(** The cap the update handler stores for a submitted value. *)
Lemma patched_cap (b : form) (a : auction) :
  maxIncrement (setMaxIncrement b a) =
    match f_maxIncrement b with
    | Missing => maxIncrement a
    | x => if negb (isNaN (parseFloat x)) && gtb (parseFloat x) 0%float
           then Some (parseFloat x) else None
    end.
Proof. unfold setMaxIncrement. destruct (f_maxIncrement b); reflexivity. Qed.

Lemma setBidding_bounds (b : form) (a : auction) :
  let a' := setMaxIncrement b (setMinIncrement b (setStartingBid b a)) in
  (capPositive a -> capPositive a') /\ (minIsNumber a -> minIsNumber a').
Proof.
  unfold capPositive, minIsNumber. split.
  - intros H mx. rewrite patched_cap.
    destruct (f_maxIncrement b) as [| | v].
    + unfold setMinIncrement, setStartingBid.
      destruct (f_startingBid b) as [| | sb];
        [| | destruct (negb (isNaN sb))];
        (destruct (f_minIncrement b) as [| | mi];
         [| | destruct (negb (isNaN mi) && gtb mi 0%float)]);
        apply H.
    + simpl. discriminate.
    + simpl. destruct (negb (isNaN v) && gtb v 0%float) eqn:E;
        [| discriminate].
      intros [= <-]. apply andb_true_iff in E. apply E.
  - intros H.
    assert (G : forall x, minIncrement (setMaxIncrement b x) = minIncrement x).
    { intros x. unfold setMaxIncrement. destruct (f_maxIncrement b);
        reflexivity. }
    rewrite G. unfold setMinIncrement.
    assert (G' : minIncrement (setStartingBid b a) = minIncrement a).
    { unfold setStartingBid.
      destruct (f_startingBid b) as [| | sb];
        [| | destruct (negb (isNaN sb))]; reflexivity. }
    destruct (f_minIncrement b) as [| | mi]; try (rewrite G'; exact H).
    destruct (negb (isNaN mi) && gtb mi 0%float) eqn:E;
      [| rewrite G'; exact H].
    simpl. apply andb_true_iff, proj1, negb_true_iff in E. exact E.
Qed.

Lemma handle_capPositive (D : list auction) (q : request) :
  Forall capPositive D -> Forall capPositive (handle D q).
Proof.
  apply handle_Forall.
  - intros DATA b r a E mx. destruct (created_cap _ _ _ _ E) as (-> & _).
    destruct (gtb _ 0%float) eqn:G; [| discriminate].
    now intros [= <-].
  - intros amt at_ from a H. exact H.
  - intros b a H.
    destruct (applyPatch_split b a) as (a2 & S & [E | E]); rewrite E; simpl;
      unfold sameBidding in S;
      assert (H2 : capPositive a2)
        by (unfold capPositive in *;
            destruct S as (_ & _ & _ & _ & -> & _); exact H).
    + exact H2.
    + apply (setBidding_bounds b a2), H2.
Qed.

Lemma run_capPositive (qs : list request) : Forall capPositive (run qs).
Proof. apply run_preserved. exact handle_capPositive. Qed.

Lemma handle_minIsNumber (D : list auction) (q : request) :
  Forall minIsNumber D -> Forall minIsNumber (handle D q).
Proof.
  apply handle_Forall.
  - intros DATA b r a E. unfold minIsNumber.
    destruct (created_cap _ _ _ _ E) as (_ & -> & _).
    apply NumFacts.truthy_not_NaN. unfold or_else.
    destruct (truthy (parseOr (f_minIncrement b) 1%float)) eqn:T;
      [exact T | reflexivity].
  - intros amt at_ from a H. exact H.
  - intros b a H.
    destruct (applyPatch_split b a) as (a2 & S & [E | E]); rewrite E; simpl;
      unfold sameBidding in S;
      assert (H2 : minIsNumber a2)
        by (unfold minIsNumber in *;
            destruct S as (_ & _ & _ & -> & _); exact H).
    + exact H2.
    + apply (setBidding_bounds b a2), H2.
Qed.

Lemma run_minIsNumber (qs : list request) : Forall minIsNumber (run qs).
Proof. apply run_preserved. exact handle_minIsNumber. Qed.

End Bounds.

(** ** The claims *)

(** Counterexample to C1 as stated, in two ways.  The recorded amount
    is the proposal rounded to two decimals: with a starting bid of 50
    and a minimal increment of 0.25390625, the bid 50.25390625 is
    accepted and recorded as 50.25, a step of 0.25.  And the admin may
    assign the starting bid once bids exist: after a bid of 60 on a
    starting bid of 50, a patch sets the starting bid to 100, a step of
    -40. *)
Lemma recorded_increments_out_of_bounds :
  (exists a b,
     run (lib := Scenario.plain)
       [CreateAuction Scenario.lampFine Scenario.someDraws;
        PlaceBid "lamp" 50.25390625%float "203.0.113.7" (at_time 2000)]
       = [a] /\
     bids a = [b] /\ amount b = 50.25%float /\
     startingBid a = 50%float /\ minIncrement a = 0.25390625%float /\
     incrementsBounded a = false) /\
  (exists a b,
     run (lib := Scenario.plain)
       [CreateAuction Scenario.lamp Scenario.someDraws;
        PlaceBid "lamp" 60%float "203.0.113.7" (at_time 2000);
        UpdateAuction Scenario.lampId (Scenario.newStartingBid 100%float)]
       = [a] /\
     bids a = [b] /\ amount b = 60%float /\
     startingBid a = 100%float /\ minIncrement a = 1%float /\
     incrementsBounded a = false).
Proof. split; do 2 eexists; repeat split. Qed.

(** C1, amended: in every history, when a bid is accepted, the increment
    the bidder proposed (the proposed amount minus [currentBid] at that
    time) is at least the auction's [minIncrement] and, when a cap is
    stored, at most [maxIncrement], as they are at that time; the amount
    recorded at the end of [bids] and in [currentBid] is the proposal
    rounded to two decimals. *)
Theorem accepted_increment_within_bounds {lib : StringLib}
  (qs : list request) (s : string) (amt : number) (from : string)
  (t : ticks) (DATA' : list auction) (c : number) :
  placeBid (run qs) s amt from t = (DATA', Accepted c) ->
  exists a a',
    find (hasSlug s) (run qs) = Some a /\
    find (hasSlug s) DATA' = Some a' /\
    (minIncrement a <=? amt - currentBid a)%float = true /\
    (forall mx, maxIncrement a = Some mx ->
                (amt - currentBid a <=? mx)%float = true) /\
    c = toFixed2 amt /\
    currentBid a' = c /\
    bids a' = (bids a ++ [mkBid c (t_stamp t) from])%list.
Proof.
  intros H.
  destruct (placeBid_cases (run qs) s amt from t)
    as [(r & E & Hr) | (a & Hf & _ & _ & _ & _ & Hc & E)]; rewrite E in H.
  - injection H as _ ->. now destruct (Hr c).
  - injection H as <- <-.
    exists a, (recordBid amt (t_stamp t) from a).
    pose proof (find_some _ _ Hf) as [Hin Hs].
    pose proof (run_minIsNumber qs) as Hmin.
    pose proof (run_capPositive qs) as Hcap.
    rewrite Forall_forall in Hmin, Hcap.
    specialize (Hmin a Hin). specialize (Hcap a Hin).
    destruct (clamp_passes _ _ _ Hc) as (Hn & Hlo & Hhi).
    split; [exact Hf |].
    split; [apply find_modify_first; [exact Hf | exact Hs] |].
    split; [apply NumFacts.not_ltb_leb; assumption |].
    split; [| repeat split].
    intros mx Hmx. specialize (Hcap mx Hmx).
    apply NumFacts.not_ltb_leb.
    + apply (NumFacts.ltb_not_NaN _ _ Hcap).
    + exact Hn.
    + apply (Hhi mx Hmx). apply NumFacts.positive_truthy, Hcap.
Qed.

(** Witness of C1, on the scenario: the bid of 60 on a current bid of
    50. *)
Lemma accepted_increment_within_bounds_witness :
  exists a a',
    find (hasSlug "lamp") Scenario.opened = Some a /\
    find (hasSlug "lamp") Scenario.afterBid60 = Some a' /\
    (minIncrement a <=? 60 - currentBid a)%float = true /\
    (forall mx, maxIncrement a = Some mx ->
                (60 - currentBid a <=? mx)%float = true) /\
    60%float = toFixed2 60%float /\
    currentBid a' = 60%float /\
    bids a' = (bids a ++ [mkBid 60%float 2000 "203.0.113.7"])%list.
Proof.
  exact (accepted_increment_within_bounds (lib := Scenario.plain)
           [CreateAuction Scenario.lamp Scenario.someDraws]
           "lamp" 60%float "203.0.113.7" (at_time 2000)
           Scenario.afterBid60 60%float eq_refl).
Defined.

(** Counterexample to C2 as stated: a creation request with a duration
    of minus sixty minutes is not rejected; the auction is appended to
    the list with its end before its start. *)
Lemma create_accepts_end_before_start :
  exists a,
    createAuction (lib := Scenario.plain) [] Scenario.lampBackwards
      Scenario.someDraws = ([a], Redirected) /\
    startsAt a = 1000 /\ endsAt a = -3599000.
Proof. eexists. repeat split. Qed.

(** C2, amended: the create handler validates neither the time window
    nor [minIncrement].  It refuses a request only when the start or the
    end is not a valid date, and then leaves the list as it was;
    otherwise it appends the new auction, which starts at the submitted
    start.  A duration that is missing, not a number or zero is replaced
    by sixty minutes, any other is taken as it is; a [minIncrement] that
    is missing, not a number or zero is replaced by 1, any other is
    taken as it is.  So for a duration that is not negative the end is
    after the start, and for a [minIncrement] that is not negative the
    stored one is above zero. *)
Theorem createAuction_defaults {lib : StringLib}
  (DATA : list auction) (b : form) (r : draws) :
  ((utcISOFromLocal (f_startsAtLocal b) = None \/
    exists s, utcISOFromLocal (f_startsAtLocal b) = Some s /\
              endFrom s (f_durationMinutes b) = None) /\
   createAuction DATA b r = (DATA, Threw)) \/
  (exists a,
     createAuction DATA b r = ((DATA ++ [a])%list, Redirected) /\
     currentBid a = startingBid a /\ bids a = [] /\
     utcISOFromLocal (f_startsAtLocal b) = Some (startsAt a) /\
     ((forall n, f_durationMinutes b = Filled (Some n) -> n = 0) ->
      endsAt a = startsAt a + 60 * 60000) /\
     (forall n, f_durationMinutes b = Filled (Some n) -> n <> 0 ->
      endsAt a = startsAt a + n * 60000) /\
     ((forall n, f_durationMinutes b = Filled (Some n) -> 0 <= n) ->
      startsAt a < endsAt a) /\
     ((forall v, f_minIncrement b = Filled v ->
                 isNaN v = true \/ (v =? 0)%float = true) ->
      minIncrement a = 1%float) /\
     (forall v, f_minIncrement b = Filled v ->
                isNaN v = false -> (v =? 0)%float = false ->
      minIncrement a = v) /\
     ((forall v, f_minIncrement b = Filled v -> (v <? 0)%float = false) ->
      gtb (minIncrement a) 0%float = true)).
Proof.
  unfold createAuction.
  destruct (utcISOFromLocal (f_startsAtLocal b)) as [s |] eqn:Hs;
    [| left; auto].
  destruct (endFrom s (f_durationMinutes b)) as [e |] eqn:He;
    [| left; split; [right; exists s |]; auto].
  right. eexists. split; [reflexivity |]. cbn [currentBid startingBid bids
    startsAt endsAt minIncrement].
  unfold endFrom in He. destruct (validTime _); [| discriminate].
  injection He as <-.
  split; [reflexivity | split; [reflexivity | split; [reflexivity |]]].
  split; [| split; [| split; [| split; [| split]]]].
  - intros Hd. unfold minutesOr60.
    destruct (f_durationMinutes b) as [| | [n |]]; try reflexivity.
    now rewrite (Hd n eq_refl).
  - intros n Hn Hz. rewrite Hn. simpl.
    destruct (Z.eqb_spec n 0); [contradiction | reflexivity].
  - intros Hd.
    assert (0 < minutesOr60 (f_durationMinutes b)); [| lia].
    unfold minutesOr60.
    destruct (f_durationMinutes b) as [| | [n |]]; try lia.
    specialize (Hd n eq_refl). destruct (Z.eqb_spec n 0); lia.
  - intros Hv. unfold or_else.
    destruct (f_minIncrement b) as [| | v]; simpl; try reflexivity.
    unfold truthy.
    destruct (Hv v eq_refl) as [N | Z0].
    + unfold isNaN in N. now rewrite N, orb_true_r.
    + now rewrite Z0.
  - intros v Hv Hn Hz. rewrite Hv. simpl. unfold or_else, truthy.
    unfold isNaN in Hn. now rewrite Hn, Hz.
  - intros Hv. unfold or_else.
    destruct (f_minIncrement b) as [| | v]; simpl; try reflexivity.
    destruct (truthy v) eqn:T; [| reflexivity].
    apply NumFacts.truthy_not_negative; auto.
Qed.

(** Counterexample to C3 as stated: the auction created with a duration
    of minus sixty minutes starts at 1000 and ends at -3599000; a bid
    at time 0, after its end, is answered 'Auction has not started
    yet.', not 'Auction has ended.'. *)
Lemma ended_answered_not_started :
  exists a,
    run (lib := Scenario.plain)
      [CreateAuction Scenario.lampBackwards Scenario.someDraws] = [a] /\
    (endsAt a <=? 0) = true /\
    placeBid [a] "lamp" 60%float "203.0.113.7" (at_time 0)
      = ([a], NotStarted).
Proof. eexists. repeat split. Qed.

(** C3, amended: a bid that arrives before the auction has started is
    answered 'Auction has not started yet.'; a bid that arrives once it
    has started and ended is answered 'Auction has ended.'; in both
    cases the store (with the auction's [currentBid] and [bids]) is
    unchanged, so at an instant [now] with [now < startsAt] or
    [now >= endsAt] no bid is accepted.  The test of the start comes
    first: after the end the answer is 'Auction has ended.' whenever the
    window is not inverted. *)
Theorem placeBid_outside_window (DATA : list auction) (s : string)
  (amt : number) (from : string) (a : auction) :
  find (hasSlug s) DATA = Some a ->
  (forall t, t_started t < startsAt a ->
     placeBid DATA s amt from t = (DATA, NotStarted)) /\
  (forall t, startsAt a <= t_started t -> endsAt a <= t_ended t ->
     placeBid DATA s amt from t = (DATA, Ended)) /\
  (forall now, now < startsAt a \/ endsAt a <= now ->
     fst (placeBid DATA s amt from (at_time now)) = DATA /\
     (snd (placeBid DATA s amt from (at_time now)) = NotStarted \/
      snd (placeBid DATA s amt from (at_time now)) = Ended)) /\
  (startsAt a <= endsAt a ->
   forall now, endsAt a <= now ->
     placeBid DATA s amt from (at_time now) = (DATA, Ended)).
Proof.
  intros Hf.
  assert (H1 : forall t, t_started t < startsAt a ->
                 placeBid DATA s amt from t = (DATA, NotStarted)).
  { intros t H. unfold placeBid, hasStarted. rewrite Hf.
    destruct (Z.leb_spec (startsAt a) (t_started t)); [lia | reflexivity]. }
  assert (H2 : forall t, startsAt a <= t_started t -> endsAt a <= t_ended t ->
                 placeBid DATA s amt from t = (DATA, Ended)).
  { intros t Hs He. unfold placeBid, hasStarted, hasEnded. rewrite Hf.
    destruct (Z.leb_spec (startsAt a) (t_started t)); [| lia].
    destruct (Z.leb_spec (endsAt a) (t_ended t)); [reflexivity | lia]. }
  split; [exact H1 | split; [exact H2 | split]].
  - intros now H.
    destruct (Z.lt_ge_cases now (startsAt a)) as [Hs | Hs].
    + rewrite (H1 (at_time now) Hs). simpl. auto.
    + destruct H as [H | H]; [lia |].
      rewrite (H2 (at_time now) Hs H). simpl. auto.
  - intros Hw now He. apply H2; simpl; lia.
Qed.

(** Witness of C3, on the auction of the scenario: a bid at time 999
    and a bid at the end, 3601000. *)
Lemma placeBid_outside_window_witness :
  placeBid Scenario.opened "lamp" 60%float "203.0.113.7" (at_time 999)
    = (Scenario.opened, NotStarted) /\
  placeBid Scenario.opened "lamp" 60%float "203.0.113.7" (at_time 3601000)
    = (Scenario.opened, Ended).
Proof.
  destruct (placeBid_outside_window Scenario.opened "lamp" 60%float
              "203.0.113.7" Scenario.lampAuction
              eq_refl) as (H1 & H2 & _).
  split.
  - apply H1. vm_compute. reflexivity.
  - apply H2; vm_compute; discriminate.
Defined.

(** Counterexample to C4 as stated: with one bid recorded, a patch with
    a starting bid of 100 changes the [startingBid] field from 50 to
    100. *)
Lemma update_assigns_startingBid_after_a_bid :
  exists a a' b,
    Scenario.afterBid60 = [a] /\
    fst (updateAuction (lib := Scenario.plain) Scenario.afterBid60
           Scenario.lampId (Scenario.newStartingBid 100%float)) = [a'] /\
    bids a = [b] /\ bids a' = [b] /\
    startingBid a = 50%float /\ startingBid a' = 100%float.
Proof. do 3 eexists. repeat split. Qed.

(** C4, amended: the update handler assigns a submitted starting bid
    that is a number to the [startingBid] field whether or not bids are
    recorded; it assigns it to [currentBid] only while [bids] is empty.
    Once a bid exists, no patch changes [currentBid], and no patch ever
    changes [bids]. *)
Theorem updateAuction_startingBid {lib : StringLib}
  (DATA : list auction) (i : string) (b : form) (a : auction) :
  find (hasId i) DATA = Some a ->
  exists a',
    find (hasId i) (fst (updateAuction DATA i b)) = Some a' /\
    bids a' = bids a /\
    (bids a <> [] -> currentBid a' = currentBid a) /\
    (forall sb,
        snd (updateAuction DATA i b) = Redirected ->
        f_startingBid b = Filled sb -> isNaN sb = false ->
        startingBid a' = sb /\ (bids a = [] -> currentBid a' = sb)).
Proof.
  intros Hf. exists (fst (applyPatch b a)).
  destruct (applyPatch_frame b a) as (Hid & _ & Hb).
  split; [| split; [exact Hb | split; [apply applyPatch_currentBid |]]].
  - rewrite updateAuction_store.
    apply (find_modify_first (hasId i) (fun x => fst (applyPatch b x)));
      [exact Hf |].
    apply find_some in Hf. unfold hasId in *. rewrite Hid. apply Hf.
  - intros sb Hr Hs Hn. unfold updateAuction in Hr. rewrite Hf in Hr.
    simpl in Hr.
    destruct (applyPatch_split b a) as (a2 & S & [E | E]); rewrite E in *;
      simpl in *; [discriminate |].
    pose proof (setBidding_bids b a2) as F. simpl in F.
    rewrite Hs, Hn in F. destruct F as [F1 F2]. split; [exact F1 |].
    intros Hb0. rewrite F2.
    unfold sameBidding in S. destruct S as (_ & _ & _ & _ & _ & _ & S).
    rewrite S, Hb0. reflexivity.
Qed.

(** Witness of C4, on the scenario: a patch with a starting bid of 100,
    before and after the bid of 60. *)
Lemma updateAuction_startingBid_witness :
  (exists a',
     find (hasId Scenario.lampId)
       (fst (updateAuction (lib := Scenario.plain) Scenario.opened
               Scenario.lampId (Scenario.newStartingBid 100%float)))
       = Some a' /\
     startingBid a' = 100%float /\ currentBid a' = 100%float) /\
  (exists a',
     find (hasId Scenario.lampId)
       (fst (updateAuction (lib := Scenario.plain) Scenario.afterBid60
               Scenario.lampId (Scenario.newStartingBid 100%float)))
       = Some a' /\
     startingBid a' = 100%float /\ currentBid a' = 60%float).
Proof.
  split.
  - destruct (updateAuction_startingBid (lib := Scenario.plain)
                Scenario.opened Scenario.lampId
                (Scenario.newStartingBid 100%float) Scenario.lampAuction
                eq_refl) as (a' & H1 & _ & _ & H2).
    exists a'. split; [exact H1 |].
    destruct (H2 100%float eq_refl eq_refl eq_refl) as [H3 H4].
    split; [exact H3 | exact (H4 eq_refl)].
  - destruct (updateAuction_startingBid (lib := Scenario.plain)
                Scenario.afterBid60 Scenario.lampId
                (Scenario.newStartingBid 100%float)
                (recordBid 60%float 2000 "203.0.113.7" Scenario.lampAuction)
                eq_refl) as (a' & H1 & _ & H2 & H3).
    exists a'. split; [exact H1 |].
    destruct (H3 100%float eq_refl eq_refl eq_refl) as [H4 _].
    split; [exact H4 |]. rewrite H2; [reflexivity | discriminate].
Defined.

(** Counterexample to C5 as stated: after a bid of 60 the admin sets the
    starting bid to 60; [currentBid] then equals [startingBid] although
    a bid is recorded. *)
Lemma currentBid_equals_startingBid_with_a_bid :
  exists a b,
    run (lib := Scenario.plain)
      [CreateAuction Scenario.lamp Scenario.someDraws;
       PlaceBid "lamp" 60%float "203.0.113.7" (at_time 2000);
       UpdateAuction Scenario.lampId (Scenario.newStartingBid 60%float)]
      = [a] /\
    bids a = [b] /\ amount b = 60%float /\
    startingBid a = 60%float /\ currentBid a = startingBid a.
Proof. do 2 eexists. repeat split. Qed.

(** C5, amended: every handler preserves, and so every history
    establishes, that for every auction [currentBid] is [startingBid]
    when no bid is recorded and the amount of the last recorded bid
    otherwise. *)
Theorem currentBid_is_last_amount {lib : StringLib} :
  let holds a :=
    (bids a = [] -> currentBid a = startingBid a) /\
    (forall l b, bids a = (l ++ [b])%list -> currentBid a = amount b) in
  (forall DATA q, Forall holds DATA -> Forall holds (handle DATA q)) /\
  (forall qs, Forall holds (run qs)).
Proof.
  intros holds.
  assert (E : forall l, Forall holds l <-> Forall currentIsLast l).
  { intros l. rewrite !Forall_forall. split; intros H a Ha;
      apply currentIsLast_cases, H, Ha. }
  split.
  - intros DATA q H. apply E, handle_currentIsLast, E, H.
  - intros qs. apply E, run_currentIsLast.
Qed.

(** Counterexample to C6 as stated, in the reasons.  The handler has one
    answer for an increment outside the bounds, whichever bound it is:
    on a current bid of 60 with increments between 1 and 100, the bid
    60.5 (an increment below 1) and the bid 200 (an increment above 100)
    are both answered 'Bid increment must be between 1 and 100.'.  And
    the test of the amount comes first: the bid 60, an increment of 0,
    is answered 'Bid must be greater than current bid.'. *)
Lemma increment_refusals_share_one_answer :
  (60.5 - 60 <? 1)%float = true /\
  (100 <? 200 - 60)%float = true /\
  (60 - 60 <? 1)%float = true /\
  placeBid Scenario.afterBid60 "lamp" 60.5%float "203.0.113.7" (at_time 2000)
    = (Scenario.afterBid60, IncrementOutOfBounds 1%float (Some 100%float)) /\
  placeBid Scenario.afterBid60 "lamp" 200%float "203.0.113.7" (at_time 2000)
    = (Scenario.afterBid60, IncrementOutOfBounds 1%float (Some 100%float)) /\
  placeBid Scenario.afterBid60 "lamp" 60%float "203.0.113.7" (at_time 2000)
    = (Scenario.afterBid60, TooLow).
Proof. repeat split. Qed.

(** C6, amended: in every history, for a bid on an active auction whose
    amount is a number above [currentBid]: if the proposed increment is
    below [minIncrement], or a cap is stored and the increment is above
    it, the bid is refused with the one answer the handler has for an
    increment outside the bounds, and the store is unchanged; if the
    increment is within the bounds, the bid is accepted; and whenever a
    bid is accepted the new [currentBid] is the proposed amount rounded
    to two decimals, never a clamped value. *)
Theorem placeBid_increment_rules {lib : StringLib}
  (qs : list request) (s : string) (amt : number) (from : string)
  (t : ticks) (a : auction) :
  find (hasSlug s) (run qs) = Some a ->
  hasStarted (t_started t) (startsAt a) = true ->
  hasEnded (t_ended t) (endsAt a) = false ->
  isNaN amt = false ->
  (amt <=? currentBid a)%float = false ->
  let inc := (amt - currentBid a)%float in
  let refused :=
    (run qs, IncrementOutOfBounds (minIncrement a) (maxIncrement a)) in
  ((inc <? minIncrement a)%float = true ->
   placeBid (run qs) s amt from t = refused) /\
  (forall mx, maxIncrement a = Some mx -> (mx <? inc)%float = true ->
   placeBid (run qs) s amt from t = refused) /\
  ((minIncrement a <=? inc)%float = true ->
   (forall mx, maxIncrement a = Some mx -> (inc <=? mx)%float = true) ->
   exists DATA', placeBid (run qs) s amt from t
                 = (DATA', Accepted (toFixed2 amt))) /\
  (forall DATA' c,
      placeBid (run qs) s amt from t = (DATA', Accepted c) ->
      c = toFixed2 amt /\
      exists a', find (hasSlug s) DATA' = Some a' /\
                 currentBid a' = toFixed2 amt).
Proof.
  intros Hf H1 H2 H3 H4 inc refused. subst refused.
  assert (E : placeBid (run qs) s amt from t =
              if strict_neq inc
                   (clampBidIncrement inc (minIncrement a) (maxIncrement a))
              then (run qs,
                    IncrementOutOfBounds (minIncrement a) (maxIncrement a))
              else (modify_first (hasSlug s)
                      (recordBid amt (t_stamp t) from) (run qs),
                    Accepted (toFixed2 amt))).
  { unfold placeBid. rewrite Hf, H1, H2, H3, H4. reflexivity. }
  rewrite E. clear E.
  pose proof (find_some _ _ Hf) as [Hin Hs].
  pose proof (run_capPositive qs) as Hcap.
  rewrite Forall_forall in Hcap. specialize (Hcap a Hin).
  split; [| split; [| split]].
  - intros H. now rewrite clamp_below.
  - intros mx Hmx H. rewrite Hmx, clamp_above; [reflexivity | | exact H].
    apply NumFacts.positive_truthy, Hcap, Hmx.
  - intros Hlo Hhi.
    assert (Hn : isNaN inc = false) by apply (NumFacts.leb_not_NaN _ _ Hlo).
    assert (Hl : (inc <? minIncrement a)%float = false).
    { destruct (inc <? minIncrement a)%float eqn:L; [| reflexivity].
      apply NumFacts.ltb_leb_false in L. congruence. }
    assert (Hc : clampBidIncrement inc (minIncrement a) (maxIncrement a) = inc).
    { unfold clampBidIncrement.
      destruct (maxIncrement a) as [mx |]; [| now rewrite Hl].
      assert (G : gtb inc mx = false).
      { unfold gtb. destruct (mx <? inc)%float eqn:L; [| reflexivity].
        apply NumFacts.ltb_leb_false in L. rewrite (Hhi mx eq_refl) in L.
        discriminate. }
      now rewrite G, andb_false_r, Hl. }
    rewrite Hc. unfold strict_neq. rewrite (NumFacts.eqb_self _ Hn). simpl.
    eexists. reflexivity.
  - intros DATA' c.
    destruct (strict_neq inc _); [discriminate |].
    intros [= <- <-]. split; [reflexivity |].
    exists (recordBid amt (t_stamp t) from a).
    split; [apply find_modify_first; [exact Hf | exact Hs] | reflexivity].
Qed.

(** Witness of C6, on the scenario after the bid of 60: the bids 60.5
    and 200 are refused and the bid 160 is accepted as 160. *)
Lemma placeBid_increment_rules_witness :
  placeBid Scenario.afterBid60 "lamp" 60.5%float "203.0.113.7" (at_time 2000)
    = (Scenario.afterBid60, IncrementOutOfBounds 1%float (Some 100%float)) /\
  placeBid Scenario.afterBid60 "lamp" 200%float "203.0.113.7" (at_time 2000)
    = (Scenario.afterBid60, IncrementOutOfBounds 1%float (Some 100%float)) /\
  exists DATA',
    placeBid Scenario.afterBid60 "lamp" 160%float "203.0.113.7" (at_time 2000)
      = (DATA', Accepted 160%float).
Proof.
  pose (a := recordBid 60%float 2000 "203.0.113.7" Scenario.lampAuction).
  pose (qs := [CreateAuction Scenario.lamp Scenario.someDraws;
               PlaceBid "lamp" 60%float "203.0.113.7" (at_time 2000)]).
  split; [| split].
  - apply (placeBid_increment_rules (lib := Scenario.plain) qs "lamp"
             60.5%float "203.0.113.7" (at_time 2000) a
             eq_refl eq_refl eq_refl eq_refl eq_refl).
    reflexivity.
  - apply (placeBid_increment_rules (lib := Scenario.plain) qs "lamp"
             200%float "203.0.113.7" (at_time 2000) a
             eq_refl eq_refl eq_refl eq_refl eq_refl)
      with (mx := 100%float); reflexivity.
  - apply (placeBid_increment_rules (lib := Scenario.plain) qs "lamp"
             160%float "203.0.113.7" (at_time 2000) a
             eq_refl eq_refl eq_refl eq_refl eq_refl).
    + reflexivity.
    + intros mx [= <-]. reflexivity.
Defined.

(** C7: the handler tests the amount with [isNaN] only.  An amount that
    is [NaN] or not above [currentBid] (as minus infinity is) is answered
    'Bid must be greater than current bid.' and the store is unchanged;
    but plus infinity passes the test: on the auction of the scenario it
    is answered with the increment bounds when a cap is stored, and it is
    accepted, with [currentBid] set to infinity, when none is. *)
Theorem infinite_bid_not_too_low :
  (forall DATA s amt from t a,
      find (hasSlug s) DATA = Some a ->
      hasStarted (t_started t) (startsAt a) = true ->
      hasEnded (t_ended t) (endsAt a) = false ->
      isNaN amt = true \/ (amt <=? currentBid a)%float = true ->
      placeBid DATA s amt from t = (DATA, TooLow)) /\
  placeBid Scenario.opened "lamp" infinity "203.0.113.7" (at_time 2000)
    = (Scenario.opened, IncrementOutOfBounds 1%float (Some 100%float)) /\
  placeBid Scenario.openedNoCap "lamp" infinity "203.0.113.7" (at_time 2000)
    = ([mkAuction Scenario.lampId "lamp" "lamp" "" 1000 3601000
          50%float 1%float None infinity
          [mkBid infinity 2000 "203.0.113.7"]],
       Accepted infinity).
Proof.
  split; [| split; reflexivity].
  intros DATA s amt from t a Hf H1 H2 H. unfold placeBid.
  rewrite Hf, H1, H2. simpl.
  destruct H as [-> | ->]; [reflexivity | now rewrite orb_true_r].
Qed.

(** C8: the create handler appends a suffix to a slug that is taken and
    does not look the result up again.  With the slugs [foo] and
    [foo-ab12] taken, a third auction created with the slug [foo], when
    [generateId()] returns an id that begins with [ab12], is stored under
    [foo-ab12] as well; [find] then returns the older of the two. *)
Theorem suffixed_slug_not_checked :
  map slug
    (run (lib := Scenario.plain)
       [CreateAuction Scenario.foo Scenario.someDraws;
        CreateAuction Scenario.fooAb12 Scenario.otherDraws;
        CreateAuction Scenario.foo Scenario.thirdDraws])
    = ["foo"; "foo-ab12"; "foo-ab12"] /\
  map id
    (run (lib := Scenario.plain)
       [CreateAuction Scenario.foo Scenario.someDraws;
        CreateAuction Scenario.fooAb12 Scenario.otherDraws;
        CreateAuction Scenario.foo Scenario.thirdDraws])
    = ["8899aabbccddeeff"; "0123456789abcdef"; "fedcba9876543210"] /\
  option_map id
    (find (hasSlug "foo-ab12")
       (run (lib := Scenario.plain)
          [CreateAuction Scenario.foo Scenario.someDraws;
           CreateAuction Scenario.fooAb12 Scenario.otherDraws;
           CreateAuction Scenario.foo Scenario.thirdDraws]))
    = Some "0123456789abcdef".
Proof. repeat split. Qed.

(** Counterexample to C9 as stated, for each of the two handlers.
    While no bid is recorded, a patch with a starting bid of 10 lowers
    [currentBid] from 50 to 10.  And on a starting bid of 50.25390625
    with a minimal increment of 1/4096, the bid 50.254150390625 is
    accepted and stored rounded, as 50.25, below the [currentBid] it
    replaces. *)
Lemma currentBid_lowered :
  (exists a a',
     Scenario.opened = [a] /\
     fst (updateAuction (lib := Scenario.plain) Scenario.opened
            Scenario.lampId (Scenario.newStartingBid 10%float)) = [a'] /\
     currentBid a = 50%float /\ currentBid a' = 10%float /\
     (currentBid a' <? currentBid a)%float = true) /\
  (exists a a',
     run (lib := Scenario.plain)
       [CreateAuction Scenario.lampUnrounded Scenario.someDraws] = [a] /\
     placeBid [a] "lamp" 50.254150390625%float "203.0.113.7" (at_time 2000)
       = ([a'], Accepted 50.25%float) /\
     currentBid a = 50.25390625%float /\ currentBid a' = 50.25%float /\
     (currentBid a' <? currentBid a)%float = true).
Proof. split; do 2 eexists; repeat split. Qed.

(** C9, amended: the bid handler never lowers a [currentBid] that is
    itself an amount rounded to two decimals, which every [currentBid]
    is once a bid exists: so in every history a bid lowers no
    [currentBid] of an auction that has a bid, and the only bid that can
    is a first bid on a starting bid with more than two decimals.  In
    detail, the bid handler leaves every [currentBid] as it was, except
    that of the auction of an accepted bid, which becomes the proposed
    amount rounded to two decimals, the proposed amount being above the
    [currentBid] it replaces; a bid given with at most two decimals
    raises it.  The update handler leaves [currentBid] as it was once a
    bid exists; while none exists it assigns a submitted starting bid to
    it, higher or lower. *)
Theorem currentBid_steps {lib : StringLib} :
  (forall DATA s amt from t,
      Forall2 (fun a a' =>
                 currentBid a' = currentBid a \/
                 (currentBid a' = toFixed2 amt /\
                  (currentBid a <? amt)%float = true))
        DATA (fst (placeBid DATA s amt from t))) /\
  (forall DATA s amt from t,
      Forall2 (fun a a' =>
                 (exists y, currentBid a = toFixed2 y) ->
                 (currentBid a' <? currentBid a)%float = false)
        DATA (fst (placeBid DATA s amt from t))) /\
  (forall qs s amt from t,
      Forall2 (fun a a' =>
                 bids a <> [] ->
                 (currentBid a' <? currentBid a)%float = false)
        (run qs) (fst (placeBid (run qs) s amt from t))) /\
  (forall DATA s amt from t,
      toFixed2 amt = amt ->
      Forall2 (fun a a' =>
                 currentBid a' = currentBid a \/
                 (currentBid a <? currentBid a')%float = true)
        DATA (fst (placeBid DATA s amt from t))) /\
  (forall DATA i b,
      Forall2 (fun a a' =>
                 (bids a <> [] -> currentBid a' = currentBid a) /\
                 (bids a = [] ->
                  currentBid a' = currentBid a \/
                  exists sb, f_startingBid b = Filled sb /\
                             isNaN sb = false /\ currentBid a' = sb))
        DATA (fst (updateAuction DATA i b))) /\
  (forall qs,
      Forall (fun a => bids a <> [] ->
                       exists amt, currentBid a = toFixed2 amt) (run qs)).
Proof.
  assert (H : forall DATA s amt from t,
             Forall2 (fun a a' =>
                        currentBid a' = currentBid a \/
                        (currentBid a' = toFixed2 amt /\
                         (currentBid a <? amt)%float = true))
               DATA (fst (placeBid DATA s amt from t))).
  { intros DATA s amt from t.
    destruct (placeBid_cases DATA s amt from t)
      as [(r & E & _) | (a & Hf & _ & _ & Hn & Hle & Hc & E)];
      rewrite E; simpl.
    - apply Forall2_same. auto.
    - eapply Forall2_weaken; [| apply modify_first_found, Hf].
      intros x y [-> | [-> ->]]; [now left | right].
      split; [reflexivity |].
      destruct (clamp_passes _ _ _ Hc) as (Hi & _ & _).
      apply NumFacts.sub_not_NaN in Hi.
      apply NumFacts.not_leb_ltb; [exact Hn | apply Hi | exact Hle]. }
  assert (H2 : forall DATA s amt from t,
             Forall2 (fun a a' =>
                        (exists y, currentBid a = toFixed2 y) ->
                        (currentBid a' <? currentBid a)%float = false)
               DATA (fst (placeBid DATA s amt from t))).
  { intros DATA s amt from t.
    eapply Forall2_weaken; [| apply H].
    intros x y [E | [E L]] [z Hz].
    - rewrite E. apply RoundFacts.ltb_irrefl.
    - rewrite E, Hz. apply RoundFacts.toFixed2_not_below.
      rewrite <- Hz. exact L. }
  assert (H3 : forall qs,
             Forall (fun a => bids a <> [] ->
                              exists amt, currentBid a = toFixed2 amt)
               (run qs)).
  { apply run_preserved. intros D q. apply handle_Forall.
    - intros DATA b r a E Hb.
      destruct (createAuction_cases DATA b r)
        as [E' | (s0 & e0 & sl & _ & _ & E')]; rewrite E' in E.
      + injection E as E _. apply (f_equal (@List.length _)) in E.
        rewrite length_app in E. simpl in E. lia.
      + injection E as E. apply app_inv_head in E. injection E as <-.
        now destruct Hb.
    - intros amt at_ from a _ _. exists amt. reflexivity.
    - intros b a Ha Hb.
      destruct (applyPatch_frame b a) as (_ & _ & Eb). rewrite Eb in Hb.
      rewrite (applyPatch_currentBid b a Hb). apply Ha, Hb. }
  split; [exact H | split; [exact H2 | split; [| split; [| split]]]].
  - intros qs s amt from t.
    pose proof (H3 qs) as I. pose proof (H2 (run qs) s amt from t) as F.
    revert I. induction F as [| x y l l' Hxy _ IH]; intros I; constructor.
    + intros Hb. apply Hxy. inversion I; subst; auto.
    + apply IH. inversion I; subst; assumption.
  - intros DATA s amt from t Hr.
    eapply Forall2_weaken; [| apply H].
    intros x y [E | [E L]]; [now left | right].
    rewrite E, Hr. exact L.
  - intros DATA i b. rewrite updateAuction_store.
    apply modify_first_Forall2.
    + intros x. split; auto.
    + intros x. split.
      * apply applyPatch_currentBid.
      * apply applyPatch_currentBid_empty.
  - exact H3.
Qed.

(** Counterexample to C10 as stated: a patch that submits a cap of zero
    together with a start that is not a date makes the update handler
    throw before it reaches the cap; the stored cap of 100 stays. *)
Lemma failed_update_keeps_cap :
  exists a',
    updateAuction (lib := Scenario.plain) Scenario.opened Scenario.lampId
      Scenario.badDateZeroCap = ([a'], Threw) /\
    maxIncrement a' = Some 100%float.
Proof. eexists. repeat split. Qed.

(** C10, amended: every handler preserves, and so every history
    establishes, that a stored [maxIncrement] is absent or above zero.
    The create handler, and the update handler whenever it runs to its
    end, store no cap for a submitted value that is not a number, zero
    or negative, and store a submitted value above zero as it is; the
    update handler leaves the cap alone when none is submitted, and
    when it throws on its dates, which it can only do when both window
    fields are submitted.  Without a cap no increment is too large for
    [clampBidIncrement]; and a cap of zero, if one were stored, would
    cap nothing. *)
Theorem maxIncrement_absent_or_positive {lib : StringLib} :
  (forall DATA q, Forall capPositive DATA ->
                  Forall capPositive (handle DATA q)) /\
  (forall qs, Forall capPositive (run qs)) /\
  (forall DATA b r a,
      createAuction DATA b r = ((DATA ++ [a])%list, Redirected) ->
      let v := parseFloat (f_maxIncrement b) in
      (isNaN v = true \/ (v =? 0)%float = true \/ (v <? 0)%float = true ->
       maxIncrement a = None) /\
      (gtb v 0%float = true -> maxIncrement a = Some v)) /\
  (forall DATA i b a,
      find (hasId i) DATA = Some a ->
      exists a',
        find (hasId i) (fst (updateAuction DATA i b)) = Some a' /\
        (given (f_startsAtLocal b) && given (f_durationMinutes b) = false ->
         snd (updateAuction DATA i b) = Redirected) /\
        (snd (updateAuction DATA i b) = Redirected ->
         (f_maxIncrement b = Missing -> maxIncrement a' = maxIncrement a) /\
         (f_maxIncrement b <> Missing ->
          let v := parseFloat (f_maxIncrement b) in
          (isNaN v = true \/ (v =? 0)%float = true \/ (v <? 0)%float = true ->
           maxIncrement a' = None) /\
          (gtb v 0%float = true -> maxIncrement a' = Some v))) /\
        (snd (updateAuction DATA i b) = Threw ->
         maxIncrement a' = maxIncrement a)) /\
  (forall inc lo,
      (inc <? lo)%float = false -> clampBidIncrement inc lo None = inc) /\
  (forall inc lo,
      clampBidIncrement inc lo (Some 0%float) = clampBidIncrement inc lo None).
Proof.
  split; [exact handle_capPositive |].
  split; [exact run_capPositive |].
  split; [| split; [| split]].
  - intros DATA b r a E v.
    destruct (created_cap _ _ _ _ E) as (-> & _). subst v. split.
    + intros Hv.
      assert (G : gtb (or_else (parseOr (f_maxIncrement b) 0%float) 0%float)
                    0%float = false).
      { unfold or_else.
        destruct (f_maxIncrement b) as [| | x]; simpl in *; try reflexivity.
        destruct (truthy x); [| reflexivity].
        apply NumFacts.not_positive, Hv. }
      now rewrite G.
    + intros Hv. destruct (f_maxIncrement b) as [| | x]; simpl in *;
        try discriminate.
      unfold or_else. rewrite (NumFacts.positive_truthy x Hv). now rewrite Hv.
  - intros DATA i b a Hf.
    destruct (updateAuction_found DATA i b a Hf) as [H1 H2].
    exists (fst (applyPatch b a)). split; [exact H1 |]. rewrite H2.
    clear H1 H2.
    assert (Hdone : given (f_startsAtLocal b) && given (f_durationMinutes b)
                    = false -> snd (applyPatch b a) = true).
    { intros G. unfold applyPatch, setWindow. now rewrite G. }
    destruct (applyPatch_split b a) as (a2 & S & [E | E]); rewrite E in *;
      cbn [fst snd] in *; unfold sameBidding in S;
      destruct S as (_ & _ & _ & _ & S & _).
    + split; [intros G; specialize (Hdone G); discriminate |].
      split; [discriminate | intros _; exact S].
    + split; [reflexivity |]. split; [| discriminate]. intros _.
      rewrite patched_cap. split.
      * intros ->. assert (G : forall x : auction,
          maxIncrement (setMinIncrement b (setStartingBid b x))
          = maxIncrement x).
        { intros x. unfold setMinIncrement, setStartingBid.
          destruct (f_startingBid b) as [| | sb];
            [| | destruct (negb (isNaN sb))];
            (destruct (f_minIncrement b) as [| | mi];
             [| | destruct (negb (isNaN mi) && gtb mi 0%float)]);
            reflexivity. }
        now rewrite G.
      * intros Hm. cbv zeta.
        destruct (f_maxIncrement b) as [| | x]; [congruence | |]; simpl.
        -- split; [reflexivity | discriminate].
        -- split.
           ++ intros Hv. rewrite (NumFacts.not_positive _ Hv).
              now rewrite andb_false_r.
           ++ intros Hv. rewrite Hv.
              destruct (NumFacts.ltb_not_NaN _ _ Hv) as [_ N].
              unfold gtb in Hv. now rewrite N.
  - intros inc lo H. simpl. now rewrite H.
  - intros inc lo. reflexivity.
Qed.

(** ** Further properties of the handlers *)

(** *** [clampBidIncrement] *)

Lemma leb_self (x : number) : isNaN x = false -> (x <=? x)%float = true.
Proof.
  rewrite NumFacts.isNaN_spec, leb_spec. unfold SFleb.
  rewrite NumFacts.SFcompare_self. destruct (Prim2SF x); congruence.
Qed.

(** An increment within the bounds is returned as it is. *)
Lemma clamp_within (inc lo : number) (hi : option number) :
  (lo <=? inc)%float = true ->
  (forall mx, hi = Some mx -> (inc <=? mx)%float = true) ->
  clampBidIncrement inc lo hi = inc.
Proof.
  intros Hlo Hhi.
  assert (Hl : (inc <? lo)%float = false).
  { destruct (inc <? lo)%float eqn:L; [| reflexivity].
    apply NumFacts.ltb_leb_false in L. congruence. }
  unfold clampBidIncrement. destruct hi as [mx |]; [| now rewrite Hl].
  assert (G : gtb inc mx = false).
  { unfold gtb. destruct (mx <? inc)%float eqn:L; [| reflexivity].
    apply NumFacts.ltb_leb_false in L. rewrite (Hhi mx eq_refl) in L.
    discriminate. }
  now rewrite G, andb_false_r, Hl.
Qed.

(** X1: with a [minInc] that is a number and a [maxInc] that is absent
    or above zero, [clampBidIncrement] returns its first argument
    unchanged (as [!==] sees it) exactly when that argument lies between
    [minInc] and [maxInc]; this is the test the bid handler makes. *)
Theorem clamp_unchanged_iff_within (inc lo : number) (hi : option number) :
  isNaN lo = false ->
  (forall mx, hi = Some mx -> gtb mx 0%float = true) ->
  strict_neq inc (clampBidIncrement inc lo hi) = false <->
  (lo <=? inc)%float = true /\
  (forall mx, hi = Some mx -> (inc <=? mx)%float = true).
Proof.
  intros Hlo Hhi. split.
  - intros H. destruct (clamp_passes _ _ _ H) as (Hn & Hl & Hc). split.
    + apply NumFacts.not_ltb_leb; assumption.
    + intros mx Hmx. specialize (Hhi mx Hmx). apply NumFacts.not_ltb_leb.
      * apply (NumFacts.ltb_not_NaN _ _ Hhi).
      * exact Hn.
      * apply (Hc mx Hmx), NumFacts.positive_truthy, Hhi.
  - intros [H1 H2]. rewrite (clamp_within _ _ _ H1 H2).
    unfold strict_neq. rewrite NumFacts.eqb_self; [reflexivity |].
    apply (NumFacts.leb_not_NaN _ _ H1).
Qed.

(** Witness of X1: an increment of 10 between 1 and 100. *)
Lemma clamp_unchanged_iff_within_witness :
  strict_neq 10%float (clampBidIncrement 10%float 1%float (Some 100%float))
    = false <->
  (1 <=? 10)%float = true /\
  (forall mx, Some 100%float = Some mx -> (10 <=? mx)%float = true).
Proof.
  apply (clamp_unchanged_iff_within 10%float 1%float (Some 100%float)).
  - reflexivity.
  - intros mx [= <-]. reflexivity.
Defined.

(** X2: for an amount that is a number, a cap that is truthy and a
    [minInc] that does not exceed the cap, the value [clampBidIncrement]
    returns lies between [minInc] and the cap. *)
Theorem clamp_in_range (amt lo mx : number) :
  isNaN amt = false -> truthy mx = true -> (lo <=? mx)%float = true ->
  (lo <=? clampBidIncrement amt lo (Some mx))%float = true /\
  (clampBidIncrement amt lo (Some mx) <=? mx)%float = true.
Proof.
  intros Ha Ht Hlm.
  destruct (NumFacts.leb_not_NaN _ _ Hlm) as [Hl Hm].
  unfold clampBidIncrement. rewrite Ht. simpl.
  destruct (gtb amt mx) eqn:G.
  - split; [exact Hlm | apply leb_self, Hm].
  - destruct (amt <? lo)%float eqn:L.
    + split; [apply leb_self, Hl | exact Hlm].
    + split; apply NumFacts.not_ltb_leb; assumption.
Qed.

(** Witness of X2: 140 is clamped to 100, 0.5 to 1. *)
Lemma clamp_in_range_witness :
  ((1 <=? clampBidIncrement 140%float 1%float (Some 100%float))%float = true /\
   (clampBidIncrement 140%float 1%float (Some 100%float) <=? 100)%float = true)
  /\
  ((1 <=? clampBidIncrement 0.5%float 1%float (Some 100%float))%float = true /\
   (clampBidIncrement 0.5%float 1%float (Some 100%float) <=? 100)%float = true).
Proof.
  split.
  - apply (clamp_in_range 140%float 1%float 100%float); reflexivity.
  - apply (clamp_in_range 0.5%float 1%float 100%float); reflexivity.
Defined.

(** *** The status route and the lookups *)

Lemma find_none_filter_out (p : auction -> bool) (l : list auction) :
  find p l = None -> filter (fun a => negb (p a)) l = l.
Proof.
  induction l as [| x l IH]; simpl; [reflexivity |].
  destruct (p x); [discriminate |]. simpl. intros H. now rewrite IH.
Qed.

Lemma find_app_some (p : auction -> bool) (l l' : list auction) (x : auction) :
  find p l = Some x -> find p (l ++ l') = Some x.
Proof.
  induction l as [| y l IH]; simpl; [discriminate |].
  destruct (p y); auto.
Qed.

Lemma find_app_none (p : auction -> bool) (l l' : list auction) :
  find p l = None -> find p (l ++ l') = find p l'.
Proof.
  induction l as [| y l IH]; simpl; [reflexivity |].
  destruct (p y); [discriminate | auto].
Qed.

Lemma existsb_find_none (p : auction -> bool) (l : list auction) :
  existsb p l = false <-> find p l = None.
Proof.
  induction l as [| y l IH]; simpl; [tauto |].
  destruct (p y); simpl; [split; discriminate | exact IH].
Qed.

Lemma find_none_not_in (p : auction -> bool) (l : list auction) :
  find p l = None <-> forall a, In a l -> p a = false.
Proof.
  split.
  - intros H a Ha. destruct (p a) eqn:E; [| reflexivity].
    now rewrite (find_none _ _ H a Ha) in E.
  - intros H. induction l as [| y l IH]; simpl; [reflexivity |].
    rewrite (H y (or_introl eq_refl)). apply IH. intros a Ha.
    apply H. now right.
Qed.

Lemma find_filter_all (p q : auction -> bool) (l : list auction) :
  (forall a, p a = true -> q a = true) -> find p (filter q l) = find p l.
Proof.
  intros H. induction l as [| y l IH]; simpl; [reflexivity |].
  destruct (p y) eqn:Hp.
  - rewrite (H y Hp). simpl. now rewrite Hp.
  - destruct (q y); simpl; [rewrite Hp |]; exact IH.
Qed.

Lemma find_filter_some (p q : auction -> bool) (l : list auction)
  (x : auction) :
  find p l = Some x -> q x = true -> find p (filter q l) = Some x.
Proof.
  induction l as [| y l IH]; simpl; [discriminate |].
  destruct (p y) eqn:Hp.
  - intros [= ->] Hq. rewrite Hq. simpl. now rewrite Hp.
  - intros Hf Hq. destruct (q y); simpl; [rewrite Hp |]; auto.
Qed.

Lemma no_slug_iff (DATA : list auction) (s : string) :
  find (hasSlug s) DATA = None <-> forall a, In a DATA -> slug a <> s.
Proof.
  rewrite find_none_not_in. unfold hasSlug.
  split; intros H a Ha; apply String.eqb_neq, H, Ha.
Qed.

Lemma no_id_iff (DATA : list auction) (i : string) :
  find (hasId i) DATA = None <-> forall a, In a DATA -> id a <> i.
Proof.
  rewrite find_none_not_in. unfold hasId.
  split; intros H a Ha; apply String.eqb_neq, H, Ha.
Qed.

(** X3: the status route against the bid route.  The status route reads
    the clock three times, once for each flag, and the bid route reads
    it once for its start test and once for its end test.  When the two
    routes read the same values for [hasStarted] and for [hasEnded]: if
    the status says [hasStarted] is false a bid is answered 'Auction has
    not started yet.'; if it says [hasStarted] and [hasEnded] a bid is
    answered 'Auction has ended.'; if it says [hasStarted] and not
    [hasEnded] a bid is answered on its amount alone.  The flag [active]
    comes from a read of its own: when that read is not after the read
    of [hasStarted], [active] implies [hasStarted]; [active] implies
    that the window is not empty; and only when the three reads return
    the same value is [active] the same as [hasStarted] and not
    [hasEnded]. *)
Theorem status_agrees_with_bid (DATA : list auction) (s : string) (r : looks)
  (st : status) (amt : number) (from : string) (t : ticks) :
  getStatus DATA s r = Some st ->
  t_started t = l_started r -> t_ended t = l_ended r ->
  (s_hasStarted st = false ->
   placeBid DATA s amt from t = (DATA, NotStarted)) /\
  (s_hasStarted st = true -> s_hasEnded st = true ->
   placeBid DATA s amt from t = (DATA, Ended)) /\
  (s_hasStarted st = true -> s_hasEnded st = false ->
   snd (placeBid DATA s amt from t) = TooLow \/
   (exists lo hi, snd (placeBid DATA s amt from t)
                  = IncrementOutOfBounds lo hi) \/
   snd (placeBid DATA s amt from t) = Accepted (toFixed2 amt)) /\
  (l_active r <= l_started r -> s_active st = true ->
   s_hasStarted st = true) /\
  (s_active st = true -> s_startsAt st < s_endsAt st) /\
  (l_active r = l_started r -> l_started r = l_ended r ->
   s_active st = s_hasStarted st && negb (s_hasEnded st)).
Proof.
  unfold getStatus, placeBid.
  destruct (find (hasSlug s) DATA) as [a |]; [| discriminate].
  intros [= <-] -> ->.
  cbn [s_active s_hasStarted s_hasEnded s_startsAt s_endsAt].
  unfold isActiveAuction, hasStarted, hasEnded.
  split; [| split; [| split; [| split; [| split]]]].
  - intros ->. reflexivity.
  - intros -> ->. reflexivity.
  - intros -> ->. simpl.
    destruct (isNaN amt || (amt <=? currentBid a)%float); [now left |].
    destruct (strict_neq _ _);
      [right; left; do 2 eexists; reflexivity | now right; right].
  - intros Hle H. apply andb_prop in H. destruct H as [H _].
    apply Z.leb_le in H. apply Z.leb_le. lia.
  - intros H. apply andb_prop in H. destruct H as [H1 H2].
    apply Z.leb_le in H1. apply Z.ltb_lt in H2. lia.
  - intros -> ->. now rewrite (Z.ltb_antisym (endsAt a) (l_ended r)).
Qed.

(** Witness of X3: the status of the scenario's auction read at the
    times 2000, 2001 and 2002, and a bid of 60 that reads 2001 and
    2002. *)
Lemma status_agrees_with_bid_witness :
  snd (placeBid Scenario.opened "lamp" 60%float "203.0.113.7"
         (mkTicks 2001 2002 2003)) = TooLow \/
  (exists lo hi,
     snd (placeBid Scenario.opened "lamp" 60%float "203.0.113.7"
            (mkTicks 2001 2002 2003)) = IncrementOutOfBounds lo hi) \/
  snd (placeBid Scenario.opened "lamp" 60%float "203.0.113.7"
         (mkTicks 2001 2002 2003)) = Accepted (toFixed2 60%float).
Proof.
  exact (proj1 (proj2 (proj2
    (status_agrees_with_bid Scenario.opened "lamp" (mkLooks 2000 2001 2002)
       (mkStatus 50%float 1000 3601000 true true false)
       60%float "203.0.113.7" (mkTicks 2001 2002 2003)
       eq_refl eq_refl eq_refl))) eq_refl eq_refl).
Defined.

(** The clock can pass the end between two reads of one status request:
    the scenario's auction, which ends at 3601000, is then reported
    [active] and [hasEnded] at once. *)
Example status_across_the_end :
  getStatus Scenario.opened "lamp" (mkLooks 3600999 3601000 3601001)
  = Some (mkStatus 50%float 1000 3601000 true true true).
Proof. reflexivity. Qed.

(** X4: the phases of an auction follow the clock: when the reads of a
    later request are not before those of an earlier one, an auction
    that had started has started and one that had ended has ended; and
    when the window is at least as long as the time between the read of
    [hasStarted] and the read of [hasEnded] (for reads at one instant:
    when the window is not inverted), an ended auction has started, so
    that exactly one of not started, active and ended holds. *)
Theorem status_follows_clock (DATA : list auction) (s : string)
  (r r' : looks) (st : status) :
  getStatus DATA s r = Some st ->
  l_started r <= l_started r' -> l_ended r <= l_ended r' ->
  exists st',
    getStatus DATA s r' = Some st' /\
    s_currentBid st' = s_currentBid st /\
    (s_hasStarted st = true -> s_hasStarted st' = true) /\
    (s_hasEnded st = true -> s_hasEnded st' = true) /\
    (l_ended r - l_started r <= s_endsAt st - s_startsAt st ->
     s_hasEnded st = true -> s_hasStarted st = true).
Proof.
  unfold getStatus.
  destruct (find (hasSlug s) DATA) as [a |]; [| discriminate].
  intros [= <-] Hs He. eexists. split; [reflexivity |].
  cbn [s_currentBid s_hasStarted s_hasEnded s_startsAt s_endsAt].
  unfold hasStarted, hasEnded. split; [reflexivity |].
  repeat split; intros; repeat match goal with
    | H : (_ <=? _) = true |- _ => apply Z.leb_le in H
    end; apply Z.leb_le; lia.
Qed.

(** Witness of X4: the scenario's auction, active at time 2000, has
    started and ended at time 4000000. *)
Lemma status_follows_clock_witness :
  exists st',
    getStatus Scenario.opened "lamp" (at_instant 4000000) = Some st' /\
    s_currentBid st' = 50%float /\ s_hasStarted st' = true.
Proof.
  destruct (status_follows_clock Scenario.opened "lamp"
              (at_instant 2000) (at_instant 4000000)
              (mkStatus 50%float 1000 3601000 true true false) eq_refl)
    as (st' & H1 & H2 & H3 & _); [simpl; lia | simpl; lia |].
  exists st'. split; [exact H1 |]. split; [exact H2 | exact (H3 eq_refl)].
Defined.

(** X5: the status route reports what the bid route answered.  After an
    accepted bid the status of that slug shows the accepted amount as
    [currentBid], with the window it had and, for the same reads of the
    clock, the same flags; after any other answer the store, and with
    it every status, is as before. *)
Theorem status_after_bid (DATA : list auction) (s : string) (amt : number)
  (from : string) (t : ticks) (r : looks) :
  (forall c, snd (placeBid DATA s amt from t) = Accepted c ->
     exists st,
       getStatus DATA s r = Some st /\
       getStatus (fst (placeBid DATA s amt from t)) s r =
         Some (mkStatus c (s_startsAt st) (s_endsAt st) (s_active st)
                 (s_hasStarted st) (s_hasEnded st))) /\
  ((forall c, snd (placeBid DATA s amt from t) <> Accepted c) ->
   fst (placeBid DATA s amt from t) = DATA).
Proof.
  destruct (placeBid_cases DATA s amt from t)
    as [(x & E & Hr) | (a & Hf & _ & _ & _ & _ & _ & E)]; rewrite E; simpl.
  - split; [| reflexivity]. intros c Hc. now destruct (Hr c).
  - split.
    + intros c [= <-]. unfold getStatus.
      pose proof (find_some _ _ Hf) as [_ Hs].
      rewrite (find_modify_first (hasSlug s)
                 (recordBid amt (t_stamp t) from) DATA a Hf Hs), Hf.
      eexists. split; reflexivity.
    + intros H. now destruct (H (toFixed2 amt)).
Qed.

(** X6: requests for a key that no auction has.  The bid route answers
    'Auction not found' exactly when no stored auction has the slug, and
    the status route answers not found exactly then, whatever the clock
    reads; the page route hands the request on exactly for the slug
    'admin', stored or not, shows the notfound view exactly for another
    slug that no stored auction has, and shows an auction only if it is
    stored under that slug.  The update route answers 404 exactly when
    no stored auction has the id.  The delete route answers with the
    same redirect for every id, and leaves the store as it is exactly
    when no stored auction has the id.  A request answered not found
    leaves the store as it is. *)
Theorem unknown_keys {lib : StringLib} (DATA : list auction) :
  (forall s amt from t,
      (snd (placeBid DATA s amt from t) = NotFound <->
       forall a, In a DATA -> slug a <> s) /\
      (snd (placeBid DATA s amt from t) = NotFound ->
       fst (placeBid DATA s amt from t) = DATA)) /\
  (forall s r,
      getStatus DATA s r = None <-> forall a, In a DATA -> slug a <> s) /\
  getAuctionPage DATA "admin" = NextRoute /\
  (forall s,
      (getAuctionPage DATA s = NextRoute <-> s = "admin") /\
      (getAuctionPage DATA s = PageNotFound <->
       s <> "admin" /\ forall a, In a DATA -> slug a <> s) /\
      (forall a, getAuctionPage DATA s = Page a ->
                 In a DATA /\ slug a = s /\ s <> "admin")) /\
  (forall i b,
      (snd (updateAuction DATA i b) = NotFound404 <->
       forall a, In a DATA -> id a <> i) /\
      (snd (updateAuction DATA i b) = NotFound404 ->
       fst (updateAuction DATA i b) = DATA)) /\
  (forall i,
      snd (deleteAuction DATA i) = Redirected /\
      (fst (deleteAuction DATA i) = DATA <->
       forall a, In a DATA -> id a <> i)).
Proof.
  split; [| split; [| split; [| split; [| split]]]].
  - intros s amt from t. rewrite <- no_slug_iff. unfold placeBid.
    destruct (find (hasSlug s) DATA) as [a |]; simpl.
    + assert (H : snd
          (if negb (hasStarted (t_started t) (startsAt a))
           then (DATA, NotStarted)
           else if hasEnded (t_ended t) (endsAt a) then (DATA, Ended)
           else if isNaN amt || (amt <=? currentBid a)%float
           then (DATA, TooLow)
           else if strict_neq (amt - currentBid a)%float
                     (clampBidIncrement (amt - currentBid a)%float
                        (minIncrement a) (maxIncrement a))
           then (DATA, IncrementOutOfBounds (minIncrement a) (maxIncrement a))
           else (modify_first (hasSlug s) (recordBid amt (t_stamp t) from)
                   DATA, Accepted (toFixed2 amt))) <> NotFound).
      { destruct (negb _); [discriminate |].
        destruct (hasEnded _ _); [discriminate |].
        destruct (_ || _); [discriminate |].
        destruct (strict_neq _ _); discriminate. }
      split; [split; [intros E; now destruct H | discriminate] |].
      intros E. now destruct H.
    + split; [split; reflexivity | reflexivity].
  - intros s r. rewrite <- no_slug_iff. unfold getStatus.
    destruct (find (hasSlug s) DATA); split; (reflexivity || discriminate).
  - reflexivity.
  - intros s. rewrite <- no_slug_iff. unfold getAuctionPage.
    destruct (String.eqb_spec s "admin") as [E | E].
    + split; [tauto |]. split; [split; [discriminate | tauto] | discriminate].
    + destruct (find (hasSlug s) DATA) as [a |] eqn:F.
      * split; [split; [discriminate | tauto] |].
        split; [split; [discriminate | intros [_ H]; discriminate] |].
        intros x [= <-]. apply find_some in F. unfold hasSlug in F.
        destruct F as [F1 F2]. apply String.eqb_eq in F2. auto.
      * split; [split; [discriminate | tauto] |].
        split; [tauto | discriminate].
  - intros i b. rewrite <- no_id_iff. unfold updateAuction.
    destruct (find (hasId i) DATA) as [a |]; simpl.
    + split; [split; [| discriminate] |];
        destruct (snd (applyPatch b a)); discriminate.
    + split; [split; reflexivity | reflexivity].
  - intros i. split; [reflexivity |]. rewrite <- no_id_iff.
    unfold deleteAuction. simpl. split.
    + intros E. apply find_none_not_in. intros a Ha.
      rewrite <- E in Ha. apply filter_In in Ha.
      destruct Ha as [_ Ha]. now destruct (hasId i a).
    + apply find_none_filter_out.
Qed.

(** *** Keys: creating, finding and deleting *)

(** The auction the create handler appends. *)
Lemma created_keys {lib : StringLib} (DATA : list auction) (b : form) (r : draws)
  (DATA' : list auction) :
  createAuction DATA b r = (DATA', Redirected) ->
  exists a,
    DATA' = (DATA ++ [a])%list /\
    id a = d_id r /\
    slug a = (if existsb (hasSlug (baseSlug b r)) DATA
              then suffixedSlug b r else baseSlug b r) /\
    currentBid a = startingBid a /\ bids a = [].
Proof.
  unfold createAuction.
  destruct (utcISOFromLocal _) as [s |]; [| discriminate].
  destruct (endFrom s _) as [e |]; [| discriminate].
  intros [= <-]. eexists. split; [reflexivity |]. repeat split.
Qed.

(** X7: a successful create appends one auction and touches no other:
    every lookup by slug or by id that found an auction finds the same
    one afterwards.  The new auction is found by its own slug when, and
    only when, no older auction has that slug; in particular it always
    is when the slug derived from the form was not taken. *)
Theorem create_then_find {lib : StringLib} (DATA DATA' : list auction) (b : form) (r : draws) :
  createAuction DATA b r = (DATA', Redirected) ->
  exists a,
    DATA' = (DATA ++ [a])%list /\
    (forall s x, find (hasSlug s) DATA = Some x ->
                 find (hasSlug s) DATA' = Some x) /\
    (forall i x, find (hasId i) DATA = Some x ->
                 find (hasId i) DATA' = Some x) /\
    (find (hasSlug (slug a)) DATA' = Some a <->
     find (hasSlug (slug a)) DATA = None \/
     find (hasSlug (slug a)) DATA = Some a) /\
    (find (hasSlug (baseSlug b r)) DATA = None ->
     slug a = baseSlug b r /\ find (hasSlug (baseSlug b r)) DATA' = Some a).
Proof.
  intros H. destruct (created_keys _ _ _ _ H) as (a & -> & _ & Hs & _).
  exists a. split; [reflexivity |].
  split; [intros s x; apply find_app_some |].
  split; [intros i x; apply find_app_some |].
  assert (Hself : find (hasSlug (slug a)) [a] = Some a).
  { simpl. unfold hasSlug. now rewrite String.eqb_refl. }
  split.
  - destruct (find (hasSlug (slug a)) DATA) as [x |] eqn:E.
    + rewrite (find_app_some _ _ [a] _ E). split; [auto |].
      intros [F | F]; [discriminate | exact F].
    + rewrite (find_app_none _ _ [a] E), Hself. split; auto.
  - intros E. rewrite (proj2 (existsb_find_none _ _) E) in Hs.
    split; [exact Hs |]. rewrite <- Hs.
    rewrite find_app_none; [exact Hself | now rewrite Hs].
Qed.

(** Witness of X7: the first auction of the scenario. *)
Lemma create_then_find_witness :
  exists a,
    Scenario.opened = ([] ++ [a])%list /\
    (forall s x, find (hasSlug s) [] = Some x ->
                 find (hasSlug s) Scenario.opened = Some x) /\
    (forall i x, find (hasId i) [] = Some x ->
                 find (hasId i) Scenario.opened = Some x) /\
    (find (hasSlug (slug a)) Scenario.opened = Some a <->
     find (hasSlug (slug a)) [] = None \/
     find (hasSlug (slug a)) [] = Some a) /\
    (find (hasSlug "lamp") [] = None ->
     slug a = "lamp" /\ find (hasSlug "lamp") Scenario.opened = Some a).
Proof.
  exact (create_then_find (lib := Scenario.plain) [] Scenario.opened
           Scenario.lamp Scenario.someDraws eq_refl).
Defined.

(** X8: after a delete no auction has the deleted id: a lookup by it
    finds nothing, an update of it is answered 404 and a second delete
    changes nothing.  Every auction with that id is removed, not only
    the first, and the others stay, in their order. *)
Theorem delete_removes_id {lib : StringLib} (DATA : list auction) (i : string) :
  let DATA' := fst (deleteAuction DATA i) in
  find (hasId i) DATA' = None /\
  (forall a, In a DATA' <-> In a DATA /\ id a <> i) /\
  (forall b, updateAuction DATA' i b = (DATA', NotFound404)) /\
  fst (deleteAuction DATA' i) = DATA' /\
  (forall j, j <> i ->
     find (hasId j) DATA' = find (hasId j) DATA) /\
  (forall s x, find (hasSlug s) DATA = Some x -> id x <> i ->
     find (hasSlug s) DATA' = Some x).
Proof.
  unfold deleteAuction. cbn [fst].
  assert (Hin : forall a, In a (filter (fun a => negb (hasId i a)) DATA) <->
                          In a DATA /\ id a <> i).
  { intros a. rewrite filter_In. unfold hasId.
    destruct (String.eqb_spec (id a) i); simpl; intuition congruence. }
  assert (Hnone : find (hasId i) (filter (fun a => negb (hasId i a)) DATA)
                  = None).
  { apply find_none_not_in. intros a Ha. apply Hin in Ha. unfold hasId.
    destruct (String.eqb_spec (id a) i); [tauto | reflexivity]. }
  split; [exact Hnone |]. split; [exact Hin |].
  split; [intros b; unfold updateAuction; now rewrite Hnone |].
  split; [now apply find_none_filter_out |].
  split.
  - intros j Hj. apply find_filter_all. intros a Ha. unfold hasId in *.
    apply String.eqb_eq in Ha.
    destruct (String.eqb_spec (id a) i); [congruence | reflexivity].
  - intros s x Hf Hx. apply find_filter_some; [exact Hf |]. unfold hasId.
    destruct (String.eqb_spec (id x) i); [congruence | reflexivity].
Qed.

(** X9: deleting releases the slug.  Once every auction that has the
    slug derived from a form is deleted, a new auction created from that
    form gets the slug without a suffix and is the one found by it. *)
Theorem delete_releases_slug {lib : StringLib} (DATA DATA' : list auction)
  (i : string) (b : form) (r : draws) :
  (forall a, In a DATA -> slug a = baseSlug b r -> id a = i) ->
  createAuction (fst (deleteAuction DATA i)) b r = (DATA', Redirected) ->
  exists a,
    DATA' = (fst (deleteAuction DATA i) ++ [a])%list /\
    slug a = baseSlug b r /\
    find (hasSlug (baseSlug b r)) DATA' = Some a.
Proof.
  intros Hall H.
  assert (Hfree : find (hasSlug (baseSlug b r)) (fst (deleteAuction DATA i))
                  = None).
  { apply find_none_not_in. intros a Ha. unfold deleteAuction in Ha.
    cbn [fst] in Ha. apply filter_In in Ha. destruct Ha as [Ha Hi].
    unfold hasSlug, hasId in *.
    destruct (String.eqb_spec (slug a) (baseSlug b r)) as [E | E];
      [| reflexivity].
    rewrite (Hall a Ha E), String.eqb_refl in Hi. discriminate. }
  destruct (created_keys _ _ _ _ H) as (a & -> & _ & Hs & _).
  rewrite (proj2 (existsb_find_none _ _) Hfree) in Hs.
  exists a. split; [reflexivity |]. split; [exact Hs |].
  rewrite (find_app_none _ _ [a] Hfree). simpl. unfold hasSlug.
  now rewrite Hs, String.eqb_refl.
Qed.

(** Witness of X9: the slug [foo] is taken, its auction is deleted and a
    second auction is created with the slug [foo]. *)
Lemma delete_releases_slug_witness :
  exists a,
    run (lib := Scenario.plain)
      [CreateAuction Scenario.foo Scenario.someDraws;
       DeleteAuction Scenario.lampId;
       CreateAuction Scenario.foo Scenario.thirdDraws]
      = (fst (deleteAuction
                (run (lib := Scenario.plain)
                   [CreateAuction Scenario.foo Scenario.someDraws])
                Scenario.lampId) ++ [a])%list /\
    slug a = "foo" /\
    find (hasSlug "foo")
      (run (lib := Scenario.plain)
         [CreateAuction Scenario.foo Scenario.someDraws;
          DeleteAuction Scenario.lampId;
          CreateAuction Scenario.foo Scenario.thirdDraws]) = Some a.
Proof.
  apply (delete_releases_slug (lib := Scenario.plain)
           (run (lib := Scenario.plain)
              [CreateAuction Scenario.foo Scenario.someDraws])
           _ Scenario.lampId Scenario.foo Scenario.thirdDraws).
  - intros a [<- | []] _. reflexivity.
  - reflexivity.
Defined.

Lemma NoDup_snoc {A} (l : list A) (x : A) :
  NoDup l -> ~ In x l -> NoDup (l ++ [x]).
Proof.
  intros Hl Hx. induction Hl as [| y l Hy Hl IH]; simpl.
  - constructor; [tauto | constructor].
  - constructor.
    + rewrite in_app_iff. simpl. intros [H | [H | []]]; [tauto |].
      subst. apply Hx. now left.
    + apply IH. intros H. apply Hx. now right.
Qed.

Lemma NoDup_map_filter {A B} (g : A -> B) (q : A -> bool) (l : list A) :
  NoDup (map g l) -> NoDup (map g (filter q l)).
Proof.
  induction l as [| y l IH]; simpl; [auto |].
  intros H. inversion H as [| ? ? Hy Hl]; subst.
  destruct (q y); simpl; [| auto]. constructor; [| auto].
  intros Hin. apply Hy. apply in_map_iff in Hin.
  destruct Hin as (x & E & Hx). apply filter_In in Hx.
  apply in_map_iff. exists x. tauto.
Qed.

Lemma modify_first_map {B} (g : auction -> B) (p : auction -> bool)
  (f : auction -> auction) (l : list auction) :
  (forall a, g (f a) = g a) -> map g (modify_first p f l) = map g l.
Proof.
  intros H. induction l as [| y l IH]; simpl; [reflexivity |].
  destruct (p y); simpl; [now rewrite H | now rewrite IH].
Qed.

(** The bid and the update handler keep the ids and the slugs of the
    store, in their order. *)
Lemma handle_keeps_keys {lib : StringLib} (DATA : list auction)
  (q : request) :
  (forall b r, q <> CreateAuction b r) -> (forall i, q <> DeleteAuction i) ->
  map id (handle DATA q) = map id DATA /\
  map slug (handle DATA q) = map slug DATA.
Proof.
  intros Hc Hd. destruct q as [b r | s amt from t | i b | i]; simpl.
  - now destruct (Hc b r).
  - destruct (placeBid_cases DATA s amt from t)
      as [(x & E & _) | (a & _ & _ & _ & _ & _ & _ & E)]; rewrite E; simpl;
      [auto |].
    split; apply modify_first_map; reflexivity.
  - rewrite updateAuction_store.
    split; apply modify_first_map; intros a; apply applyPatch_frame.
  - now destruct (Hd i).
Qed.

(** X10: slugs and ids that are pairwise distinct stay so.  The bid, the
    update and the delete handler always keep them distinct; the create
    handler keeps the slugs distinct when the slug derived from the
    form, or else that slug with its suffix, is not taken, and the ids
    when the id it draws is not taken. *)
Theorem keys_stay_distinct {lib : StringLib} (DATA : list auction)
  (q : request) :
  (NoDup (map slug DATA) ->
   (forall b r, q = CreateAuction b r ->
      find (hasSlug (baseSlug b r)) DATA = None \/
      find (hasSlug (suffixedSlug b r)) DATA = None) ->
   NoDup (map slug (handle DATA q))) /\
  (NoDup (map id DATA) ->
   (forall b r, q = CreateAuction b r ->
      find (hasId (d_id r)) DATA = None) ->
   NoDup (map id (handle DATA q))).
Proof.
  assert (Hnot : forall (g : auction -> string) k,
             find (fun a => (g a =? k)%string) DATA = None ->
             ~ In k (map g DATA)).
  { intros g k H Hin. apply in_map_iff in Hin. destruct Hin as (x & E & Hx).
    pose proof (find_none _ _ H x Hx) as F. simpl in F.
    rewrite E, String.eqb_refl in F. discriminate. }
  destruct q as [b r | s amt from t | i b | i].
  - simpl.
    destruct (createAuction (lib := lib) DATA b r) as [DATA' resp] eqn:E.
    destruct (createAuction_cases DATA b r) as [E' | (s0 & e0 & sl & _ & _ & E')].
    + rewrite E' in E. injection E as <- _. simpl. tauto.
    + assert (resp = Redirected) by congruence. subst resp.
      destruct (created_keys _ _ _ _ E) as (a & -> & Hid & Hs & _).
      simpl. rewrite !map_app. simpl. split.
      * intros Hn Hfree. apply NoDup_snoc; [exact Hn |].
        destruct (existsb (hasSlug (baseSlug b r)) DATA) eqn:X.
        -- destruct (Hfree b r eq_refl) as [F | F].
           ++ apply existsb_find_none in F. congruence.
           ++ rewrite Hs. apply (Hnot slug), F.
        -- rewrite Hs. apply (Hnot slug), existsb_find_none, X.
      * intros Hn Hfree. apply NoDup_snoc; [exact Hn |].
        rewrite Hid. apply (Hnot id), (Hfree b r eq_refl).
  - destruct (handle_keeps_keys DATA (PlaceBid s amt from t)) as [-> ->];
      [discriminate | discriminate | tauto].
  - destruct (handle_keeps_keys DATA (UpdateAuction i b)) as [-> ->];
      [discriminate | discriminate | tauto].
  - simpl. split; intros H _; apply NoDup_map_filter, H.
Qed.

(** *** What the handlers leave alone *)

Lemma modify_first_In (p : auction -> bool) (f : auction -> auction)
  (l : list auction) (y : auction) :
  In y (modify_first p f l) -> In y l \/ exists x, In x l /\ y = f x.
Proof.
  induction l as [| x l IH]; simpl; [tauto |].
  destruct (p x); simpl.
  - intros [<- | H]; [right; exists x; auto | auto].
  - intros [<- | H]; [auto |].
    destruct (IH H) as [H' | (z & Hz & E)]; [auto |].
    right. exists z. auto.
Qed.

(** X11: the history of bids is append-only and the keys are fixed.
    Every auction in the store after a request either was created by
    that request, with its drawn id and no bids, or is an auction of the
    store before it with the same id, the same slug and the same bids,
    followed by at most one new bid. *)
Theorem bids_append_only {lib : StringLib} (DATA : list auction)
  (q : request) :
  Forall (fun a' =>
            (exists a l,
                In a DATA /\ id a' = id a /\ slug a' = slug a /\
                bids a' = (bids a ++ l)%list /\ (List.length l <= 1)%nat) \/
            (exists b r,
                q = CreateAuction b r /\ id a' = d_id r /\ bids a' = []))
    (handle DATA q).
Proof.
  assert (Hsame : forall a : auction, In a DATA ->
            exists x l, In x DATA /\ id a = id x /\ slug a = slug x /\
                        bids a = (bids x ++ l)%list /\ (List.length l <= 1)%nat).
  { intros a Ha. exists a, []. rewrite app_nil_r. simpl.
    repeat split; auto. }
  apply Forall_forall. intros a' Ha'.
  destruct q as [b r | s amt from t | i b | i]; simpl in Ha'.
  - destruct (createAuction_cases DATA b r)
      as [E | (s0 & e0 & sl & _ & _ & E)].
    + rewrite E in Ha'. left. auto.
    + pose proof E as E2. rewrite E in Ha'. simpl in Ha'.
      apply in_app_or in Ha'. destruct Ha' as [Ha' | [<- | []]];
        [left; auto | right].
      exists b, r. repeat split.
  - left.
    destruct (placeBid_cases DATA s amt from t)
      as [(x & E & _) | (a & _ & _ & _ & _ & _ & _ & E)];
      rewrite E in Ha'; simpl in Ha'; [auto |].
    apply modify_first_In in Ha'. destruct Ha' as [H | (x & Hx & ->)];
      [auto |].
    exists x, [mkBid (toFixed2 amt) (t_stamp t) from]. simpl.
    repeat split; auto.
  - left. rewrite updateAuction_store in Ha'.
    apply modify_first_In in Ha'. destruct Ha' as [H | (x & Hx & ->)];
      [auto |].
    destruct (applyPatch_frame b x) as (H1 & H2 & H3).
    exists x, []. rewrite app_nil_r. simpl. repeat split; auto.
  - left. apply filter_In in Ha'. apply Hsame, Ha'.
Qed.

(** X12: a bid touches one auction and two of its fields.  Every auction
    keeps its id, slug, texts, window, starting bid and increment
    bounds; the auction that [find] returns for the slug gets, when the
    bid is accepted, the rounded amount as [currentBid] and one more
    entry in [bids], and every other auction is as it was. *)
Theorem bid_touches_one_auction (DATA : list auction) (s : string)
  (amt : number) (from : string) (t : ticks) :
  Forall2 (fun a a' =>
             (id a' = id a /\ slug a' = slug a /\ title a' = title a /\
              description a' = description a /\
              startsAt a' = startsAt a /\ endsAt a' = endsAt a /\
              startingBid a' = startingBid a /\
              minIncrement a' = minIncrement a /\
              maxIncrement a' = maxIncrement a) /\
             (a' = a \/
              (find (hasSlug s) DATA = Some a /\
               snd (placeBid DATA s amt from t) = Accepted (toFixed2 amt) /\
               currentBid a' = toFixed2 amt /\
               bids a' =
                 (bids a ++ [mkBid (toFixed2 amt) (t_stamp t) from])%list)))
    DATA (fst (placeBid DATA s amt from t)).
Proof.
  destruct (placeBid_cases DATA s amt from t)
    as [(x & E & _) | (a & Hf & _ & _ & _ & _ & _ & E)]; rewrite E; simpl.
  - apply Forall2_same. intros a. split; [repeat split | now left].
  - eapply Forall2_weaken; [| apply modify_first_found, Hf].
    intros x y [-> | [-> ->]].
    + split; [repeat split | now left].
    + split; [repeat split | right; repeat split; exact Hf].
Qed.

Lemma Sorted_snoc (l : list Z) (x : Z) :
  Sorted.Sorted Z.le l -> Forall (fun z => z <= x) l ->
  Sorted.Sorted Z.le (l ++ [x]).
Proof.
  induction 1 as [| y l Hs IH Hh]; simpl; intros Hall.
  - repeat constructor.
  - inversion Hall as [| ? ? Hy Hl]; subst. constructor; [auto |].
    destruct l as [| z l]; simpl; constructor; [exact Hy |].
    now inversion Hh.
Qed.

Lemma modify_first_Forall_change (P Q : auction -> Prop)
  (p : auction -> bool) (f : auction -> auction) (l : list auction) :
  (forall a, Q a -> P a) -> (forall a, Q a -> P (f a)) ->
  Forall Q l -> Forall P (modify_first p f l).
Proof.
  intros H1 H2. induction 1 as [| x l Hx Hl IH]; simpl; [constructor |].
  destruct (p x); constructor; auto.
  eapply Forall_impl; [exact H1 | exact Hl].
Qed.

Lemma handle_stampsBefore {lib : StringLib} (q : request) (qs : list request)
  (DATA : list auction) :
  Sorted.StronglySorted Z.le (stampsOf (q :: qs)) ->
  Forall (stampsBefore (stampsOf (q :: qs))) DATA ->
  Forall (stampsBefore (stampsOf qs)) (handle DATA q).
Proof.
  intros Hs H. destruct q as [b r | s amt from t | i b | i]; simpl in *.
  - destruct (createAuction_cases DATA b r)
      as [E | (s0 & e0 & sl & _ & _ & E)]; rewrite E; simpl; [exact H |].
    apply Forall_app. split; [exact H |].
    constructor; [| constructor]. split; constructor.
  - inversion Hs as [| ? ? Hs' Ht]; subst.
    assert (Hweak : forall a, stampsBefore (t_stamp t :: stampsOf qs) a ->
                              stampsBefore (stampsOf qs) a).
    { intros a [H1 H2]. split; [exact H1 |].
      eapply Forall_impl; [| exact H2]. intros z Hz. now inversion Hz. }
    destruct (placeBid_cases DATA s amt from t)
      as [(x & E & _) | (a & _ & _ & _ & _ & _ & _ & E)]; rewrite E; simpl.
    + eapply Forall_impl; [exact Hweak | exact H].
    + eapply modify_first_Forall_change; [exact Hweak | | exact H].
      intros x [H1 H2]. unfold stampsBefore, recordBid. cbn [bids].
      rewrite map_app. simpl. split.
      * apply Sorted_snoc; [exact H1 |].
        eapply Forall_impl; [| exact H2]. intros z Hz. now inversion Hz.
      * apply Forall_app. split.
        -- eapply Forall_impl; [| exact H2]. intros z Hz. now inversion Hz.
        -- constructor; [exact Ht | constructor].
  - rewrite updateAuction_store. apply modify_first_Forall; [| exact H].
    intros x Hx. unfold stampsBefore in *.
    destruct (applyPatch_frame b x) as (_ & _ & ->). exact Hx.
  - rewrite Forall_forall in *. intros x Hx. apply filter_In in Hx.
    apply H, Hx.
Qed.

(** X13: insertion order is time order.  In a history whose bids are
    stamped by a clock that does not go back, the entries of [bids] of
    every auction are in the order of their time stamps. *)
Theorem bids_in_time_order {lib : StringLib} (qs : list request) :
  Sorted.Sorted Z.le (stampsOf qs) ->
  Forall (fun a => Sorted.Sorted Z.le (map atISO (bids a))) (run qs).
Proof.
  intros Hs. apply Sorted.Sorted_StronglySorted in Hs;
    [| exact Z.le_trans].
  assert (G : forall qs DATA,
             Sorted.StronglySorted Z.le (stampsOf qs) ->
             Forall (stampsBefore (stampsOf qs)) DATA ->
             Forall (stampsBefore []) (fold_left handle qs DATA)).
  { clear. induction qs as [| q qs IH]; intros DATA Hs H; simpl.
    - exact H.
    - apply IH.
      + destruct q; simpl in Hs; try exact Hs. now inversion Hs.
      + apply handle_stampsBefore; assumption. }
  eapply Forall_impl; [| apply (G qs initialData Hs); constructor].
  intros a Ha. apply Ha.
Qed.

(** Witness of X13: two bids, stamped 2000 and 2500. *)
Lemma bids_in_time_order_witness :
  Forall (fun a => Sorted.Sorted Z.le (map atISO (bids a)))
    (run (lib := Scenario.plain)
       [CreateAuction Scenario.lamp Scenario.someDraws;
        PlaceBid "lamp" 60%float "203.0.113.7" (at_time 2000);
        PlaceBid "lamp" 75%float "198.51.100.4" (at_time 2500)]).
Proof.
  apply (bids_in_time_order (lib := Scenario.plain)).
  simpl. repeat constructor. lia.
Defined.

(** *** The update handler *)

(** The last three steps of the update handler leave the texts and the
    window alone. *)
Lemma setBidding_window {lib : StringLib} (b : form) (a : auction) :
  let a' := setMaxIncrement b (setMinIncrement b (setStartingBid b a)) in
  title a' = title a /\ description a' = description a /\
  startsAt a' = startsAt a /\ endsAt a' = endsAt a.
Proof.
  unfold setMaxIncrement, setMinIncrement, setStartingBid.
  destruct (f_startingBid b) as [| | sb]; [| | destruct (negb (isNaN sb))];
    (destruct (f_minIncrement b) as [| | mi];
     [| | destruct (negb (isNaN mi) && gtb mi 0%float)]);
    destruct (f_maxIncrement b); repeat split.
Qed.

Lemma patched_min {lib : StringLib} (b : form) (a : auction) :
  minIncrement (setMaxIncrement b (setMinIncrement b (setStartingBid b a))) =
    match f_minIncrement b with
    | Filled mi =>
        if negb (isNaN mi) && gtb mi 0%float then mi else minIncrement a
    | _ => minIncrement a
    end.
Proof.
  unfold setMaxIncrement, setMinIncrement, setStartingBid.
  destruct (f_startingBid b) as [| | sb]; [| | destruct (negb (isNaN sb))];
    (destruct (f_minIncrement b) as [| | mi];
     [| | destruct (negb (isNaN mi) && gtb mi 0%float)]);
    destruct (f_maxIncrement b); reflexivity.
Qed.

(** X14: the update handler sets the two ends of the window together or
    not at all.  Unless both the start and the duration are submitted
    the window stays as it was; when both are and the dates are valid,
    the start is the submitted one and the end lies the submitted
    minutes after it (sixty when the duration is zero or not a number),
    so that a duration that is not negative gives an end after the
    start. *)
Theorem update_sets_window_together {lib : StringLib} (DATA : list auction)
  (i : string) (b : form) (a : auction) :
  find (hasId i) DATA = Some a ->
  exists a',
    find (hasId i) (fst (updateAuction DATA i b)) = Some a' /\
    (given (f_startsAtLocal b) && given (f_durationMinutes b) = false ->
     startsAt a' = startsAt a /\ endsAt a' = endsAt a) /\
    (given (f_startsAtLocal b) && given (f_durationMinutes b) = true ->
     snd (updateAuction DATA i b) = Redirected ->
     utcISOFromLocal (f_startsAtLocal b) = Some (startsAt a') /\
     endsAt a' = startsAt a' + minutesOr60 (f_durationMinutes b) * 60000 /\
     ((forall n, f_durationMinutes b = Filled (Some n) -> 0 <= n) ->
      startsAt a' < endsAt a')).
Proof.
  intros Hf. destruct (updateAuction_found DATA i b a Hf) as [H1 H2].
  exists (fst (applyPatch b a)). split; [exact H1 |]. rewrite H2. clear H1 H2.
  unfold applyPatch, setWindow.
  assert (Ht : forall x : auction,
             startsAt (setDescription b (setTitle b x)) = startsAt x /\
             endsAt (setDescription b (setTitle b x)) = endsAt x).
  { intros x. unfold setDescription, setTitle.
    destruct (nonEmpty (f_title b)), (nonEmpty (f_description b)); auto. }
  destruct (given (f_startsAtLocal b) && given (f_durationMinutes b)).
  - split; [discriminate |]. intros _.
    destruct (utcISOFromLocal (f_startsAtLocal b)) as [s |];
      [| discriminate].
    destruct (endFrom s (f_durationMinutes b)) as [e |] eqn:He;
      [| discriminate].
    intros _. cbn [fst].
    destruct (setBidding_window b
                (mkAuction (id (setDescription b (setTitle b a)))
                   (slug (setDescription b (setTitle b a)))
                   (title (setDescription b (setTitle b a)))
                   (description (setDescription b (setTitle b a)))
                   s e (startingBid (setDescription b (setTitle b a)))
                   (minIncrement (setDescription b (setTitle b a)))
                   (maxIncrement (setDescription b (setTitle b a)))
                   (currentBid (setDescription b (setTitle b a)))
                   (bids (setDescription b (setTitle b a)))))
      as (_ & _ & -> & ->).
    cbn [startsAt endsAt]. unfold endFrom in He.
    destruct (validTime _); [| discriminate]. injection He as <-.
    split; [reflexivity | split; [reflexivity |]].
    intros Hd.
    assert (0 < minutesOr60 (f_durationMinutes b)); [| lia].
    unfold minutesOr60.
    destruct (f_durationMinutes b) as [| | [n |]]; try lia.
    specialize (Hd n eq_refl). destruct (Z.eqb_spec n 0); lia.
  - split; [| discriminate]. intros _. cbn [fst].
    destruct (setBidding_window b (setDescription b (setTitle b a)))
      as (_ & _ & -> & ->).
    apply Ht.
Qed.

(** Witness of X14: the scenario's auction is moved to time 5000 for
    ninety minutes. *)
Lemma update_sets_window_together_witness :
  exists a',
    find (hasId Scenario.lampId)
      (fst (updateAuction (lib := Scenario.plain) Scenario.opened
              Scenario.lampId
              (mkForm "" "" "" (Filled (Some 5000)) (Filled (Some 90))
                 Missing Missing Missing))) = Some a' /\
    startsAt a' = 5000 /\ endsAt a' = 5405000.
Proof.
  destruct (update_sets_window_together (lib := Scenario.plain)
              Scenario.opened Scenario.lampId
              (mkForm "" "" "" (Filled (Some 5000)) (Filled (Some 90))
                 Missing Missing Missing)
              Scenario.lampAuction eq_refl) as (a' & H1 & _ & H2).
  exists a'. split; [exact H1 |].
  destruct (H2 eq_refl eq_refl) as (H3 & H4 & _).
  injection H3 as H3. rewrite H4, <- H3. split; reflexivity.
Defined.

(** X15: an update that fails is not undone.  The handler answers with
    an error exactly when both window fields are submitted and the start
    or the end is not a valid date; the title and the description it
    was given are assigned all the same, and nothing else is: the
    window, the bidding fields and the keys are as before. *)
Theorem failed_update_keeps_texts {lib : StringLib} (DATA : list auction)
  (i : string) (b : form) (a : auction) :
  find (hasId i) DATA = Some a ->
  (snd (updateAuction DATA i b) = Threw <->
   given (f_startsAtLocal b) && given (f_durationMinutes b) = true /\
   (utcISOFromLocal (f_startsAtLocal b) = None \/
    exists s, utcISOFromLocal (f_startsAtLocal b) = Some s /\
              endFrom s (f_durationMinutes b) = None)) /\
  (snd (updateAuction DATA i b) = Threw ->
   exists a',
     find (hasId i) (fst (updateAuction DATA i b)) = Some a' /\
     sameBidding a a' /\
     startsAt a' = startsAt a /\ endsAt a' = endsAt a /\
     title a' = (if nonEmpty (f_title b) then trim (f_title b)
                 else title a) /\
     description a' = (if nonEmpty (f_description b)
                       then trim (f_description b) else description a)).
Proof.
  intros Hf. destruct (updateAuction_found DATA i b a Hf) as [H1 H2].
  rewrite H1, H2. clear H1 H2.
  assert (Ht : sameBidding a (setDescription b (setTitle b a)) /\
               startsAt (setDescription b (setTitle b a)) = startsAt a /\
               endsAt (setDescription b (setTitle b a)) = endsAt a /\
               title (setDescription b (setTitle b a)) =
                 (if nonEmpty (f_title b) then trim (f_title b)
                  else title a) /\
               description (setDescription b (setTitle b a)) =
                 (if nonEmpty (f_description b) then trim (f_description b)
                  else description a)).
  { unfold setDescription, setTitle, sameBidding.
    destruct (nonEmpty (f_title b)), (nonEmpty (f_description b));
      repeat split. }
  unfold applyPatch, setWindow.
  destruct (given (f_startsAtLocal b) && given (f_durationMinutes b)).
  - destruct (utcISOFromLocal (f_startsAtLocal b)) as [s |].
    + destruct (endFrom s (f_durationMinutes b)) as [e |] eqn:He; simpl.
      * split; [| discriminate]. split; [discriminate |].
        intros [_ [F | (s' & [= <-] & F)]]; congruence.
      * split; [| intros _; eexists; split; [reflexivity | exact Ht]].
        split; [| reflexivity]. intros _. split; [reflexivity |].
        right. exists s. auto.
    + simpl. split; [| intros _; eexists; split; [reflexivity | exact Ht]].
      split; [| reflexivity]. intros _. auto.
  - simpl. split; [| discriminate]. split; [discriminate |].
    intros [F _]. discriminate.
Qed.

(** Witness of X15: a patch with a new title and a start that is not a
    date. *)
Lemma failed_update_keeps_texts_witness :
  exists a',
    find (hasId Scenario.lampId)
      (fst (updateAuction (lib := Scenario.plain) Scenario.opened
              Scenario.lampId
              (mkForm "desk" "" "" (Filled None) (Filled (Some 90))
                 (Filled 10%float) Missing Missing))) = Some a' /\
    title a' = "desk" /\ startingBid a' = 50%float /\ startsAt a' = 1000.
Proof.
  destruct (failed_update_keeps_texts (lib := Scenario.plain)
              Scenario.opened Scenario.lampId
              (mkForm "desk" "" "" (Filled None) (Filled (Some 90))
                 (Filled 10%float) Missing Missing)
              Scenario.lampAuction eq_refl) as (_ & H).
  destruct (H eq_refl) as (a' & H1 & H2 & H3 & _ & H4 & _).
  exists a'. split; [exact H1 |]. split; [exact H4 |].
  split; [| exact H3]. apply H2.
Defined.

(** *** The stored amounts *)

Lemma applyPatch_min_positive {lib : StringLib} (b : form) (a : auction) :
  gtb (minIncrement a) 0%float = true ->
  gtb (minIncrement (fst (applyPatch b a))) 0%float = true.
Proof.
  intros H.
  destruct (applyPatch_split b a) as (a2 & S & [E | E]); rewrite E; simpl;
    unfold sameBidding in S; destruct S as (_ & _ & _ & S & _).
  - now rewrite S.
  - rewrite patched_min, S.
    destruct (f_minIncrement b) as [| | mi]; try exact H.
    destruct (negb (isNaN mi) && gtb mi 0%float) eqn:G; [| exact H].
    apply andb_true_iff in G. apply G.
Qed.

(** X16: the update handler never replaces a [minIncrement] above zero
    by one that is not, and a bid does not touch it; so in every history
    whose create requests submit no negative [minIncrement], the
    [minIncrement] of every auction is above zero. *)
Theorem minIncrement_stays_positive {lib : StringLib} (qs : list request) :
  Forall minNotNegative qs ->
  Forall (fun a => gtb (minIncrement a) 0%float = true) (run qs).
Proof.
  unfold run. assert (H0 : Forall (fun a => gtb (minIncrement a) 0%float = true)
                             initialData) by constructor.
  revert H0. generalize initialData as DATA.
  induction qs as [| q qs IH]; intros DATA H Hq; simpl; [exact H |].
  inversion Hq as [| ? ? Hq1 Hq2]; subst. apply IH; [| exact Hq2].
  destruct q as [b r | s amt from t | i b | i]; simpl.
  - destruct (createAuction_cases DATA b r)
      as [E | (s0 & e0 & sl & _ & _ & E)]; rewrite E; simpl; [exact H |].
    apply Forall_app. split; [exact H |].
    constructor; [| constructor]. cbn [minIncrement]. simpl in Hq1.
    unfold or_else.
    destruct (f_minIncrement b) as [| | v]; simpl; try reflexivity.
    destruct (truthy v) eqn:T; [| reflexivity].
    apply NumFacts.truthy_not_negative; auto.
  - destruct (placeBid_cases DATA s amt from t)
      as [(x & E & _) | (a & _ & _ & _ & _ & _ & _ & E)]; rewrite E; simpl;
      [exact H |].
    apply modify_first_Forall; [| exact H]. intros x Hx. exact Hx.
  - rewrite updateAuction_store. apply modify_first_Forall; [| exact H].
    intros x. apply applyPatch_min_positive.
  - rewrite Forall_forall in *. intros x Hx. apply filter_In in Hx.
    apply H, Hx.
Qed.

(** Witness of X16: the auction of the scenario, then a patch that
    submits a [minIncrement] of -5. *)
Lemma minIncrement_stays_positive_witness :
  Forall (fun a => gtb (minIncrement a) 0%float = true)
    (run (lib := Scenario.plain)
       [CreateAuction Scenario.lamp Scenario.someDraws;
        UpdateAuction Scenario.lampId
          (mkForm "" "" "" Missing Missing Missing (Filled (-5)%float)
             Missing)]).
Proof.
  apply (minIncrement_stays_positive (lib := Scenario.plain)).
  repeat constructor. intros v [= <-]. reflexivity.
Defined.

(** X17: no handler stores [NaN] as a starting bid or as a minimal
    increment: in every history both are numbers for every auction. *)
Theorem stored_amounts_are_numbers {lib : StringLib} (qs : list request) :
  Forall (fun a => isNaN (startingBid a) = false /\
                   isNaN (minIncrement a) = false) (run qs).
Proof.
  assert (Hs : Forall (fun a => isNaN (startingBid a) = false) (run qs)).
  { apply run_preserved. intros D q. apply handle_Forall.
    - intros DATA b r a E. destruct (created_cap _ _ _ _ E) as (_ & _ & -> & _).
      unfold or_else.
      destruct (truthy (parseOr (f_startingBid b) 0%float)) eqn:T;
        [apply NumFacts.truthy_not_NaN, T | reflexivity].
    - intros amt at_ from a H. exact H.
    - intros b a H.
      destruct (applyPatch_split b a) as (a2 & S & [E | E]); rewrite E;
        simpl; unfold sameBidding in S;
        destruct S as (_ & _ & S & _).
      + now rewrite S.
      + pose proof (setBidding_bids b a2) as F. simpl in F.
        destruct (f_startingBid b) as [| | sb];
          [destruct F as [-> _]; now rewrite S
          | destruct F as [-> _]; now rewrite S |].
        destruct (isNaN sb) eqn:N; destruct F as [-> _];
          [now rewrite S | exact N]. }
  pose proof (run_minIsNumber qs) as Hm. unfold minIsNumber in Hm.
  rewrite Forall_forall in *. intros a Ha. split; auto.
Qed.

(** *** The listing *)

Lemma insertByStart_perm (a : auction) (l : list auction) :
  Permutation (a :: l) (insertByStart a l).
Proof.
  induction l as [| x l IH]; simpl; [reflexivity |].
  destruct (startsAt a <=? startsAt x); [reflexivity |].
  rewrite perm_swap. now constructor.
Qed.

Lemma insertByStart_sorted (a : auction) (l : list auction) :
  Sorted.Sorted (fun x y => startsAt x <= startsAt y) l ->
  Sorted.Sorted (fun x y => startsAt x <= startsAt y) (insertByStart a l).
Proof.
  induction 1 as [| x l Hs IH Hh]; simpl; [repeat constructor |].
  destruct (Z.leb_spec (startsAt a) (startsAt x)).
  - repeat constructor; assumption.
  - constructor; [exact IH |].
    destruct l as [| y l]; simpl.
    + constructor. lia.
    + destruct (startsAt a <=? startsAt y); constructor;
        [lia | now inversion Hh].
Qed.

Lemma insertByStart_stable (k : Z) (a : auction) (l : list auction) :
  filter (fun x => startsAt x =? k) (insertByStart a l) =
  filter (fun x => startsAt x =? k) (a :: l).
Proof.
  induction l as [| x l IH]; simpl; [reflexivity |].
  destruct (Z.leb_spec (startsAt a) (startsAt x)); [reflexivity |].
  simpl in *. rewrite IH.
  destruct (Z.eqb_spec (startsAt a) k), (Z.eqb_spec (startsAt x) k);
    try reflexivity. lia.
Qed.

(** X18: the list of the home page and of the dashboard holds the
    auctions of the store, each one once, in the order of their starts;
    auctions with the same start are in the order of the store. *)
Theorem listAuctions_sorted (DATA : list auction) :
  Sorted.Sorted (fun x y => startsAt x <= startsAt y) (listAuctions DATA) /\
  Permutation DATA (listAuctions DATA) /\
  (forall k, filter (fun x => startsAt x =? k) (listAuctions DATA) =
             filter (fun x => startsAt x =? k) DATA).
Proof.
  unfold listAuctions, sortByStart.
  induction DATA as [| a l (IH1 & IH2 & IH3)]; simpl.
  - repeat split; constructor.
  - split; [now apply insertByStart_sorted |]. split.
    + rewrite <- insertByStart_perm. now constructor.
    + intros k. rewrite insertByStart_stable. simpl. now rewrite IH3.
Qed.

(** *** Bids after a bid *)

Lemma leb_infinity (x : number) :
  isNaN x = false -> (x <=? infinity)%float = true.
Proof.
  rewrite NumFacts.isNaN_spec, leb_spec. unfold SFleb.
  change (Prim2SF infinity) with (S754_infinity false).
  destruct (Prim2SF x) as [[] | [] | | []]; simpl; congruence.
Qed.

(** A bid that is not above [currentBid] changes nothing, whatever the
    time. *)
Lemma placeBid_not_above (DATA : list auction) (s : string) (amt : number)
  (from : string) (t : ticks) (a : auction) :
  find (hasSlug s) DATA = Some a ->
  isNaN amt = true \/ (amt <=? currentBid a)%float = true ->
  fst (placeBid DATA s amt from t) = DATA /\
  (snd (placeBid DATA s amt from t) = NotStarted \/
   snd (placeBid DATA s amt from t) = Ended \/
   snd (placeBid DATA s amt from t) = TooLow).
Proof.
  intros Hf H. unfold placeBid. rewrite Hf.
  destruct (negb (hasStarted _ _)); [auto |].
  destruct (hasEnded _ _); [auto |].
  assert (E : isNaN amt || (amt <=? currentBid a)%float = true).
  { destruct H as [-> | ->]; [reflexivity | apply orb_true_r]. }
  rewrite E. auto.
Qed.

Lemma find_modify_other (p q : auction -> bool) (f : auction -> auction)
  (l : list auction) :
  (forall x, q x = true -> p x = false) -> (forall x, p (f x) = p x) ->
  find p (modify_first q f l) = find p l.
Proof.
  intros Hq Hf. induction l as [| x l IH]; simpl; [reflexivity |].
  destruct (q x) eqn:Q; simpl.
  - now rewrite Hf, (Hq x Q).
  - now rewrite IH.
Qed.

Lemma find_modify_same_key (p q : auction -> bool) (f : auction -> auction)
  (l : list auction) (a : auction) :
  find p l = Some a -> (forall x, p (f x) = p x) ->
  find p (modify_first q f l) = Some a \/
  find p (modify_first q f l) = Some (f a).
Proof.
  intros H Hf. induction l as [| x l IH]; simpl in *; [discriminate |].
  destruct (q x) eqn:Q; simpl.
  - rewrite Hf. destruct (p x); [injection H as ->; now right | now left].
  - destruct (p x); [now left | now apply IH].
Qed.

(** A request that keeps the auction keeps its [currentBid] at or above
    a rounded amount it has reached. *)
Lemma handle_standsAbove {lib : StringLib} (s i : string) (y : number)
  (DATA : list auction) (q : request) :
  keepsAuction i q -> standsAbove s i (toFixed2 y) DATA ->
  standsAbove s i (toFixed2 y) (handle DATA q).
Proof.
  intros Hq (a & Hf & Hi & Hb & Hc).
  destruct q as [b r | s' amt from t | j b | j]; simpl in *.
  - destruct (createAuction_cases DATA b r)
      as [E | (s0 & e0 & sl & _ & _ & E)]; rewrite E; simpl.
    + now exists a.
    + exists a. split; [now apply find_app_some | auto].
  - destruct (placeBid_cases DATA s' amt from t)
      as [(r & E & _) | (x & Hx & _ & _ & Hn & Hle & _ & E)];
      rewrite E; simpl; [now exists a |].
    destruct (String.eqb_spec s' s) as [-> | Hne].
    + rewrite Hf in Hx. injection Hx as <-.
      pose proof (find_some _ _ Hf) as [_ Hs].
      exists (recordBid amt (t_stamp t) from a).
      split; [apply find_modify_first; assumption |].
      split; [exact Hi |]. split; [simpl; now destruct (bids a) |].
      apply (RoundFacts.toFixed2_keeps_above y (currentBid a) amt Hc).
      apply NumFacts.not_leb_ltb;
        [exact Hn | apply (NumFacts.leb_not_NaN _ _ Hc) | exact Hle].
    + exists a. split; [| auto]. rewrite find_modify_other; [exact Hf | |].
      * intros z Hz. unfold hasSlug in *. apply String.eqb_eq in Hz.
        apply String.eqb_neq. congruence.
      * reflexivity.
  - rewrite updateAuction_store.
    destruct (find_modify_same_key (hasSlug s) (hasId j)
                (fun x => fst (applyPatch b x)) DATA a Hf) as [H | H].
    + intros x. unfold hasSlug.
      now destruct (applyPatch_frame b x) as (_ & -> & _).
    + now exists a.
    + exists (fst (applyPatch b a)). split; [exact H |].
      destruct (applyPatch_frame b a) as (-> & _ & ->).
      rewrite (applyPatch_currentBid b a Hb). auto.
  - exists a. split; [| auto]. apply find_filter_some; [exact Hf |].
    unfold hasId. rewrite Hi. apply negb_true_iff, String.eqb_neq. congruence.
Qed.

(** X19: an accepted bid stands.  After a bid on a slug is accepted, let
    any requests follow that do not delete the auction the bid went to:
    creates, updates, deletes of other auctions, bids on any slug and of
    any amount.  Then the slug still finds that auction, its
    [currentBid] is at least the accepted amount, and a bid of the
    accepted amount or less, or of no number, is answered 'Bid must be
    greater than current bid.' (or with the auction's phase) and changes
    nothing; so a bid that is sent again is not accepted again when its
    amount has no more than two decimals.  Deleting the auction ends
    this: see [deleted_auction_forgets_bid]. *)
Theorem no_bid_at_or_below_accepted {lib : StringLib}
  (DATA DATA' : list auction) (s : string)
  (amt : number) (from : string) (t : ticks) (c : number) (a : auction) :
  placeBid DATA s amt from t = (DATA', Accepted c) ->
  find (hasSlug s) DATA = Some a ->
  forall qs, Forall (keepsAuction (id a)) qs ->
    (exists a', find (hasSlug s) (fold_left handle qs DATA') = Some a' /\
                id a' = id a /\ bids a' <> [] /\
                (c <=? currentBid a')%float = true) /\
    (forall amt' from' t',
      isNaN amt' = true \/ (amt' <=? c)%float = true ->
      fst (placeBid (fold_left handle qs DATA') s amt' from' t')
        = fold_left handle qs DATA' /\
      (snd (placeBid (fold_left handle qs DATA') s amt' from' t') = NotStarted \/
       snd (placeBid (fold_left handle qs DATA') s amt' from' t') = Ended \/
       snd (placeBid (fold_left handle qs DATA') s amt' from' t') = TooLow)) /\
    (toFixed2 amt = amt ->
     forall from' t',
      fst (placeBid (fold_left handle qs DATA') s amt from' t')
        = fold_left handle qs DATA' /\
      (snd (placeBid (fold_left handle qs DATA') s amt from' t') = NotStarted \/
       snd (placeBid (fold_left handle qs DATA') s amt from' t') = Ended \/
       snd (placeBid (fold_left handle qs DATA') s amt from' t') = TooLow)).
Proof.
  intros H Hfa qs Hqs.
  assert (Hc : isNaN amt = false /\ c = toFixed2 amt /\
               DATA' = modify_first (hasSlug s)
                         (recordBid amt (t_stamp t) from) DATA).
  { destruct (placeBid_cases DATA s amt from t)
      as [(r & E & Hr) | (x & _ & _ & _ & Hn & _ & _ & E)]; rewrite E in H.
    - injection H as _ ->. now destruct (Hr c).
    - injection H as <- <-. auto. }
  destruct Hc as (Hn & -> & ->).
  pose proof (RoundFacts.toFixed2_not_NaN amt Hn) as Hn'.
  assert (H0 : standsAbove s (id a) (toFixed2 amt)
                 (modify_first (hasSlug s)
                    (recordBid amt (t_stamp t) from) DATA)).
  { pose proof (find_some _ _ Hfa) as [_ Hs].
    exists (recordBid amt (t_stamp t) from a).
    split; [apply find_modify_first; assumption |].
    split; [reflexivity |]. split; [simpl; now destruct (bids a) |].
    simpl. now apply leb_self. }
  assert (H1 : standsAbove s (id a) (toFixed2 amt)
                 (fold_left handle qs
                    (modify_first (hasSlug s)
                       (recordBid amt (t_stamp t) from) DATA))).
  { clear H. revert H0.
    generalize (modify_first (hasSlug s)
                  (recordBid amt (t_stamp t) from) DATA) as D.
    induction Hqs as [| q qs Hq _ IH]; simpl; intros D HD; [exact HD |].
    apply IH, handle_standsAbove; assumption. }
  destruct H1 as (a' & Hf' & Hi' & Hb' & Hc').
  split; [exists a'; auto |]. split.
  - intros amt' from' t' [Hnan | Hle];
      apply (placeBid_not_above _ s amt' from' t' a' Hf'); [now left | right].
    apply (RoundFacts.leb_trans _ _ _ Hle Hc').
  - intros Hr from' t'.
    apply (placeBid_not_above _ s amt from' t' a' Hf').
    right. rewrite Hr in Hc'. exact Hc'.
Qed.

(** Witness of X19: after the bid of 60 of the scenario, a patch with a
    starting bid of 10, a bid of 70, a bid on another slug, a second
    auction under the same title and a delete of another id; then the
    bid of 60 is sent again. *)
Lemma no_bid_at_or_below_accepted_witness :
  let qs := [UpdateAuction Scenario.lampId (Scenario.newStartingBid 10%float);
             PlaceBid "lamp" 70%float "198.51.100.4" (at_time 2050);
             PlaceBid "vase" 70%float "198.51.100.4" (at_time 2060);
             CreateAuction Scenario.lamp Scenario.otherDraws;
             DeleteAuction "0011223344556677"] in
  let D := fold_left (handle (lib := Scenario.plain)) qs Scenario.afterBid60 in
  (exists a', find (hasSlug "lamp") D = Some a' /\
              id a' = Scenario.lampId /\ bids a' <> [] /\
              (60 <=? currentBid a')%float = true) /\
  fst (placeBid D "lamp" 60%float "203.0.113.7" (at_time 2100)) = D /\
  (snd (placeBid D "lamp" 60%float "203.0.113.7" (at_time 2100)) = NotStarted \/
   snd (placeBid D "lamp" 60%float "203.0.113.7" (at_time 2100)) = Ended \/
   snd (placeBid D "lamp" 60%float "203.0.113.7" (at_time 2100)) = TooLow).
Proof.
  assert (K : Forall (keepsAuction (id Scenario.lampAuction))
    [UpdateAuction Scenario.lampId (Scenario.newStartingBid 10%float);
     PlaceBid "lamp" 70%float "198.51.100.4" (at_time 2050);
     PlaceBid "vase" 70%float "198.51.100.4" (at_time 2060);
     CreateAuction Scenario.lamp Scenario.otherDraws;
     DeleteAuction "0011223344556677"]).
  { repeat (constructor; [exact I |]).
    constructor; [discriminate | constructor]. }
  destruct (no_bid_at_or_below_accepted (lib := Scenario.plain)
              Scenario.opened Scenario.afterBid60
              "lamp" 60%float "203.0.113.7" (at_time 2000) 60%float
              Scenario.lampAuction eq_refl eq_refl _ K) as (H1 & H2 & _).
  cbv zeta. split; [exact H1 |].
  exact (H2 60%float "203.0.113.7" (at_time 2100) (or_intror eq_refl)).
Defined.

(** The slug of a deleted auction is free again: after the bid of 60 of
    the scenario the auction is deleted and created anew from the same
    form, and a bid of 55 is accepted. *)
Example deleted_auction_forgets_bid :
  exists D,
    run (lib := Scenario.plain)
      [CreateAuction Scenario.lamp Scenario.someDraws;
       PlaceBid "lamp" 60%float "203.0.113.7" (at_time 2000);
       DeleteAuction Scenario.lampId;
       CreateAuction Scenario.lamp Scenario.otherDraws] = D /\
    snd (placeBid D "lamp" 55%float "198.51.100.4" (at_time 2100))
      = Accepted 55%float.
Proof. eexists. split; reflexivity. Qed.

(** X20: an auction whose [currentBid] is plus infinity accepts no bid
    any more: every amount is [NaN] or not above it. *)
Theorem no_bid_above_infinity (DATA : list auction) (s : string)
  (a : auction) :
  find (hasSlug s) DATA = Some a -> currentBid a = infinity ->
  forall amt from t,
    fst (placeBid DATA s amt from t) = DATA /\
    (snd (placeBid DATA s amt from t) = NotStarted \/
     snd (placeBid DATA s amt from t) = Ended \/
     snd (placeBid DATA s amt from t) = TooLow).
Proof.
  intros Hf Hc amt from t. apply (placeBid_not_above _ _ _ _ _ a Hf).
  rewrite Hc. destruct (isNaN amt) eqn:N; [now left | right].
  now apply leb_infinity.
Qed.

(** Witness of X20: after the infinite bid on the auction without a
    cap, a bid of a million. *)
Lemma no_bid_above_infinity_witness :
  let DATA :=
    fst (placeBid Scenario.openedNoCap "lamp" infinity "203.0.113.7"
           (at_time 2000)) in
  fst (placeBid DATA "lamp" 1000000%float "198.51.100.4" (at_time 2500))
    = DATA /\
  (snd (placeBid DATA "lamp" 1000000%float "198.51.100.4" (at_time 2500))
     = NotStarted \/
   snd (placeBid DATA "lamp" 1000000%float "198.51.100.4" (at_time 2500))
     = Ended \/
   snd (placeBid DATA "lamp" 1000000%float "198.51.100.4" (at_time 2500))
     = TooLow).
Proof.
  exact (no_bid_above_infinity
           (fst (placeBid Scenario.openedNoCap "lamp" infinity
                   "203.0.113.7" (at_time 2000)))
           "lamp"
           (recordBid infinity 2000 "203.0.113.7"
              (mkAuction Scenario.lampId "lamp" "lamp" "" 1000 3601000
                 50%float 1%float None 50%float []))
           eq_refl eq_refl 1000000%float "198.51.100.4" (at_time 2500)).
Defined.

(** *** The admin session *)

Section Session.

Context {lib : StringLib} {bc : Bcrypt}.

(** What a request that is not a login does to the session of a client
    that is not logged in, and to the site. *)
Lemma serve_anonymous (D : site) (v : visit) :
  isLogin v = false ->
  serve (false, D) v =
    (false,
     mkSite (admin D)
       match v with
       | Visit (PlaceBid s amt from t) =>
           fst (placeBid (auctions D) s amt from t)
       | _ => auctions D
       end).
Proof.
  destruct D as [adm l].
  destruct v as [u p | | u p salt | [b r | s amt from t | i b | i]];
    simpl; intros H; try discriminate; reflexivity.
Qed.

End Session.

(** X21: a client that is not logged in can only bid.  From a fresh
    session, or from a logout on, as long as it sends no login, the
    create, update, delete and credentials routes change nothing
    whatever it requests: after its visit the credentials are as before
    and the auctions are what its bids alone make of them. *)
Theorem anonymous_visit_only_bids {lib : StringLib} {bc : Bcrypt}
  (D : site) (vs : list visit) :
  existsb isLogin vs = false ->
  browse (false, D) vs =
    (false, mkSite (admin D) (fold_left handle (bidsOnly vs) (auctions D)))
  /\
  forall authed,
    browse (authed, D) (Logout :: vs) =
      (false, mkSite (admin D) (fold_left handle (bidsOnly vs) (auctions D))).
Proof.
  assert (G : forall vs D, existsb isLogin vs = false ->
            browse (false, D) vs =
              (false, mkSite (admin D)
                        (fold_left handle (bidsOnly vs) (auctions D)))).
  { clear. unfold browse. induction vs as [| v vs IH]; intros D H.
    - now destruct D.
    - simpl in H. apply orb_false_iff in H. destruct H as [Hv Hvs].
      cbn [fold_left]. rewrite (serve_anonymous D v Hv), (IH _ Hvs).
      cbn [admin auctions].
      destruct v as [u p | | u p salt | [b r | s amt from t | i b | i]];
        try discriminate; reflexivity. }
  intros H. split; [apply G, H |].
  intros authed. rewrite <- (G vs D H). reflexivity.
Qed.

(** Witness of X21: a client that is not logged in asks for a delete,
    bids 60 and asks for new credentials. *)
Lemma anonymous_visit_only_bids_witness :
  browse (lib := Scenario.plain) (bc := Visitor.clearHash)
    (false, mkSite initialAdmin Scenario.opened)
    [Visit (DeleteAuction Scenario.lampId);
     Visit (PlaceBid "lamp" 60%float "203.0.113.7" (at_time 2000));
     Creds "eve" "secret" Visitor.someSalt]
  = (false, mkSite initialAdmin Scenario.afterBid60).
Proof.
  exact (proj1 (anonymous_visit_only_bids (lib := Scenario.plain)
           (bc := Visitor.clearHash)
           (mkSite initialAdmin Scenario.opened)
           [Visit (DeleteAuction Scenario.lampId);
            Visit (PlaceBid "lamp" 60%float "203.0.113.7" (at_time 2000));
            Creds "eve" "secret" Visitor.someSalt] eq_refl)).
Defined.

(** X22: the login route logs a session in exactly when the submitted
    username is the stored one and [bcrypt.compare] accepts the
    submitted password for the stored hash; any other attempt leaves
    the session as it was, logged in or not. *)
Theorem login_checks_credentials {bc : Bcrypt} (authed : bool) (D : site)
  (u p : option string) :
  (snd (adminLogin authed D u p) = LoggedIn <->
   exists pw h,
     u = Some (username (admin D)) /\ p = Some pw /\
     passwordHash (admin D) = Some h /\ bcryptCompare pw h = true) /\
  (snd (adminLogin authed D u p) = LoggedIn ->
   fst (adminLogin authed D u p) = true) /\
  (snd (adminLogin authed D u p) <> LoggedIn ->
   fst (adminLogin authed D u p) = authed).
Proof.
  unfold adminLogin.
  destruct u as [name |].
  - destruct (String.eqb_spec name (username (admin D))) as [-> | Hn].
    + destruct p as [pw |], (passwordHash (admin D)) as [h |]; simpl.
      * destruct (bcryptCompare pw h) eqn:C; simpl.
        -- split; [| tauto]. split; [| reflexivity].
           intros _. exists pw, h. auto.
        -- split; [| split; [discriminate | reflexivity]].
           split; [discriminate |].
           intros (pw' & h' & _ & [= <-] & [= <-] & F). congruence.
      * split; [| split; [discriminate | reflexivity]].
        split; [discriminate |]. intros (pw' & h' & _ & _ & F & _).
        discriminate.
      * split; [| split; [discriminate | reflexivity]].
        split; [discriminate |]. intros (pw' & h' & _ & F & _).
        discriminate.
      * split; [| split; [discriminate | reflexivity]].
        split; [discriminate |]. intros (pw' & h' & _ & F & _).
        discriminate.
    + simpl. split; [| split; [discriminate | reflexivity]].
      split; [discriminate |]. intros (pw' & h' & [= F] & _). congruence.
  - simpl. split; [| split; [discriminate | reflexivity]].
    split; [discriminate |]. intros (pw' & h' & F & _). discriminate.
Qed.

(** X23: new credentials replace the old ones.  When a logged-in admin
    submits a username and a password, both not empty, and
    [bcrypt.compare] accepts a password for its own hash, a login with
    the new username and password succeeds afterwards, a login with any
    other username fails, and the auctions are untouched; when one of
    the two is empty the route answers 400 and changes nothing. *)
Theorem creds_then_login {bc : Bcrypt} (D : site) (u p salt : string) :
  (forall s pw, bcryptCompare pw (bcryptHash s pw) = true) ->
  (nonEmpty u && nonEmpty p = true ->
   forall authed,
     adminLogin authed (fst (adminCreds true D u p salt)) (Some u) (Some p)
       = (true, LoggedIn) /\
     (forall name pw, name <> u ->
        adminLogin authed (fst (adminCreds true D u p salt)) (Some name) pw
          = (authed, InvalidCredentials)) /\
     auctions (fst (adminCreds true D u p salt)) = auctions D) /\
  (nonEmpty u && nonEmpty p = false ->
   adminCreds true D u p salt = (D, Passed CredsRequired)).
Proof.
  intros Hlaw. unfold adminCreds, authRequired, isLoggedIn. simpl.
  destruct (nonEmpty u), (nonEmpty p); simpl;
    (split; [| try discriminate; try reflexivity]); try discriminate.
  intros _ authed. unfold adminLogin. simpl.
  rewrite String.eqb_refl, Hlaw. split; [reflexivity |].
  split; [| reflexivity]. intros name pw Hn.
  destruct (String.eqb_spec name u); [congruence | reflexivity].
Qed.

(** Witness of X23: the admin of a fresh site takes the name [ada] and
    the password [engine]. *)
Lemma creds_then_login_witness :
  adminLogin (bc := Visitor.clearHash) false
    (fst (adminCreds (bc := Visitor.clearHash) true Visitor.fresh
            "ada" "engine" Visitor.someSalt))
    (Some "ada") (Some "engine") = (true, LoggedIn) /\
  adminLogin (bc := Visitor.clearHash) false
    (fst (adminCreds (bc := Visitor.clearHash) true Visitor.fresh
            "ada" "engine" Visitor.someSalt))
    (Some "admin") (Some "changeme123") = (false, InvalidCredentials).
Proof.
  destruct (creds_then_login (bc := Visitor.clearHash) Visitor.fresh
              "ada" "engine" Visitor.someSalt
              (fun _ pw => String.eqb_refl pw)) as [H _].
  destruct (H eq_refl false) as (H1 & H2 & _).
  split; [exact H1 |]. apply H2. discriminate.
Defined.

(** *** The start of the server *)

(** X24: what [ensureDataFile] makes of the data file.  The site it
    returns always has a username that is not empty and a password
    hash, and the auctions of the file (none when there is no file).
    Credentials that are complete are kept as they are; a file without a
    username gets the username [admin] and the default password even
    if it held a hash; and, when [bcrypt.compare] accepts a password
    for its own hash, a site started without a file lets [admin] in
    with [changeme123]. *)
Theorem ensureDataFile_credentials {bc : Bcrypt} (loaded : option dataFile)
  (salt : string) :
  (forall s pw, bcryptCompare pw (bcryptHash s pw) = true) ->
  let D := ensureDataFile loaded salt in
  nonEmpty (username (admin D)) = true /\
  (exists h, passwordHash (admin D) = Some h) /\
  auctions D = match loaded with
               | Some d => file_auctions d
               | None => []
               end /\
  (forall d c h,
      loaded = Some d -> file_admin d = Some c ->
      nonEmpty (username c) = true ->
      passwordHash c = Some h -> nonEmpty h = true ->
      admin D = c) /\
  (forall d,
      loaded = Some d ->
      match file_admin d with
      | Some c => nonEmpty (username c) = false
      | None => True
      end ->
      admin D = mkCredentials "admin" (Some (bcryptHash salt "changeme123")))
  /\
  (loaded = None ->
   forall authed,
     adminLogin authed D (Some "admin") (Some "changeme123")
       = (true, LoggedIn)).
Proof.
  intros Hlaw D. subst D. unfold ensureDataFile.
  split; [| split; [| split; [| split; [| split]]]].
  - destruct loaded as [d |]; simpl; [| reflexivity].
    destruct (file_admin d) as [c |]; [| reflexivity].
    destruct (nonEmpty (username c)) eqn:N; simpl.
    + destruct (passwordHash c) as [h |]; [destruct (nonEmpty h) |];
        simpl; exact N.
    + reflexivity.
  - destruct loaded as [d |]; simpl; [| eauto].
    destruct (file_admin d) as [c |]; simpl; [| eauto].
    destruct (nonEmpty (username c)); simpl; [| eauto].
    destruct (passwordHash c) as [h |] eqn:P; [| simpl; eauto].
    destruct (nonEmpty h); simpl; eauto.
  - destruct loaded; reflexivity.
  - intros d c h -> Hc Hu Hp Hh. simpl. now rewrite Hc, Hu, Hp, Hh.
  - intros d -> Hc. simpl.
    destruct (file_admin d) as [c |]; [rewrite Hc |]; reflexivity.
  - intros -> authed. unfold adminLogin. simpl. now rewrite Hlaw.
Qed.

(** Witness of X24: the first start, with no data file. *)
Lemma ensureDataFile_credentials_witness :
  adminLogin (bc := Visitor.clearHash) false Visitor.fresh
    (Some "admin") (Some "changeme123") = (true, LoggedIn) /\
  auctions Visitor.fresh = [].
Proof.
  destruct (ensureDataFile_credentials (bc := Visitor.clearHash) None
              Visitor.someSalt (fun _ pw => String.eqb_refl pw))
    as (_ & _ & H1 & _ & _ & H2).
  split; [exact (H2 eq_refl false) | exact H1].
Defined.

(** *** What is stored for every auction *)

Lemma applyPatch_window_valid {lib : StringLib} (b : form) (a : auction) :
  validTime (startsAt a) = true /\ validTime (endsAt a) = true ->
  validTime (startsAt (fst (applyPatch b a))) = true /\
  validTime (endsAt (fst (applyPatch b a))) = true.
Proof.
  intros H. unfold applyPatch.
  assert (Ht : startsAt (setDescription b (setTitle b a)) = startsAt a /\
               endsAt (setDescription b (setTitle b a)) = endsAt a).
  { unfold setDescription, setTitle.
    destruct (nonEmpty (f_title b)), (nonEmpty (f_description b)); auto. }
  destruct (setWindow b (setDescription b (setTitle b a))) as [a2 |] eqn:E;
    cbn [fst].
  - destruct (setBidding_window b a2) as (_ & _ & -> & ->).
    revert E. unfold setWindow.
    destruct (given (f_startsAtLocal b) && given (f_durationMinutes b)).
    + unfold utcISOFromLocal, endFrom.
      destruct (f_startsAtLocal b) as [| | [s |]]; try discriminate.
      destruct (validTime s) eqn:Vs; [| discriminate].
      destruct (validTime (s + _)) eqn:Ve; [| discriminate].
      intros [= <-]. simpl. auto.
    + intros [= <-]. destruct Ht as [-> ->]. exact H.
  - destruct Ht as [-> ->]. exact H.
Qed.

(** X25: every stored start and end is a time value a [Date] can hold,
    and every stored slug is not empty: in every history, the dates the
    bid and status routes compare the clock with are valid dates and
    every auction has a page address. *)
Theorem stored_dates_and_slugs {lib : StringLib} (qs : list request) :
  Forall (fun a => validTime (startsAt a) = true /\
                   validTime (endsAt a) = true) (run qs) /\
  Forall (fun a => nonEmpty (slug a) = true) (run qs).
Proof.
  split; apply run_preserved; intros D q; apply handle_Forall.
  - intros DATA b r a E. revert E. unfold createAuction, utcISOFromLocal,
      endFrom.
    destruct (f_startsAtLocal b) as [| | [s |]]; try discriminate.
    destruct (validTime s) eqn:Vs; [| discriminate].
    destruct (validTime (s + _)) eqn:Ve; [| discriminate].
    intros [= E]. apply app_inv_head in E. injection E as <-. simpl. auto.
  - intros amt at_ from a H. exact H.
  - intros b a. apply applyPatch_window_valid.
  - intros DATA b r a E.
    destruct (created_keys _ _ _ _ E) as (x & E' & _ & Hs & _).
    apply app_inv_head in E'. injection E' as <-. rewrite Hs. clear Hs.
    assert (Hb : exists c rest, baseSlug b r = String c rest).
    { unfold baseSlug.
      destruct (slugify _) as [| c rest]; simpl; eauto. }
    destruct Hb as (c & rest & Hb). unfold suffixedSlug. rewrite Hb.
    destruct (existsb _ DATA); reflexivity.
  - intros amt at_ from a H. exact H.
  - intros b a H. destruct (applyPatch_frame b a) as (_ & -> & _). exact H.
Qed.
